(** * myst_nb.sphinx_: notebook rendering, mime-bundle selection and the
      per-document metadata collector

    A shallow embedding of [src/myst_nb/sphinx_.py].  Python dictionaries whose
    iteration order is observable are association lists, dictionaries used as
    plain maps are stdpp [gmap]s, the docutils document is a table of node
    records addressed by node identity, and Python exceptions are the [Raise]
    branch of [result]. *)

From Stdlib Require Import String Ascii ZArith List Bool Lia.
From stdpp Require Import base option list gmap strings fin_maps fin_sets.

Open Scope string_scope.
Open Scope list_scope.

(** ** Python values and exceptions *)

(** The exceptions the modelled code can raise. *)
Inductive exn :=
| KeyError (key : string)
| TypeError
| ValueError
| AttributeError
| IndexError
| RecursionError
| AssertionError
| OtherError (msg : string).

Inductive result (A : Type) :=
| Ok (a : A)
| Raise (e : exn).
Arguments Ok {A} a.
Arguments Raise {A} e.

Definition rbind {A B} (k : A -> result B) (r : result A) : result B :=
  match r with
  | Ok a => k a
  | Raise e => Raise e
  end.

#[export] Instance result_ret : MRet result := fun A a => Ok a.
#[export] Instance result_bind : MBind result := fun A B k r => rbind k r.

#[local] Set Warnings "-register-all".

(** JSON-like values, as found in notebook and cell metadata.  A dictionary
    keeps its insertion order. *)
Inductive value :=
| VNone
| VBool (b : bool)
| VInt (z : Z)
| VStr (s : string)
| VList (l : list value)
| VDict (d : list (string * value)).

Abbreviation dict := (list (string * value)).

(** Python truthiness, as used by [or], [and], [not] and [if]. *)
Definition truthy (v : value) : bool :=
  match v with
  | VNone => false
  | VBool b => b
  | VInt z => negb (Z.eqb z 0)
  | VStr s => negb (String.eqb s "")
  | VList l => match l with [] => false | _ => true end
  | VDict d => match d with [] => false | _ => true end
  end.

(** [a or b] returns an operand, not a boolean. *)
Definition py_or (a b : value) : value := if truthy a then a else b.

(** [d.get(k)] / [d[k]] on an insertion-ordered dict. *)
Fixpoint dict_get (d : dict) (k : string) : option value :=
  match d with
  | [] => None
  | (k', v) :: d' => if String.eqb k' k then Some v else dict_get d' k
  end.

Definition dict_has (d : dict) (k : string) : bool :=
  match dict_get d k with Some _ => true | None => false end.

(** [d[k]] raises [KeyError] when the key is absent. *)
Definition dict_getitem (d : dict) (k : string) : result value :=
  match dict_get d k with
  | Some v => Ok v
  | None => Raise (KeyError k)
  end.

(** [d[k] = v]: an existing key keeps its position, a new key goes last. *)
Fixpoint dict_set (d : dict) (k : string) (v : value) : dict :=
  match d with
  | [] => [(k, v)]
  | (k', v') :: d' =>
      if String.eqb k' k then (k', v) :: d' else (k', v') :: dict_set d' k v
  end.

(** [d.pop(k, None)], keeping the remaining entries. *)
Definition dict_pop (d : dict) (k : string) : dict :=
  List.filter (fun kv => negb (String.eqb (fst kv) k)) d.

(** [s in t] on strings: substring test. *)
Fixpoint is_substring (s t : string) : bool :=
  if String.prefix s t then true
  else match t with
       | EmptyString => false
       | String _ t' => is_substring s t'
       end.

Definition is_vstr (s : string) (v : value) : bool :=
  match v with
  | VStr t => String.eqb t s
  | _ => false
  end.

(** [a == b]: a boolean equals the integer 0 or 1, lists are compared
    element by element, and dictionaries entry by entry whatever the order
    of their keys. *)
Fixpoint py_eq (a b : value) : bool :=
  match a, b with
  | VNone, VNone => true
  | VBool x, VBool y => Bool.eqb x y
  | VBool x, VInt z | VInt z, VBool x => Z.eqb z (if x then 1 else 0)
  | VInt x, VInt y => Z.eqb x y
  | VStr x, VStr y => String.eqb x y
  | VList l, VList l' =>
      (fix go (l l' : list value) : bool :=
         match l, l' with
         | [], [] => true
         | x :: l, y :: l' => py_eq x y && go l l'
         | _, _ => false
         end) l l'
  | VDict d, VDict d' =>
      Nat.eqb (length d) (length d')
      && (fix go (d : list (string * value)) : bool :=
            match d with
            | [] => true
            | (k, v) :: d =>
                match dict_get d' k with
                | Some v' => py_eq v v'
                | None => false
                end && go d
            end) d
  | _, _ => false
  end.

(** [key in v] for a string [key]: membership in a dict's keys, a list's
    elements, or a string's substrings; other values are not containers. *)
Definition py_contains (v : value) (key : string) : result bool :=
  match v with
  | VDict d => Ok (dict_has d key)
  | VList l => Ok (existsb (is_vstr key) l)
  | VStr t => Ok (is_substring key t)
  | _ => Raise TypeError
  end.

(** [v[key]] for a string [key]. *)
Definition py_getitem (v : value) (key : string) : result value :=
  match v with
  | VDict d => dict_getitem d key
  | _ => Raise TypeError
  end.

(** ** A state-and-exception monad for code that reads shared objects *)

Definition M (S A : Type) : Type := S -> result A * S.

Definition mret {S A} (a : A) : M S A := fun s => (Ok a, s).
Definition mraise {S A} (e : exn) : M S A := fun s => (Raise e, s).
Definition mbind' {S A B} (k : A -> M S B) (m : M S A) : M S B :=
  fun s => match m s with
           | (Ok a, s') => k a s'
           | (Raise e, s') => (Raise e, s')
           end.
Definition mget {S} : M S S := fun s => (Ok s, s).
Definition mput {S} (s : S) : M S unit := fun _ => (Ok tt, s).
Definition mlift {S A} (r : result A) : M S A := fun s => (r, s).

(** [for x in l: f x], stopping at the first exception. *)
Fixpoint mfor {S A} (l : list A) (f : A -> M S unit) : M S unit :=
  match l with
  | [] => mret tt
  | x :: l' => mbind' (fun _ => mfor l' f) (f x)
  end.

#[export] Instance M_ret {S} : MRet (M S) := fun A a => mret a.
#[export] Instance M_bind {S} : MBind (M S) := fun A B k m => mbind' k m.

(** ** Configuration resolver: [SphinxNbRenderer.get_cell_render_config] *)

Module Config.

(** [NbParserConfig]: the class itself lives in [myst_nb.core.config]; the
    renderer reads [cell_render_key] and indexes it by field name, which
    raises [KeyError] for an unknown field. *)
Record NbParserConfig := {
  cell_render_key : string;
  metadata_key : string;
  fields : gmap string value
}.

Definition config_getitem (c : NbParserConfig) (k : string) : result value :=
  match fields c !! k with
  | Some v => Ok v
  | None => Raise (KeyError k)
  end.

(** The objects the lookup can see: the cell's metadata dictionary and the
    renderer's configuration. *)
Record env := {
  the_cell_metadata : dict;
  the_nb_config : NbParserConfig
}.

(** Lines 387-413. *)
Definition get_cell_render_config
    (key : string) (nb_key : option string) (has_nb_key : bool) : M env value :=
  e ← mget ;
  let cell_metadata_key := cell_render_key (the_nb_config e) in
  absent ← mlift
    (if negb (dict_has (the_cell_metadata e) cell_metadata_key) then Ok true
     else ns ← dict_getitem (the_cell_metadata e) cell_metadata_key ;
          b ← py_contains ns key ;
          Ok (negb b)) ;
  if (absent : bool) then
    if negb has_nb_key then mraise (KeyError key)
    else mlift (config_getitem (the_nb_config e)
                  (match nb_key with Some k => k | None => key end))
  else
    ns ← mlift (dict_getitem (the_cell_metadata e) cell_metadata_key) ;
    mlift (py_getitem ns key).

End Config.

(** ** Document tree nodes built by the renderer *)

Module Doctree.

(** [node.line] and [node.source]. *)
Record loc := { line : option nat; source : option string }.

Definition no_loc : loc := {| line := None; source := None |}.

(** A docutils node: a [Text] leaf, or an element with its class name, its
    attribute dictionary and its ordered children.  The four list-valued
    basic attributes (ids, classes, names, dupnames) live in [attrs] like any
    other attribute. *)
Inductive node :=
| Text (s : string) (l : loc)
| Element (tag : string) (attrs : dict) (l : loc) (children : list node).

Definition children (n : node) : list node :=
  match n with
  | Text _ _ => []
  | Element _ _ _ cs => cs
  end.

Definition set_children (n : node) (cs : list node) : node :=
  match n with
  | Text s l => Text s l
  | Element t a l _ => Element t a l cs
  end.

Definition attributes (n : node) : dict :=
  match n with
  | Text _ _ => []
  | Element _ a _ _ => a
  end.

(** [nodes.container(...)]: a fresh container without children. *)
Definition container (attrs : dict) : node := Element "container" attrs no_loc [].

Definition is_container (n : node) : bool :=
  match n with
  | Element t _ _ _ => String.eqb t "container"
  | Text _ _ => false
  end.

(** The source locations of a node and of its descendants, in document
    order. *)
Fixpoint locs (n : node) : list loc :=
  match n with
  | Text _ l => [l]
  | Element _ _ l cs => l :: flat_map locs cs
  end.

(** A node without its source locations. *)
Fixpoint shape (n : node) : node :=
  match n with
  | Text s _ => Text s no_loc
  | Element t a _ cs => Element t a no_loc (List.map shape cs)
  end.

End Doctree.

(** ** Tree builder: [SphinxNbRenderer] *)

Module Builder.
Import Config Doctree.

(** A [SyntaxTreeNode] for a notebook cell: its source text, the first line
    of [token.map] when set, and the entries of [token.meta]. *)
Record token := {
  content : string;
  map_line : option nat;
  meta_index : nat;
  meta_metadata : dict;
  meta_execution_count : value;
  meta_lexer : option string
}.

(** One entry of a code cell's [outputs]: a [NotebookNode] whose fields may
    be absent. *)
Record output := {
  output_type : string;
  name : option string;
  data : option dict;
  metadata : option dict
}.

(** A notebook cell, as far as the renderer reads it: [cell.get("outputs")]. *)
Record cell := { outputs : option (list output) }.

(** [myst_nb.core.render.MimeData]. *)
Record MimeData := {
  mime_type : string;
  mime_content : value;
  mime_cell_metadata : dict;
  mime_output_metadata : dict;
  mime_cell_index : nat;
  mime_output_index : nat;
  mime_line : nat
}.

(** The render-element plugin ([NbElementRenderer]), selected by name at
    configuration time: the operations the tree builder calls. *)
Class NbElementRenderer := {
  render_stdout : output -> dict -> nat -> nat -> list node;
  render_stderr : output -> dict -> nat -> nat -> list node;
  render_error : output -> dict -> nat -> nat -> list node;
  render_mime_type : MimeData -> list node;
  render_raw_cell : string -> dict -> nat -> nat -> list node;
  render_nb_metadata : dict -> dict
}.

(** The renderer's state while it builds: the children of [current_node]. *)
Definition B (A : Type) : Type := M (list node) A.

(** [self.current_node.append(n)] and [self.current_node.extend(ns)]. *)
Definition append (n : node) : B unit := fun cur => (Ok tt, cur ++ [n]).
Definition extend (ns : list node) : B unit := fun cur => (Ok tt, cur ++ ns).

(** [with self.current_node_context(n, append): body]: [n] becomes the
    current node while [body] runs; with [append] it is also a child of the
    previous current node.  The result is [n] as [body] left it. *)
Definition current_node_context (n : node) (app : bool) (body : B unit) : B node :=
  fun cur =>
    match body (children n) with
    | (Ok _, cs) =>
        let n' := set_children n cs in
        (Ok n', if app then cur ++ [n'] else cur)
    | (Raise e, _) => (Raise e, cur)
    end.

(** [token_line(token, default)] of [myst_parser]. *)
Definition token_line (t : token) (default : option nat) : result nat :=
  match map_line t with
  | Some l => Ok l
  | None => match default with
            | Some d => Ok d
            | None => Raise ValueError
            end
  end.

Definition set_loc (n : node) (l : loc) : node :=
  match n with
  | Text s _ => Text s l
  | Element t a _ cs => Element t a l cs
  end.

Definition node_loc (n : node) : loc :=
  match n with
  | Text _ l => l
  | Element _ _ l _ => l
  end.

Section Renderer.

Context {plugin : NbElementRenderer}.

(** [self.nb_config], [self.md_options["notebook"]["cells"]] and
    [self.document["source"]]. *)
Variable nb_config : NbParserConfig.
Variable cells : list cell.
Variable document_source : string.

(** Collaborators outside this file: [create_highlighted_code_block] and
    [create_warning] of [myst_parser]'s renderer (the latter gives the
    system-message node it appends, if the warning is not suppressed),
    [create_figure_context] of [myst_nb.core.render], and the constant
    [DEFAULT_LOG_TYPE] of [myst_nb.core.loggers]. *)
Variable create_highlighted_code_block :
  string -> option string -> value -> string -> nat -> node.
Variable create_warning : string -> nat -> string -> string -> option node.
Variable create_figure_context : option value -> nat -> B unit -> B unit.
Variable DEFAULT_LOG_TYPE : string.

(** [self.get_cell_render_config(metadata, key, has_nb_key=...)]. *)
Definition cell_config (md : dict) (key : string) (has_nb_key : bool)
  : result value :=
  fst (get_cell_render_config key None has_nb_key
         {| the_cell_metadata := md; the_nb_config := nb_config |}).

(** [add_line_and_source_path]: the line is copied when the token has one
    (a [ValueError] from [token_line] is suppressed), the source always. *)
Definition stamp (t : token) (l : loc) : loc :=
  {| line := match token_line t None with
             | Ok n => Some n
             | Raise _ => line l
             end;
     source := Some document_source |}.

Definition add_line_and_source_path (n : node) (t : token) : node :=
  set_loc n (stamp t (node_loc n)).

(** [add_line_and_source_path_r]: the nodes and all their descendants. *)
Fixpoint add_line_and_source_path_r1 (t : token) (n : node) : node :=
  match n with
  | Text s l => Text s (stamp t l)
  | Element tg a l cs =>
      Element tg a (stamp t l) (List.map (add_line_and_source_path_r1 t) cs)
  end.

Definition add_line_and_source_path_r (ns : list node) (t : token) : list node :=
  List.map (add_line_and_source_path_r1 t) ns.

(** The mime container expected for one entry of [output["data"]]: tagged
    with the mime type and holding what the plugin rendered for it. *)
Definition mime_container_of (t : token) (output_index : nat) (o : output)
    (line : nat) (item : string * value) : node :=
  Element "container" [("mime_type", VStr (fst item))] no_loc
    (render_mime_type
       {| mime_type := fst item;
          mime_content := snd item;
          mime_cell_metadata := meta_metadata t;
          mime_output_metadata := default [] (metadata o);
          mime_cell_index := meta_index t;
          mime_output_index := output_index;
          mime_line := line |}).

(** [bool(node.children)]. *)
Definition has_children (n : node) : bool :=
  match children n with [] => false | _ => true end.

(** Lines 591-607: one entry of [output["data"]], rendered into its own
    mime container, which is kept when the plugin produced nodes. *)
Definition render_mime_container (t : token) (output_index : nat) (o : output)
    (line : nat) (item : string * value) : B unit :=
  mime_container ← current_node_context
    (container [("mime_type", VStr (fst item))]) false
    (extend (render_mime_type
       {| mime_type := fst item;
          mime_content := snd item;
          mime_cell_metadata := meta_metadata t;
          mime_output_metadata := default [] (metadata o);
          mime_cell_index := meta_index t;
          mime_output_index := output_index;
          mime_line := line |})) ;
  match children mime_container with
  | [] => mret tt
  | _ => append mime_container
  end.

(** Lines 589-610: the mime bundle of one display_data / execute_result
    output, built inside the figure context. *)
Definition render_mime_bundle (t : token) (output_index : nat) (o : output)
    (line : nat) : B unit :=
  mime_bundle ← current_node_context
    (container [("nb_element", VStr "mime_bundle")]) false
    (items ← mlift (match data o with
                    | Some d => Ok d
                    | None => Raise (KeyError "data")
                    end) ;
     mfor items (render_mime_container t output_index o line)) ;
  match children mime_bundle with
  | [] => mret tt
  | _ => extend (add_line_and_source_path_r [mime_bundle] t)
  end.

(** One iteration of the loop over the outputs (lines 540-618). *)
Definition render_output (t : token) (line : nat) (output_index : nat)
    (o : output) : B unit :=
  let cell_index := meta_index t in
  let md := meta_metadata t in
  if String.eqb (output_type o) "stream" then
    nm ← mlift (match name o with
                | Some n => Ok n
                | None => Raise AttributeError
                end) ;
    if String.eqb nm "stdout" then
      extend (add_line_and_source_path_r (render_stdout o md cell_index line) t)
    else if String.eqb nm "stderr" then
      extend (add_line_and_source_path_r (render_stderr o md cell_index line) t)
    else mret tt
  else if String.eqb (output_type o) "error" then
    extend (add_line_and_source_path_r (render_error o md cell_index line) t)
  else if String.eqb (output_type o) "display_data"
          || String.eqb (output_type o) "execute_result" then
    figure_options ← mlift (match cell_config md "figure" false with
                            | Ok v => Ok (Some v)
                            | Raise (KeyError _) => Ok None
                            | Raise e => Raise e
                            end) ;
    create_figure_context figure_options line
      (render_mime_bundle t output_index o line)
  else
    match create_warning ("Unsupported output type: " +:+ output_type o)
            line DEFAULT_LOG_TYPE "output_type" with
    | Some w => append w
    | None => mret tt
    end.

(** [cells[cell_index].get("outputs", [])]. *)
Definition cell_outputs (cell_index : nat) : result (list output) :=
  match cells !! cell_index with
  | Some c => Ok (default [] (outputs c))
  | None => Raise IndexError
  end.

(** Lines 530-618. *)
Definition render_nb_cell_code_outputs (t : token) : B unit :=
  line ← mlift (token_line t (Some 0)) ;
  outs ← mlift (cell_outputs (meta_index t)) ;
  mfor (zip (seq 0 (length outs)) outs)
    (fun '(output_index, o) => render_output t line output_index o).

(** Lines 514-528. *)
Definition render_nb_cell_code_source (t : token) : B unit :=
  number_lines ← mlift (cell_config (meta_metadata t) "number_source_lines" true) ;
  line ← mlift (token_line t None) ;
  let n := create_highlighted_code_block
             (content t) (meta_lexer t) number_lines document_source line in
  append (add_line_and_source_path n t).

(** [tag.replace(' ', '_')]. *)
Fixpoint replace_spaces (s : string) : string :=
  match s with
  | EmptyString => EmptyString
  | String c s' =>
      String (if Ascii.eqb c " "%char then "_"%char else c) (replace_spaces s')
  end.

(** [for tag in tags: classes.append(f"tag_{tag.replace(' ', '_')}")]: the
    tags are the elements of a list, the keys of a dict or the characters of
    a string; a tag that is not a string has no [replace]. *)
Fixpoint string_chars (s : string) : list string :=
  match s with
  | EmptyString => []
  | String c s' => String c EmptyString :: string_chars s'
  end.

Fixpoint tag_classes_list (l : list value) : result (list value) :=
  match l with
  | [] => Ok []
  | VStr tag :: l' =>
      cs ← tag_classes_list l' ;
      Ok (VStr ("tag_" +:+ replace_spaces tag) :: cs)
  | _ :: _ => Raise AttributeError
  end.

Definition tag_classes (tags : value) : result (list value) :=
  match tags with
  | VList l => tag_classes_list l
  | VDict d => tag_classes_list (List.map (fun kv => VStr (fst kv)) d)
  | VStr s => tag_classes_list (List.map VStr (string_chars s))
  | _ => Raise TypeError
  end.

(** The two flags of lines 463-472, as the values Python's [or] leaves. *)
Definition removal_flag (md : dict) (tags : value) (key tag1 tag2 : string)
  : result value :=
  v ← cell_config md key true ;
  if truthy v then Ok v
  else
    b1 ← py_contains tags tag1 ;
    if (b1 : bool) then Ok (VBool true)
    else b2 ← py_contains tags tag2 ; Ok (VBool b2).

(** Lines 457-512. *)
Definition render_nb_cell_code (t : token) : B unit :=
  let cell_index := meta_index t in
  let md := meta_metadata t in
  let tags := default (VList []) (dict_get md "tags") in
  remove_input ← mlift
    (removal_flag md tags "remove_code_source" "remove_input" "remove-input") ;
  remove_output ← mlift
    (removal_flag md tags "remove_code_outputs" "remove_output" "remove-output") ;
  if truthy remove_input && truthy remove_output then mret tt
  else
    tcs ← mlift (tag_classes tags) ;
    let cell_container :=
      add_line_and_source_path
        (container [("nb_element", VStr "cell_code");
                    ("cell_index", VInt (Z.of_nat cell_index));
                    ("exec_count", meta_execution_count t);
                    ("cell_metadata", VDict md);
                    ("classes", VList (VStr "cell" :: tcs))]) t in
    _ ← current_node_context cell_container true
      (_ ← (if negb (truthy remove_input) then
              let cell_input :=
                add_line_and_source_path
                  (container [("nb_element", VStr "cell_code_source");
                              ("classes", VList [VStr "cell_input"])]) t in
              _ ← current_node_context cell_input true
                    (render_nb_cell_code_source t) ;
              mret tt
            else mret tt) ;
       has_outputs ← mlift (cell_outputs cell_index) ;
       if negb (truthy remove_output)
          && match has_outputs with [] => false | _ => true end then
         let cell_output :=
           add_line_and_source_path
             (container [("nb_element", VStr "cell_code_output");
                         ("classes", VList [VStr "cell_output"])]) t in
         _ ← current_node_context cell_output true
               (render_nb_cell_code_outputs t) ;
         mret tt
       else mret tt) ;
    mret tt.

(** Lines 415-438.  [env.metadata] is Sphinx's per-document metadata, a
    [defaultdict(dict)] keyed by docname.  The result is the updated
    [env.metadata] and the [content] of the front-matter token handed to
    [render_front_matter]. *)
Definition special_keys : list string :=
  ["kernelspec"; "language_info"; "source_map"].

Definition is_special (k : string) : bool :=
  existsb (String.eqb k) special_keys.

Definition save_special (md : dict) (doc_md : dict) (key : string) : dict :=
  match dict_get md key with
  | Some v => dict_set doc_md key v
  | None => doc_md
  end.

Definition render_nb_metadata_token (token_meta : dict) (docname : string)
    (env_metadata : gmap string dict) : gmap string dict * dict :=
  let md := token_meta in
  let env_metadata' :=
    foldl (fun em key =>
             if dict_has md key
             then <[docname := save_special md (default [] (em !! docname)) key]> em
             else em)
          env_metadata special_keys in
  let md' := render_nb_metadata md in
  let top_matter := List.filter (fun kv => negb (is_special (fst kv))) md' in
  (env_metadata', top_matter).

(** The order of steps as the specification words it, for comparison with
    [render_nb_metadata_token]: the plugin transforms the metadata first,
    the reserved keys are then taken from what it returned, and the rest is
    forwarded. *)
Definition render_nb_metadata_plugin_first (token_meta : dict)
    (docname : string) (env_metadata : gmap string dict)
  : gmap string dict * dict :=
  let md' := render_nb_metadata token_meta in
  let env_metadata' :=
    foldl (fun em key =>
             if dict_has md' key
             then <[docname := save_special md' (default [] (em !! docname)) key]> em
             else em)
          env_metadata special_keys in
  (env_metadata', List.filter (fun kv => negb (is_special (fst kv))) md').

(** What an output that is not a mime bundle contributes to the current
    node: the plugin's nodes for a stream or an error, with line and source
    set; nothing for a stream with another name; the warning node, when
    the warning is not suppressed, for an unknown output type. *)
Definition plain_output_nodes (t : token) (line : nat) (o : output)
  : list node :=
  if String.eqb (output_type o) "stream" then
    if String.eqb (default "" (name o)) "stdout" then
      add_line_and_source_path_r
        (render_stdout o (meta_metadata t) (meta_index t) line) t
    else if String.eqb (default "" (name o)) "stderr" then
      add_line_and_source_path_r
        (render_stderr o (meta_metadata t) (meta_index t) line) t
    else []
  else if String.eqb (output_type o) "error" then
    add_line_and_source_path_r
      (render_error o (meta_metadata t) (meta_index t) line) t
  else
    match create_warning ("Unsupported output type: " +:+ output_type o)
            line DEFAULT_LOG_TYPE "output_type" with
    | Some w => [w]
    | None => []
    end.

(** An output the loop renders without a figure context: not a
    display_data or execute_result, and a stream has its name. *)
Definition plain_output (o : output) : bool :=
  negb (String.eqb (output_type o) "display_data"
        || String.eqb (output_type o) "execute_result")
  && (negb (String.eqb (output_type o) "stream")
      || match name o with Some _ => true | None => false end).

(** A display_data or execute_result output. *)
Definition is_display (o : output) : bool :=
  String.eqb (output_type o) "display_data"
  || String.eqb (output_type o) "execute_result".

(** What a display_data or execute_result output is to contribute: one mime
    bundle that holds, in the order of the output's data, one container per
    (mime_type, payload) pair for which the plugin gave nodes; and nothing
    at all when no container is left. *)
Definition mime_bundle_nodes (t : token) (output_index : nat) (o : output)
    (line : nat) : list node :=
  match List.filter has_children
          (List.map (mime_container_of t output_index o line)
             (default [] (data o))) with
  | [] => []
  | kept =>
      add_line_and_source_path_r
        [Element "container" [("nb_element", VStr "mime_bundle")] no_loc kept]
        t
  end.

(** What the output at a position of the cell's outputs contributes when
    there is no figure to wrap it. *)
Definition output_nodes (t : token) (line : nat) (item : nat * output)
  : list node :=
  if is_display (snd item)
  then mime_bundle_nodes t (fst item) (snd item) line
  else plain_output_nodes t line (snd item).

(** An output the loop renders without raising: a display_data or
    execute_result has its data, a stream has its name. *)
Definition renderable (o : output) : bool :=
  if is_display o
  then match data o with Some _ => true | None => false end
  else plain_output o.

(** Lines 448-455. *)
Definition render_nb_cell_raw (t : token) : B unit :=
  line ← mlift (token_line t (Some 0)) ;
  extend (add_line_and_source_path_r
            (render_raw_cell (content t) (meta_metadata t) (meta_index t) line) t).

End Renderer.

End Builder.

(** ** [Parser.parse]: notebook-level configuration overrides *)

Module Parse.
Import Config.

Inductive level := Warning | Debug.

(** A record of the document logger: level, message and subtype. *)
Record log_record := {
  log_level : level;
  log_message : string;
  log_subtype : string
}.

Section Parser.

(** Collaborators outside this file: [NbParserConfig.copy], which validates
    the new configuration and raises when a field is invalid;
    [nb_node_to_dict] of [myst_nb.core.parse]; [str(exc)]. *)
Variable copy : NbParserConfig -> dict -> result NbParserConfig.
Variable nb_node_to_dict : value -> value.
Variable exn_str : exn -> string.

(** What [parse] produces, and the rest of [parse] (lines 293-371) as a
    function of the configuration in force and the log so far. *)
Variable outcome : Type.
Variable continue_parse : NbParserConfig -> list log_record -> outcome.

(** Lines 277-291. *)
Definition update_config (nb_config : NbParserConfig) (notebook_metadata : dict)
  : result (NbParserConfig * list log_record) :=
  if dict_has notebook_metadata (metadata_key nb_config) then
    raw ← dict_getitem notebook_metadata (metadata_key nb_config) ;
    overrides ← match nb_node_to_dict raw with
                | VDict d => Ok (dict_pop d "output_folder")
                | VList _ => Raise TypeError
                | _ => Raise AttributeError
                end ;
    match copy nb_config overrides with
    | Ok nb_config' =>
        Ok (nb_config',
            [{| log_level := Debug;
                log_message := "Updated configuration with notebook metadata";
                log_subtype := "config" |}])
    | Raise exc =>
        Ok (nb_config,
            [{| log_level := Warning;
                log_message :=
                  "Failed to update configuration with notebook metadata: "
                  +:+ exn_str exc;
                log_subtype := "config" |}])
    end
  else Ok (nb_config, []).

(** Lines 252-371, for a document that has a notebook reader. *)
Definition parse (nb_config : NbParserConfig) (notebook_metadata : dict)
  : result outcome :=
  '(nb_config', log) ← update_config nb_config notebook_metadata ;
  Ok (continue_parse nb_config' log).

End Parser.

End Parse.

(** ** Per-document metadata store: [NbMetadataCollector] *)

Module Collector.

(** The attributes myst_nb sets on the Sphinx build environment.  [None]
    stands for an attribute that has not been set ([hasattr] is false);
    [nb_metadata] is a [defaultdict(dict)] from docname to that document's
    entry. *)
Record SphinxEnvType := {
  nb_metadata : option (gmap string dict);
  nb_new_exec_data : option bool
}.

(** [m[k]] on a [defaultdict(dict)]: a missing key is created with an empty
    dict, which is also the value read. *)
Definition defaultdict_getitem (m : gmap string dict) (k : string)
  : dict * gmap string dict :=
  match m !! k with
  | Some v => (v, m)
  | None => ([], <[k := []]> m)
  end.

(** [if not hasattr(env, "nb_metadata"): env.nb_metadata = defaultdict(dict)]. *)
Definition ensure_metadata (env : SphinxEnvType) : gmap string dict :=
  default ∅ (nb_metadata env).

(** Lines 675-680. *)
Definition set_doc_data (env : SphinxEnvType) (docname key : string) (v : value)
  : SphinxEnvType :=
  let m := ensure_metadata env in
  {| nb_metadata := Some (<[docname := dict_set (default [] (m !! docname)) key v]> m);
     nb_new_exec_data := nb_new_exec_data env |}.

(** Lines 715-718. *)
Definition note_exec_update (env : SphinxEnvType) : SphinxEnvType :=
  {| nb_metadata := nb_metadata env; nb_new_exec_data := Some true |}.

(** Lines 720-723: [getattr(env, "nb_new_exec_data", False)]. *)
Definition new_exec_data (env : SphinxEnvType) : bool :=
  default false (nb_new_exec_data env).

(** Lines 703-713. *)
Definition get_outdated_docs (env : SphinxEnvType) : SphinxEnvType :=
  {| nb_metadata := nb_metadata env; nb_new_exec_data := Some false |}.

(** Lines 748-756. *)
Definition clear_doc (env : SphinxEnvType) (docname : string) : SphinxEnvType :=
  {| nb_metadata := Some (delete docname (ensure_metadata env));
     nb_new_exec_data := nb_new_exec_data env |}.

(** The loop of lines 771-772 over the docnames in iteration order; the
    state is the pair of [env.nb_metadata] and [other_metadata]. *)
Definition merge_loop (docnames : list string)
    (st : gmap string dict * gmap string dict)
  : gmap string dict * gmap string dict :=
  foldl (fun '(env_md, other_md) docname =>
           let '(entry, other_md') := defaultdict_getitem other_md docname in
           (<[docname := entry]> env_md, other_md'))
        st docnames.

(** Lines 761-774.  Both environments are returned: reading
    [other_metadata[docname]] can add an entry to [other.nb_metadata]. *)
Definition merge_other (env : SphinxEnvType) (docnames : gset string)
    (other : SphinxEnvType) : result (SphinxEnvType * SphinxEnvType) :=
  let env_md := ensure_metadata env in
  let other_metadata := default ∅ (nb_metadata other) in
  let '(env_md', other_md') :=
    merge_loop (elements docnames) (env_md, other_metadata) in
  let other' :=
    {| nb_metadata := match nb_metadata other with
                      | Some _ => Some other_md'
                      | None => None
                      end;
       nb_new_exec_data := nb_new_exec_data other |} in
  match nb_new_exec_data other with
  | None => Raise AttributeError
  | Some flag =>
      Ok ({| nb_metadata := Some env_md';
             nb_new_exec_data :=
               if flag then Some true else nb_new_exec_data env |},
          other')
  end.

(** Lines 682-687: the mapping is returned, and the attribute is set when it
    was not. *)
Definition get_doc_data (env : SphinxEnvType)
  : gmap string dict * SphinxEnvType :=
  let m := ensure_metadata env in
  (m, {| nb_metadata := Some m; nb_new_exec_data := nb_new_exec_data env |}).

(** Lines 689-696. *)
Definition set_exec_data (env : SphinxEnvType) (docname : string) (v : value)
  : SphinxEnvType :=
  note_exec_update (set_doc_data env docname "exec_data" v).

(** [get_doc_data(env)[docname]]: indexing the [defaultdict] creates the
    entry of a document that has none. *)
Definition doc_entry (env : SphinxEnvType) (docname : string)
  : dict * SphinxEnvType :=
  let '(m, env1) := get_doc_data env in
  let '(entry, m') := defaultdict_getitem m docname in
  (entry, {| nb_metadata := Some m'; nb_new_exec_data := nb_new_exec_data env1 |}).

(** Lines 698-701; [.get("exec_data")] is [None] for a missing key. *)
Definition get_exec_data (env : SphinxEnvType) (docname : string)
  : value * SphinxEnvType :=
  let '(entry, env') := doc_entry env docname in
  (default VNone (dict_get entry "exec_data"), env').

(** Lines 725-739.  The tuple [(uri, kwargs)] is stored as a two-element
    list.  [js_files[key] = ...] needs the value found under ["js_files"] to
    take a string key, which among the JSON-like values only a dict does. *)
Definition add_js_file (docname key : string) (uri kwargs : value)
  : M SphinxEnvType unit :=
  fun env =>
    let m := ensure_metadata env in
    let entry := default [] (m !! docname) in
    match default (VDict []) (dict_get entry "js_files") with
    | VDict js_files =>
        (Ok tt,
         {| nb_metadata :=
              Some (<[docname :=
                        dict_set entry "js_files"
                          (VDict (dict_set js_files key (VList [uri; kwargs])))]> m);
            nb_new_exec_data := nb_new_exec_data env |})
    | _ =>
        (Raise TypeError,
         {| nb_metadata := Some m;
            nb_new_exec_data := nb_new_exec_data env |})
    end.

(** Lines 741-746; [.get("js_files", {})]. *)
Definition get_js_files (env : SphinxEnvType) (docname : string)
  : value * SphinxEnvType :=
  let '(entry, env') := doc_entry env docname in
  (default (VDict []) (dict_get entry "js_files"), env').

End Collector.

(** ** The document as the post-transform sees it: nodes with identity *)

Module Docutils.
Import Doctree.

(** A node is known by its identity.  Its record holds what docutils keeps
    on the object: the class ([KText] for [nodes.Text], otherwise the
    element's class name), the attribute dictionary, [line]/[source], the
    [document] it belongs to, the list of children and the [parent]
    pointer.  The document is known by what the transform reads from it:
    its [current_line] and [current_source]. *)
Inductive kind :=
| KText (s : string)
| KElement (tag : string).

Record nrec := {
  node_kind : kind;
  node_attrs : dict;
  node_loc : loc;
  node_document : option loc;
  node_children : list nat;
  node_parent : option nat
}.

Abbreviation store := (gmap nat nrec).

Definition set_node_children (r : nrec) (cs : list nat) : nrec :=
  {| node_kind := node_kind r; node_attrs := node_attrs r;
     node_loc := node_loc r; node_document := node_document r;
     node_children := cs; node_parent := node_parent r |}.

Definition set_node_parent (r : nrec) (p : option nat) : nrec :=
  {| node_kind := node_kind r; node_attrs := node_attrs r;
     node_loc := node_loc r; node_document := node_document r;
     node_children := node_children r; node_parent := p |}.

Definition set_node_attrs (r : nrec) (a : dict) : nrec :=
  {| node_kind := node_kind r; node_attrs := a;
     node_loc := node_loc r; node_document := node_document r;
     node_children := node_children r; node_parent := node_parent r |}.

(** Dereferencing a node.  Every identity held by a Python object is live;
    an identity missing from the table has no counterpart in Python. *)
Definition deref (s : store) (i : nat) : result nrec :=
  match s !! i with
  | Some r => Ok r
  | None => Raise (OtherError "no such node")
  end.

(** [node[key]]: [Text] is a [str], which cannot be indexed by a string; an
    element without the attribute raises [KeyError]. *)
Definition node_getitem (r : nrec) (key : string) : result value :=
  match node_kind r with
  | KText _ => Raise TypeError
  | KElement _ => dict_getitem (node_attrs r) key
  end.

(** [l.index(x)] on a list of nodes, compared by identity. *)
Fixpoint index_of (x : nat) (l : list nat) : option nat :=
  match l with
  | [] => None
  | y :: l' => if Nat.eqb y x then Some 0
               else match index_of x l' with
                    | Some i => Some (S i)
                    | None => None
                    end
  end.

(** [l.remove(x)]: the first occurrence goes. *)
Fixpoint remove_first (x : nat) (l : list nat) : list nat :=
  match l with
  | [] => []
  | y :: l' => if Nat.eqb y x then l' else y :: remove_first x l'
  end.

(** [node.parent.remove(node)]. *)
Definition parent_remove (s : store) (node : nat) : result store :=
  r ← deref s node ;
  match node_parent r with
  | None => Raise AttributeError
  | Some p =>
      pr ← deref s p ;
      match index_of node (node_children pr) with
      | None => Raise ValueError
      | Some _ =>
          Ok (<[p := set_node_children pr (remove_first node (node_children pr))]> s)
      end
  end.

(** [Element.basic_attributes].  docutils gives every element these four
    attributes, each a list; an attribute dictionary that lacks one of them
    stands for the element whose list is empty. *)
Definition basic_attributes : list string :=
  ["ids"; "classes"; "names"; "dupnames"].

Definition basic_attribute (a : dict) (att : string) : value :=
  default (VList []) (dict_get a att).

(** [for value in values]: the elements of a list, the characters of a
    string, the keys of a dictionary. *)
Definition py_iter (v : value) : result (list value) :=
  match v with
  | VList l => Ok l
  | VStr t =>
      Ok (List.map (fun c => VStr (String c "")) (list_ascii_of_string t))
  | VDict d => Ok (List.map (fun kv => VStr (fst kv)) d)
  | _ => Raise TypeError
  end.

(** [value in container]: an element of a list, a substring of a string, a
    key of a dictionary (a list or a dictionary cannot be hashed). *)
Definition py_in (v container : value) : result bool :=
  match container with
  | VList l => Ok (existsb (py_eq v) l)
  | VStr t =>
      match v with
      | VStr k => Ok (is_substring k t)
      | _ => Raise TypeError
      end
  | VDict d =>
      match v with
      | VStr k => Ok (dict_has d k)
      | VList _ | VDict _ => Raise TypeError
      | _ => Ok false
      end
  | _ => Raise TypeError
  end.

(** The body of the loop of [Element.append_attr_list]:
    [if value not in self[attr]: self[attr].append(value)]. *)
Definition append_attr (a : dict) (attr : string) (v : value) : result dict :=
  present ← py_in v (basic_attribute a attr) ;
  if present : bool then Ok a
  else match basic_attribute a attr with
       | VList l => Ok (dict_set a attr (VList (l ++ [v])))
       | _ => Raise AttributeError
       end.

(** [self.append_attr_list(attr, values)]. *)
Fixpoint append_attr_list (a : dict) (attr : string) (values : list value)
  : result dict :=
  match values with
  | [] => Ok a
  | v :: values' =>
      a' ← append_attr a attr v ;
      append_attr_list a' attr values'
  end.

(** [self.update_basic_atts(dict_)], on the attributes [a] of [self]:
    [for att in self.basic_attributes:
       self.append_attr_list(att, dict_.get(att, []))]. *)
Fixpoint update_atts (atts : list string) (a dict_ : dict) : result dict :=
  match atts with
  | [] => Ok a
  | att :: atts' =>
      values ← py_iter (basic_attribute dict_ att) ;
      a' ← append_attr_list a att values ;
      update_atts atts' a' dict_
  end.

Definition update_basic_atts (a dict_ : dict) : result dict :=
  update_atts basic_attributes a dict_.

(** [for att in self.basic_attributes: assert not self[att]]. *)
Definition losing_attribute (a : dict) : bool :=
  existsb (fun att => truthy (basic_attribute a att)) basic_attributes.

Arguments update_basic_atts : simpl never.
Arguments losing_attribute : simpl never.

(** [parent.setup_child(child)], where [doc] is [parent.document]: the
    child gets its parent and, when the parent belongs to a document, that
    document, and the document's current source and line where it has none
    of its own. *)
Definition setup_child (doc : option loc) (p : nat) (cr : nrec) : nrec :=
  match doc with
  | None => set_node_parent cr (Some p)
  | Some current =>
      {| node_kind := node_kind cr;
         node_attrs := node_attrs cr;
         node_loc :=
           {| line := match line (node_loc cr) with
                      | Some l => Some l
                      | None => line current
                      end;
              source := match source (node_loc cr) with
                        | Some f => Some f
                        | None => source current
                        end |};
         node_document := Some current;
         node_children := node_children cr;
         node_parent := Some p |}
  end.

(** [for node in item: self.setup_child(node)]. *)
Definition setup_children (doc : option loc) (p : nat) (new : list nat)
    (s : store) : store :=
  foldl (fun s c => match s !! c with
                    | Some cr => <[c := setup_child doc p cr]> s
                    | None => s
                    end) s new.

(** The first half of [node.replace_self(new)] for a list [new], where [r]
    is the record of [node]: when the first of the new nodes is an element,
    the ids, classes, names and dupnames of the replaced node are merged
    into it; otherwise the replaced node must have none to lose. *)
Definition hand_over (s : store) (r : nrec) (new : list nat) : result store :=
  match new with
  | [] =>
      if losing_attribute (node_attrs r) then Raise AssertionError else Ok s
  | update :: _ =>
      ur ← deref s update ;
      match node_kind ur with
      | KElement _ =>
          a ← update_basic_atts (node_attrs ur) (node_attrs r) ;
          Ok (<[update := set_node_attrs ur a]> s)
      | KText _ =>
          if losing_attribute (node_attrs r) then Raise AssertionError
          else Ok s
      end
  end.

(** [node.replace_self(new)] for a list [new]: after the hand-over of the
    basic attributes, [parent.replace(node, new)] finds the node among the
    parent's children, adopts the new children and assigns them to the
    one-element slice. *)
Definition replace_self (s : store) (node : nat) (new : list nat) : result store :=
  r ← deref s node ;
  s0 ← hand_over s r new ;
  match node_parent r with
  | None => Raise AttributeError
  | Some p =>
      pr ← deref s0 p ;
      match index_of node (node_children pr) with
      | None => Raise ValueError
      | Some i =>
          let s1 := setup_children (node_document pr) p new s0 in
          pr1 ← deref s1 p ;
          Ok (<[p := set_node_children pr1
                       (take i (node_children pr1) ++ new
                        ++ drop (S i) (node_children pr1))]> s1)
      end
  end.

(** What both [parent_remove] and [replace_self] do to the shape of the
    document: in [s'] the child at position [i] of [p] has been replaced by
    the nodes [new] (removed, when [new] is empty) and the nodes of [new]
    have [p] as their parent; every node keeps its class and its
    attributes other than ids, classes, names and dupnames. *)
Definition spliced (s s' : store) (p i : nat) (new : list nat) : Prop :=
  forall q,
    match s !! q, s' !! q with
    | Some r, Some r' =>
        node_kind r' = node_kind r
        /\ (forall key, key ∉ basic_attributes ->
              dict_get (node_attrs r') key = dict_get (node_attrs r) key)
        /\ node_children r' =
             (if decide (q = p)
              then take i (node_children r) ++ new ++ drop (S i) (node_children r)
              else node_children r)
        /\ node_parent r' =
             (if decide (q ∈ new) then Some p else node_parent r)
    | None, None => True
    | _, _ => False
    end.

(** The same step in full, when the replaced node has no ids, classes,
    names or dupnames to hand over: the nodes of [new] are adopted by [p],
    the children of [p] are spliced, and nothing else changes. *)
Definition replaced (s s' : store) (p i : nat) (new : list nat) : Prop :=
  forall q,
    s' !! q =
      (fun r =>
         let r1 := if decide (q ∈ new)
                   then setup_child (s !! p ≫= node_document) p r
                   else r in
         if decide (q = p)
         then set_node_children r1
                (take i (node_children r1) ++ new
                 ++ drop (S i) (node_children r1))
         else r1) <$> s !! q.

(** [findall(node)(condition)]: the node itself, then its descendants,
    child by child.  The recursion depth is bounded by [fuel]. *)
Fixpoint traverse (condition : nrec -> bool) (fuel : nat) (s : store) (i : nat)
  : result (list nat) :=
  match fuel with
  | 0 => Raise RecursionError
  | S fuel' =>
      r ← deref s i ;
      rest ← (fix go (cs : list nat) : result (list nat) :=
                 match cs with
                 | [] => Ok []
                 | c :: cs' =>
                     l1 ← traverse condition fuel' s c ;
                     l2 ← go cs' ;
                     Ok (l1 ++ l2)
                 end) (node_children r) ;
      Ok (if condition r then i :: rest else rest)
  end.

(** The loop of [traverse] over the children of a node. *)
Definition traverse_list (condition : nrec -> bool) (fuel : nat) (s : store)
  : list nat -> result (list nat) :=
  fix go (cs : list nat) : result (list nat) :=
    match cs with
    | [] => Ok []
    | c :: cs' =>
        l1 ← traverse condition fuel s c ;
        l2 ← go cs' ;
        Ok (l1 ++ l2)
    end.

(** [path s n a b]: [b] is found [n] levels below [a], following the lists
    of children. *)
Inductive path (s : store) : nat -> nat -> nat -> Prop :=
| path_here a : path s 0 a a
| path_step n a b r c :
    path s n a b -> s !! b = Some r -> c ∈ node_children r ->
    path s (S n) a c.

(** The nodes of the document rooted at [d]. *)
Definition reachable (s : store) (d i : nat) : Prop := exists n, path s n d i.

(** Placing a freshly built tree into the table: identities are handed out
    in document order, starting at [next]; [doc] is the document the nodes
    belong to. *)
Fixpoint load (doc : option loc) (p : option nat) (n : node) (next : nat)
    (s : store)
  : nat * store :=
  match n with
  | Text t l =>
      (S next,
       <[next := {| node_kind := KText t; node_attrs := []; node_loc := l;
                    node_document := doc;
                    node_children := []; node_parent := p |}]> s)
  | Element tg a l cs =>
      let '(ids, next', s') :=
        (fix go (cs : list node) (nx : nat) (s : store)
           : list nat * nat * store :=
           match cs with
           | [] => ([], nx, s)
           | c :: cs' =>
               let '(nx1, s1) := load doc (Some next) c nx s in
               let '(ids, nx2, s2) := go cs' nx1 s1 in
               (nx :: ids, nx2, s2)
           end) cs (S next) s in
      (next',
       <[next := {| node_kind := KElement tg; node_attrs := a; node_loc := l;
                    node_document := doc;
                    node_children := ids; node_parent := p |}]> s')
  end.

End Docutils.

(** ** Mime-bundle resolver: [SelectMimeType] *)

Module SelectMimeType.
Import Docutils.

(** A call of [SPHINX_LOGGER.warning]. *)
Record warning := {
  w_message : string;
  w_type : string;
  w_subtype : string;
  w_location : nat
}.

Section Transform.

(** Collaborators outside this file: [get_mime_priority] of
    [myst_nb.core.render], the constant [DEFAULT_LOG_TYPE], and Python's
    [repr]. *)
Variable get_mime_priority : string -> value -> list string.
Variable DEFAULT_LOG_TYPE : string.
Variable py_repr : value -> string.

(** [self.app.builder.name], [self.config["nb_mime_priority_overrides"]]
    and the identity of [self.document]. *)
Variable bname : string.
Variable overrides : value.
Variable document : nat.

(** Lines 636-639: a [nodes.container] whose [nb_element] attribute is
    ["mime_bundle"]. *)
Definition condition (r : nrec) : bool :=
  match node_kind r with
  | KElement tag =>
      String.eqb tag "container"
      && is_vstr "mime_bundle"
           (default (VStr "") (dict_get (node_attrs r) "nb_element"))
  | KText _ => false
  end.

(** [mime_types.index(mime_type)]. *)
Fixpoint mime_index (mime_type : string) (mime_types : list value) : option nat :=
  match mime_types with
  | [] => None
  | m :: ms => if is_vstr mime_type m then Some 0
               else match mime_index mime_type ms with
                    | Some i => Some (S i)
                    | None => None
                    end
  end.

(** Lines 648-655: the first entry of the priority list found among the
    mime types decides. *)
Fixpoint select_index (priority_list : list string) (mime_types : list value)
  : option nat :=
  match priority_list with
  | [] => None
  | mime_type :: rest =>
      match mime_index mime_type mime_types with
      | Some i => Some i
      | None => select_index rest mime_types
      end
  end.

(** [",".join(...)]. *)
Fixpoint join (sep : string) (l : list string) : string :=
  match l with
  | [] => ""
  | [x] => x
  | x :: l' => x +:+ sep +:+ join sep l'
  end.

Definition no_mime_warning (node : nat) (mime_types : list value) : warning :=
  {| w_message :=
       "No mime type available in priority list for builder "
       +:+ py_repr (VStr bname) +:+ " ("
       +:+ join "," (List.map py_repr mime_types)
       +:+ ") [" +:+ DEFAULT_LOG_TYPE +:+ ".mime_priority]";
     w_type := DEFAULT_LOG_TYPE;
     w_subtype := "mime_priority";
     w_location := node |}.

(** [[node["mime_type"] for node in node.children]]. *)
Fixpoint child_mime_types (s : store) (cs : list nat) : result (list value) :=
  match cs with
  | [] => Ok []
  | c :: cs' =>
      cr ← deref s c ;
      m ← node_getitem cr "mime_type" ;
      ms ← child_mime_types s cs' ;
      Ok (m :: ms)
  end.

(** The body of the loop, lines 642-669, on the document and the warnings
    logged so far. *)
Definition process (priority_list : list string)
    (st : store * list warning) (node : nat) : result (store * list warning) :=
  let '(s, log) := st in
  r ← deref s node ;
  mime_types ← child_mime_types s (node_children r) ;
  match mime_types with
  | [] => s' ← parent_remove s node ; Ok (s', log)
  | _ =>
      match select_index priority_list mime_types with
      | None =>
          let log' := log ++ [no_mime_warning node mime_types] in
          s' ← parent_remove s node ; Ok (s', log')
      | Some index =>
          match node_children r !! index with
          | None => Raise IndexError
          | Some w =>
              wr ← deref s w ;
              match node_children wr with
              | [] => s' ← parent_remove s node ; Ok (s', log)
              | new => s' ← replace_self s node new ; Ok (s', log)
              end
          end
      end
  end.

(** The warning a mime bundle gives rise to, read off a document: the one
    of the loop body when the bundle has representations and none of them
    is in the priority list, and none otherwise. *)
Definition bundle_warnings (priority_list : list string) (s : store)
    (node : nat) : list warning :=
  match s !! node with
  | Some r =>
      match child_mime_types s (node_children r) with
      | Ok mime_types =>
          match mime_types, select_index priority_list mime_types with
          | _ :: _, None => [no_mime_warning node mime_types]
          | _, _ => []
          end
      | Raise _ => []
      end
  | None => []
  end.

Fixpoint process_all (priority_list : list string) (nodes : list nat)
    (st : store * list warning) : result (store * list warning) :=
  match nodes with
  | [] => Ok st
  | node :: rest =>
      st' ← process priority_list st node ;
      process_all priority_list rest st'
  end.

(** Lines 628-669.  The node list is taken before the loop changes the
    document.  A document has fewer levels than nodes. *)
Definition run (s : store) : result (store * list warning) :=
  let priority_list := get_mime_priority bname overrides in
  nodes ← traverse condition (S (size s)) s document ;
  process_all priority_list nodes (s, []).

End Transform.

End SelectMimeType.

(** ** The shape of a document *)

Module Shape.
Import Docutils SelectMimeType.

(** A document is a tree: the root is not a candidate of the transform and
    has no parent; the children of a node are distinct nodes of the table
    whose parent pointer is that node; and no candidate (mime bundle) is
    directly the child of a candidate: the children of a mime bundle are
    the containers of its representations. *)
Definition child_ok (s : store) (q : nat) (qr : nrec) (c : nat) : bool :=
  match s !! c with
  | Some cr =>
      bool_decide (node_parent cr = Some q)
      && negb (condition qr && condition cr)
  | None => false
  end.

Definition node_ok (s : store) (q : nat) (qr : nrec) : bool :=
  bool_decide (NoDup (node_children qr))
  && forallb (child_ok s q qr) (node_children qr).

Definition well_formed (s : store) (d : nat) : bool :=
  match s !! d with
  | Some r0 => bool_decide (node_parent r0 = None) && negb (condition r0)
  | None => false
  end
  && forallb (fun kv => node_ok s (fst kv) (snd kv)) (map_to_list s).

(** Every child of a mime bundle is an element that carries a mime type,
    as the renderer builds them. *)
Definition tagged (s : store) : bool :=
  forallb
    (fun kv =>
       negb (condition (snd kv))
       || forallb (fun c => match s !! c with
                            | Some cr =>
                                match node_getitem cr "mime_type" with
                                | Ok _ => true
                                | Raise _ => false
                                end
                            | None => false
                            end)
                  (node_children (snd kv)))
    (map_to_list s).

(** A mime bundle as the renderer builds it: a container that has no ids,
    classes, names or dupnames. *)
Definition no_basic_atts (a : dict) : bool :=
  forallb (fun att => match dict_get a att with
                      | None | Some (VList []) => true
                      | Some _ => false
                      end) basic_attributes.

Definition plain (s : store) : bool :=
  forallb
    (fun kv => negb (condition (snd kv))
               || no_basic_atts (node_attrs (snd kv)))
    (map_to_list s).

(** A node the loop body can deal with: it hangs under a node of the table
    that lists it among its children, it has no basic attributes to hand
    over, its own children carry mime types, and their children are nodes
    of the table. *)
Definition ready (s : store) (x : nat) : Prop :=
  exists r p pr i mts,
    s !! x = Some r /\ node_parent r = Some p /\ s !! p = Some pr
    /\ index_of x (node_children pr) = Some i
    /\ child_mime_types s (node_children r) = Ok mts
    /\ no_basic_atts (node_attrs r) = true
    /\ forall c cr u, c ∈ node_children r -> s !! c = Some cr ->
          u ∈ node_children cr -> is_Some (s !! u).

(** What is to take the place of a mime bundle with record [r] whose
    children carry the mime types [mts]: the children of the first child
    whose mime type is the earliest entry of the priority list found among
    [mts]; nothing, when no entry of the priority list is among them. *)
Definition selection (prio : list string) (s : store) (r : nrec)
    (mts : list value) (new : list nat) : Prop :=
  (exists j m idx w wr,
     prio !! j = Some m
     /\ (forall j' m', j' < j -> prio !! j' = Some m' -> VStr m' ∉ mts)
     /\ mts !! idx = Some (VStr m)
     /\ (forall i', i' < idx -> mts !! i' <> Some (VStr m))
     /\ node_children r !! idx = Some w
     /\ s !! w = Some wr
     /\ new = node_children wr)
  \/ ((forall m, m ∈ prio -> VStr m ∉ mts) /\ new = []).

(** One mime bundle resolved.  In the document [s0] the transform started
    from, [x] had children with the mime types [mts]; it still has them in
    [s], when its turn comes, and [s'] is [s] with [x] replaced, under its
    parent, by the selection. *)
Definition resolves (prio : list string) (s0 s : store) (x : nat)
    (s' : store) : Prop :=
  exists r0 r p pr i mts new,
    s0 !! x = Some r0 /\ s !! x = Some r
    /\ node_children r = node_children r0
    /\ child_mime_types s0 (node_children r0) = Ok mts
    /\ child_mime_types s (node_children r) = Ok mts
    /\ node_parent r = Some p /\ s !! p = Some pr
    /\ index_of x (node_children pr) = Some i
    /\ selection prio s r mts new
    /\ replaced s s' p i new.

(** One mime bundle discarded when it has nothing to offer: if none of the
    mime types its children had in [s0] is in the priority list (or it had
    no children), [s'] is [s] with [x] removed from its parent. *)
Definition discards (prio : list string) (s0 s : store) (x : nat)
    (s' : store) : Prop :=
  exists r0 mts,
    s0 !! x = Some r0
    /\ child_mime_types s0 (node_children r0) = Ok mts
    /\ ((forall m, m ∈ prio -> VStr m ∉ mts) ->
        exists r p pr i,
          s !! x = Some r /\ node_parent r = Some p /\ s !! p = Some pr
          /\ index_of x (node_children pr) = Some i
          /\ replaced s s' p i []).

(** The documents a loop goes through when each of its steps, on the nodes
    of a list in order, is as [step] says. *)
Inductive steps (step : store -> nat -> store -> Prop)
  : list nat -> store -> store -> Prop :=
| steps_nil s : steps step [] s s
| steps_cons x l s s' s1 :
    step s x s' -> steps step l s' s1 -> steps step (x :: l) s s1.

(** The warnings the transform owes a document: one for each mime bundle
    that has children none of whose mime types is in the priority list,
    naming the builder and listing the mime types. *)
Definition diagnostics (DEFAULT_LOG_TYPE : string) (py_repr : value -> string)
    (bname : string) (prio : list string) (s : store) (x : nat)
  : list warning :=
  match s !! x with
  | Some r =>
      match child_mime_types s (node_children r) with
      | Ok (m :: ms) =>
          if forallb (fun p => negb (existsb (is_vstr p) (m :: ms))) prio
          then [{| w_message :=
                     "No mime type available in priority list for builder "
                     +:+ py_repr (VStr bname) +:+ " ("
                     +:+ String.concat "," (List.map py_repr (m :: ms))
                     +:+ ") [" +:+ DEFAULT_LOG_TYPE +:+ ".mime_priority]";
                   w_type := DEFAULT_LOG_TYPE;
                   w_subtype := "mime_priority";
                   w_location := x |}]
          else []
      | _ => []
      end
  | None => []
  end.

(** While the transform runs, part of the table is no longer under the
    root.  [stale s done q]: [q] is a child of a node the loop has dealt
    with; its list of children may name nodes that have moved up. *)
Definition stale (s : store) (done : list nat) (q : nat) : Prop :=
  exists y yr, y ∈ done /\ s !! y = Some yr /\ q ∈ node_children yr.

(** What the loop keeps true of the document [s] with root [d] once it has
    dealt with the nodes [done]. *)
Record inv (s : store) (d : nat) (done : list nat) : Prop := {
  inv_root :
    exists r0, s !! d = Some r0 /\ node_parent r0 = None
               /\ condition r0 = false;
  inv_tree :
    forall q qr, reachable s d q -> s !! q = Some qr ->
      NoDup (node_children qr)
      /\ forall c, c ∈ node_children qr ->
           exists cr, s !! c = Some cr /\ node_parent cr = Some q;
  inv_closed :
    forall q qr c, s !! q = Some qr -> ~ reachable s d q ->
      ~ stale s done q -> c ∈ node_children qr -> ~ reachable s d c;
  inv_bundle_children :
    forall z zr c cr, s !! z = Some zr -> condition zr = true ->
      c ∈ node_children zr -> s !! c = Some cr -> condition cr = false;
  inv_bundle_disjoint :
    forall x xr y yr c, s !! x = Some xr -> s !! y = Some yr ->
      condition xr = true -> condition yr = true ->
      c ∈ node_children xr -> c ∈ node_children yr -> x = y;
  inv_done :
    forall y, y ∈ done ->
      ~ reachable s d y
      /\ exists yr, s !! y = Some yr /\ condition yr = true
}.

End Shape.

(** ** [Parser.parse]: what is written and recorded for a document *)

Module Persist.
Import Collector.

(** [s.split("/")]: the pieces between the separators; never empty. *)
Fixpoint split_slash (s : string) : list string :=
  match s with
  | EmptyString => [EmptyString]
  | String c s' =>
      if Ascii.eqb c "/"%char then EmptyString :: split_slash s'
      else match split_slash s' with
           | [] => [String c EmptyString]
           | w :: ws => String c w :: ws
           end
  end.

(** [path[:-1] + [path[-1] + suffix]]; [path[-1]] raises on an empty list. *)
Definition with_suffix (path : list string) (suffix : string)
  : result (list string) :=
  match last path with
  | Some name => Ok (take (length path - 1) path ++ [name +:+ suffix])
  | None => Raise IndexError
  end.

(** Lines 343-344 and 352: where the executed notebook and the glue data of
    a document are written, as path components below the output folder. *)
Definition ipynb_path (docname : string) : result (list string) :=
  with_suffix (split_slash docname) ".ipynb".

Definition glue_path (docname : string) : result (list string) :=
  with_suffix (split_slash docname) ".glue.json".

(** Lines 301-303: the components of the traceback report below
    [outdir/reports]. *)
Definition reports_path (docname : string) : list string :=
  split_slash (docname +:+ ".err.log").

(** Lines 297-309.  [exec_data] is [None] or the execution result; the
    value returned is the report to write, as its path components and its
    text, when the result carries a traceback. *)
Definition store_exec_data (docname : string) (exec_data : value)
  : M SphinxEnvType (option (list string * value)) :=
  if truthy exec_data then
    _ ← (fun env => (Ok tt, set_exec_data env docname exec_data)) ;
    traceback ← mlift (py_getitem exec_data "traceback") ;
    if truthy traceback then mret (Some (reports_path docname, traceback))
    else mret None
  else mret None.

(** Lines 351-360.  [resources["glue"].keys()] needs a dict; the file is
    written before the keys are stored, so the path is computed first. *)
Definition store_glue_keys (docname : string) (resources : dict)
  : M SphinxEnvType (option (list string)) :=
  let glue := default VNone (dict_get resources "glue") in
  if truthy glue then
    path ← mlift (glue_path docname) ;
    keys ← mlift (match glue with
                  | VDict d => Ok (List.map (fun kv => VStr (fst kv)) d)
                  | _ => Raise AttributeError
                  end) ;
    _ ← (fun env => (Ok tt, set_doc_data env docname "glue" (VList keys))) ;
    mret (Some path)
  else mret None.

(** [uri, kwargs = v]: unpacking takes exactly two items from a list, a
    string (its characters) or a dict (its keys). *)
Definition py_unpack2 (v : value) : result (value * value) :=
  match v with
  | VList [a; b] => Ok (a, b)
  | VList _ => Raise ValueError
  | VStr (String a (String b EmptyString)) =>
      Ok (VStr (String a EmptyString), VStr (String b EmptyString))
  | VStr _ => Raise ValueError
  | VDict [(a, _); (b, _)] => Ok (VStr a, VStr b)
  | VDict _ => Raise ValueError
  | _ => Raise TypeError
  end.

(** Lines 365-368: [document.attributes.pop("nb_js_files", {})] and the loop
    over its items.  The result is [document.attributes] without the key. *)
Definition move_js_files (docname : string) (attributes : dict)
  : M SphinxEnvType dict :=
  let nb_js_files := default (VDict []) (dict_get attributes "nb_js_files") in
  items ← mlift (match nb_js_files with
                 | VDict d => Ok d
                 | _ => Raise AttributeError
                 end) ;
  _ ← mfor items
        (fun '(key, v) =>
           '(uri, kwargs) ← mlift (py_unpack2 v) ;
           add_js_file docname key uri kwargs) ;
  mret (dict_pop attributes "nb_js_files").

(** A string without the separator, such as the suffixes [parse] appends. *)
Definition slash_free (s : string) : Prop :=
  forall c, In c (list_ascii_of_string s) -> c <> "/"%char.

(** [js_files[key] = v] for every item in turn. *)
Definition registered (js_files items : dict) : dict :=
  foldl (fun js kv => dict_set js (fst kv) (snd kv)) js_files items.

(** The entries of ["nb_js_files"] as the plugin leaves them: every value a
    pair [(uri, kwargs)]. *)
Definition js_pairs (items : dict) : Prop :=
  Forall (fun kv => exists uri kwargs, snd kv = VList [uri; kwargs]) items.

End Persist.

(** ** Extension set-up and the event handlers *)

Module Setup.
Import Config Collector.

Definition OUTPUT_FOLDER : string := "jupyter_execute".

(** The default of a deprecated configuration value, by which a value the
    user set is told from one they did not. *)
Definition UNSET : string := "--unset--".

(** [v != UNSET]. *)
Definition is_set (v : value) : bool := negb (is_vstr UNSET v).

(** One triple of [NbParserConfig().as_triple()]: the field's name, its
    default and the metadata of the dataclass field. *)
Record field := {
  field_name : string;
  field_default : value;
  field_metadata : dict
}.

Inductive severity := LogWarning | LogInfo | LogCritical.

(** A record of [SPHINX_LOGGER]. *)
Record sphinx_log := {
  sl_level : severity;
  sl_message : string;
  sl_type : option string;
  sl_subtype : option string
}.

(** [app.config[name]]: Sphinx looks the name up among the registered
    values, with [getattr]. *)
Definition config_value (config : gmap string value) (name : value)
  : result value :=
  match name with
  | VStr n => match config !! n with
              | Some v => Ok v
              | None => Raise AttributeError
              end
  | _ => Raise TypeError
  end.

Definition log (r : sphinx_log) : M (list sphinx_log) unit :=
  fun l => (Ok tt, l ++ [r]).

Definition excluded (f : field) : bool :=
  truthy (default VNone (dict_get (field_metadata f) "sphinx_exclude")).

Section Configuration.

(** Collaborators outside this file: [str] and [repr] of a value,
    [DEFAULT_LOG_TYPE], the fields of [NbParserConfig], its constructor and
    its [copy] (both validate), [error.args[0]], the text of the start-up
    message, and [str(Path(outdir).parent.joinpath(name).resolve())]. *)
Variable py_str : value -> string.
Variable py_repr : value -> string.
Variable DEFAULT_LOG_TYPE : string.
Variable as_triple : list field.
Variable make_config : dict -> result NbParserConfig.
Variable copy : NbParserConfig -> dict -> result NbParserConfig.
Variable exn_arg : exn -> string.
Variable banner : NbParserConfig -> string.
Variable beside_outdir : string -> string -> string.

(** Lines 73-82 of [sphinx_setup]: the calls of [app.add_config_value], as
    the name and the default of each, in order.  The legacy name goes
    through an f-string, which leaves a string as it is. *)
Definition declare_field (f : field) : list (string * value) :=
  if excluded f then []
  else ("nb_" +:+ field_name f, field_default f)
       :: match dict_get (field_metadata f) "legacy_name" with
          | Some (VStr legacy_name) => [(legacy_name, VStr UNSET)]
          | Some legacy_name => [(py_str legacy_name, VStr UNSET)]
          | None => []
          end.

Definition declared_config_values : list (string * value) :=
  flat_map declare_field as_triple ++ [("nb_render_priority", VStr UNSET)].

Definition deprecation (legacy_name : value) (name : string) : sphinx_log :=
  {| sl_level := LogWarning;
     sl_message := py_repr legacy_name +:+ " is deprecated for 'nb_" +:+ name
                   +:+ "' [" +:+ DEFAULT_LOG_TYPE +:+ ".config]";
     sl_type := Some DEFAULT_LOG_TYPE;
     sl_subtype := Some "config" |}.

(** One iteration of the loop of lines 159-172. *)
Definition collect_field (config : gmap string value) (f : field)
    (values : dict) : M (list sphinx_log) dict :=
  if excluded f then mret values
  else
    v ← mlift (config_value config (VStr ("nb_" +:+ field_name f))) ;
    let values := dict_set values (field_name f) v in
    if dict_has (field_metadata f) "legacy_name" then
      legacy_name ← mlift (dict_getitem (field_metadata f) "legacy_name") ;
      legacy_value ← mlift (config_value config legacy_name) ;
      if is_set legacy_value then
        _ ← log (deprecation legacy_name (field_name f)) ;
        mret (dict_set values (field_name f) legacy_value)
      else mret values
    else mret values.

(** Lines 158-172. *)
Fixpoint collect_values (config : gmap string value) (fs : list field)
    (values : dict) : M (list sphinx_log) dict :=
  match fs with
  | [] => mret values
  | f :: fs' =>
      values' ← collect_field config f values ;
      collect_values config fs' values'
  end.

(** What the loop comes to for one field that is not excluded: the value
    its keyword argument takes (the deprecated name's, when the user set
    it), and the warning logged for it. *)
Definition effective_value (config : gmap string value) (f : field) : value :=
  let v := default VNone (config !! ("nb_" +:+ field_name f)) in
  match dict_get (field_metadata f) "legacy_name" with
  | Some (VStr legacy_name) =>
      let legacy_value := default VNone (config !! legacy_name) in
      if is_set legacy_value then legacy_value else v
  | _ => v
  end.

Definition deprecations (config : gmap string value) (f : field)
  : list sphinx_log :=
  if excluded f then []
  else match dict_get (field_metadata f) "legacy_name" with
       | Some (VStr legacy_name) =>
           if is_set (default VNone (config !! legacy_name))
           then [deprecation (VStr legacy_name) (field_name f)]
           else []
       | _ => []
       end.

(** Lines 152-200; the result is [app.env.mystnb_config]. *)
Definition create_mystnb_config (config : gmap string value) (outdir : string)
  : M (list sphinx_log) NbParserConfig :=
  values ← collect_values config as_triple [] ;
  render_priority ← mlift (config_value config (VStr "nb_render_priority")) ;
  _ ← (if is_set render_priority then
         log {| sl_level := LogWarning;
                sl_message :=
                  "'nb_render_priority' is deprecated for 'nb_mime_priority_overrides'"
                  +:+ DEFAULT_LOG_TYPE +:+ ".config";
                sl_type := Some DEFAULT_LOG_TYPE;
                sl_subtype := Some "config" |}
       else mret tt) ;
  mystnb_config ←
    match make_config values with
    | Ok c =>
        _ ← log {| sl_level := LogInfo; sl_message := banner c;
                   sl_type := None; sl_subtype := None |} ;
        mret c
    | Raise e =>
        _ ← match e with
            | TypeError | ValueError =>
                log {| sl_level := LogCritical;
                       sl_message := "myst-nb configuration invalid: "
                                     +:+ exn_arg e;
                       sl_type := None; sl_subtype := None |}
            | _ => mret tt
            end ;
        mraise e
    end ;
  let output_folder := beside_outdir outdir OUTPUT_FOLDER in
  exec_cache_path ← mlift
    (match fields mystnb_config !! "execution_cache_path" with
     | Some v => Ok v
     | None => Raise AttributeError
     end) ;
  let exec_cache_path :=
    if negb (truthy exec_cache_path) then beside_outdir outdir ".jupyter_cache"
    else py_str exec_cache_path in
  mystnb_config ← mlift
    (copy mystnb_config [("output_folder", VStr output_folder);
                         ("execution_cache_path", VStr exec_cache_path)]) ;
  _ ← log {| sl_level := LogInfo;
             sl_message := "Using jupyter-cache at: " +:+ exec_cache_path;
             sl_type := None; sl_subtype := None |} ;
  mret mystnb_config.

End Configuration.

(** Lines 203-206, on [config.exclude_patterns]. *)
Definition add_exclude_patterns (exclude_patterns : list string) : list string :=
  if existsb (String.eqb "**.ipynb_checkpoints") exclude_patterns
  then exclude_patterns
  else exclude_patterns ++ ["**.ipynb_checkpoints"].

(** Lines 229-240, on [config.togglebutton_selector]. *)
Definition to_add : list string :=
  [".tag_hide_input div.cell_input";
   ".tag_hide-input div.cell_input";
   ".tag_hide_output div.cell_output";
   ".tag_hide-output div.cell_output";
   ".tag_hide_cell.cell";
   ".tag_hide-cell.cell"].

Definition update_togglebutton_classes (togglebutton_selector : string) : string :=
  foldl (fun s selector => s +:+ ", " +:+ selector) togglebutton_selector to_add.

(** The Sphinx application as the page handler sees it: its environment,
    the format of its builder (both may be unset), and the JavaScript files
    added to the page through [app.add_js_file], in order. *)
Record app := {
  app_env : option SphinxEnvType;
  builder_format : option string;
  page_js_files : list (value * dict)
}.

(** A registration [(key, uri, kwargs)]: how the store holds it, and the
    call of [app.add_js_file] it leads to. *)
Definition js_entry (r : string * value * dict) : string * value :=
  (fst (fst r), VList [snd (fst r); VDict (snd r)]).

Definition js_call (r : string * value * dict) : value * dict :=
  (snd (fst r), snd r).

Section Page.

(** [app.add_js_file] of Sphinx, as far as it can refuse its arguments. *)
Variable sphinx_add_js_file : value -> dict -> result unit.

(** One iteration of lines 225-226: [path, kwargs = item] and the call
    [app.add_js_file(path, **kwargs)], for which [kwargs] must be a mapping. *)
Definition add_page_js_file (item : value) : M (list (value * dict)) unit :=
  pair ← mlift (Persist.py_unpack2 item) ;
  let path := fst pair in
  kwargs ← mlift (match snd pair with
                  | VDict d => Ok d
                  | _ => Raise TypeError
                  end) ;
  _ ← mlift (sphinx_add_js_file path kwargs) ;
  ((fun added => (Ok tt, added ++ [(path, kwargs)]))
     : M (list (value * dict)) unit).

(** Lines 218-226. *)
Definition add_per_page_html_resources (a : app) (pagename : string)
  : result unit * app :=
  match app_env a, builder_format a with
  | Some env, Some format =>
      if negb (String.eqb format "html") then (Ok tt, a)
      else
        let '(js_files, env') := get_js_files env pagename in
        match js_files with
        | VDict d =>
            let '(r, added) :=
              mfor (List.map snd d) add_page_js_file (page_js_files a) in
            (r, {| app_env := Some env'; builder_format := builder_format a;
                   page_js_files := added |})
        | _ =>
            (Raise AttributeError,
             {| app_env := Some env'; builder_format := builder_format a;
                page_js_files := page_js_files a |})
        end
  | _, _ => (Ok tt, a)
  end.

End Page.

End Setup.

(** ** [BytesEncoder]: bytestrings in JSON *)

Module Json.

(** What [json] hands to [default]: an object it cannot serialise itself;
    only whether it is a [bytes] matters. *)
Inductive obj :=
| Bytes (b : list Byte.byte)
| Other.

(** [b.decode("ascii")]: every byte must be below 128; the error is a
    [UnicodeDecodeError], which is a [ValueError]. *)
Definition decode_ascii (b : list Byte.byte) : result string :=
  if forallb (fun x => (Byte.to_N x <? 128)%N) b
  then Ok (string_of_list_byte b)
  else Raise ValueError.

(** Lines 780-783; [json.JSONEncoder.default] raises [TypeError]. *)
Definition default (o : obj) : result string :=
  match o with
  | Bytes b => decode_ascii b
  | Other => Raise TypeError
  end.

End Json.

(** ** Concrete notebooks, plugins and documents *)

Module Examples.
Import Config Doctree Builder.

(** A plugin that renders every text mime type as one [Text] node and
    nothing else, and that handles the kernel specification itself, handing
    back the remaining metadata. *)
Definition text_plugin : NbElementRenderer :=
  {| render_stdout := fun _ _ _ _ => [Text "stdout" no_loc];
     render_stderr := fun _ _ _ _ => [Text "stderr" no_loc];
     render_error := fun _ _ _ _ => [Text "error" no_loc];
     render_mime_type := fun m =>
       if String.prefix "text/" (mime_type m)
       then match mime_content m with
            | VStr s => [Text s no_loc]
            | _ => []
            end
       else [];
     render_raw_cell := fun _ _ _ _ => [];
     render_nb_metadata := fun md => dict_pop md "kernelspec" |}.

Definition notebook_metadata : dict :=
  [("kernelspec", VDict [("name", VStr "python3")]);
   ("title", VStr "Demo")].

(** A configuration whose cell namespace is ["mystnb"], and the metadata of
    a cell that asks for its source to be removed. *)
Definition config0 : NbParserConfig :=
  {| cell_render_key := "mystnb";
     metadata_key := "mystnb";
     fields := {[ "remove_code_source" := VBool false;
                  "remove_code_outputs" := VBool false;
                  "number_source_lines" := VBool false ]} |}.

Definition cell_env0 : env :=
  {| the_cell_metadata :=
       [("mystnb", VDict [("remove_code_source", VBool true)]);
        ("tags", VList [VStr "remove-output"])];
     the_nb_config := config0 |}.

(** A code cell with one display_data output in three formats, one of which
    the plugin cannot render. *)
Definition output0 : output :=
  {| output_type := "display_data";
     name := None;
     data := Some [("text/plain", VStr "<Figure>");
                   ("image/png", VStr "iVBORw0KGgo=");
                   ("text/html", VStr "<b>Figure</b>")];
     metadata := None |}.

Definition token0 : token :=
  {| content := "plot()";
     map_line := Some 3;
     meta_index := 0;
     meta_metadata := the_cell_metadata cell_env0;
     meta_execution_count := VInt 1;
     meta_lexer := Some "ipython3" |}.

(** Stand-ins for the collaborators of the renderer. *)
Definition highlight0 (src : string) (lexer : option string) (number_lines : value)
    (source : string) (line : nat) : node :=
  Element "literal_block" [("language", VStr (default "none" lexer))] no_loc
    [Text src no_loc].

Definition warning0 (msg : string) (line : nat) (wtype subtype : string)
  : option node :=
  Some (Element "system_message" [("type", VStr "WARNING")] no_loc
          [Text msg no_loc]).

Definition figure0 (figure_options : option value) (line : nat) (body : B unit)
  : B unit :=
  match figure_options with
  | None => body
  | Some _ =>
      fun cur =>
        match body [] with
        | (Ok _, cs) => (Ok tt, cur ++ [Element "figure" [] no_loc cs])
        | (Raise e, _) => (Raise e, cur)
        end
  end.

(** A build environment that has read one document, and the environment of
    a parallel worker that has executed another. *)
Definition main_env : Collector.SphinxEnvType :=
  {| Collector.nb_metadata :=
       Some {[ "intro" := [("glue", VList [VStr "fig"])];
               "api" := [("exec_data", VStr "stale")] ]};
     Collector.nb_new_exec_data := Some false |}.

Definition worker_env : Collector.SphinxEnvType :=
  {| Collector.nb_metadata :=
       Some {[ "tutorial" := [("exec_data", VStr "ok")] ]};
     Collector.nb_new_exec_data := Some true |}.

(** A [copy] that accepts only known fields, and notebook metadata that sets
    an unknown one. *)
Definition copy0 (c : NbParserConfig) (overrides : dict)
  : result NbParserConfig :=
  if forallb (fun kv => bool_decide (is_Some (fields c !! fst kv))) overrides
  then Ok {| cell_render_key := cell_render_key c;
             metadata_key := metadata_key c;
             fields := foldl (fun m kv => <[fst kv := snd kv]> m)
                             (fields c) overrides |}
  else Raise TypeError.

Definition bad_notebook_metadata : dict :=
  [("mystnb", VDict [("output_folder", VStr "out");
                     ("no_such_option", VInt 1)])].

(** A document with a paragraph and four mime bundles: one with two
    representations, the second of which holds a bundle of its own; one
    whose only representation is an image; one without children; and the
    priority list of a builder that prefers LaTeX, then HTML, then plain
    text. *)
Definition mime_container (m : string) (cs : list node) : node :=
  Element "container" [("mime_type", VStr m)] no_loc cs.

Definition mime_bundle (cs : list node) : node :=
  Element "container" [("nb_element", VStr "mime_bundle")] no_loc cs.

Definition document0 : node :=
  Element "document" [] no_loc
    [Element "paragraph" [] no_loc [Text "Results" no_loc];
     mime_bundle
       [mime_container "text/plain" [Text "<Figure>" no_loc];
        mime_container "text/html"
          [Text "<b>Figure</b>" no_loc;
           mime_bundle [mime_container "text/html" [Text "caption" no_loc]]]];
     mime_bundle [mime_container "image/png" [Text "iVBORw0KGgo=" no_loc]];
     mime_bundle []].

(** The document's current line and source when the transform runs. *)
Definition current0 : loc :=
  {| line := Some 12; source := Some "index.md" |}.

Definition store0 : Docutils.store :=
  snd (Docutils.load (Some current0) None document0 0 ∅).

(** A document outside the shape [Shape.well_formed] asks for: the only
    child of its mime bundle is itself tagged as a mime bundle. *)
Definition document_odd : node :=
  Element "document" [] no_loc
    [mime_bundle
       [Element "container"
          [("nb_element", VStr "mime_bundle"); ("mime_type", VStr "text/html")]
          no_loc
          [mime_container "text/html"
             [mime_bundle [mime_container "text/html" [Text "x" no_loc]]]]]].

Definition store_odd : Docutils.store :=
  snd (Docutils.load (Some current0) None document_odd 0 ∅).

Definition priority0 (bname : string) (overrides : value) : list string :=
  ["text/latex"; "text/html"; "text/plain"].

Definition repr0 (v : value) : string :=
  match v with
  | VStr s => "'" +:+ s +:+ "'"
  | _ => "?"
  end.

(** The record of a node of a table. *)
Definition node_of (s : Docutils.store) (i : nat) : Docutils.nrec :=
  default {| Docutils.node_kind := Docutils.KText "";
             Docutils.node_attrs := [];
             Docutils.node_loc := no_loc;
             Docutils.node_document := None;
             Docutils.node_children := [];
             Docutils.node_parent := None |} (s !! i).

Definition run0 : Docutils.store ->
    result (Docutils.store * list SelectMimeType.warning) :=
  SelectMimeType.run priority0 "mystnb" repr0 "html" VNone 0.

(** [document_odd] after one run of the transform. *)
Definition store_odd1 : Docutils.store :=
  match run0 store_odd with
  | Ok (s, _) => s
  | Raise _ => ∅
  end.

(** Notebook metadata whose entry for the extension is not a mapping. *)
Definition scalar_notebook_metadata : dict := [("mystnb", VStr "oops")].

(** A plugin that writes the number of the output next to its text. *)
Definition numbering_plugin : NbElementRenderer :=
  {| render_stdout := fun _ _ _ _ => [Text "stdout" no_loc];
     render_stderr := fun _ _ _ _ => [Text "stderr" no_loc];
     render_error := fun _ _ _ _ => [Text "error" no_loc];
     render_mime_type := fun m =>
       if String.prefix "text/" (mime_type m)
       then match mime_content m with
            | VStr s =>
                [Text (s +:+ " #"
                       +:+ String (ascii_of_nat (48 + mime_output_index m)) "")
                   no_loc]
            | _ => []
            end
       else [];
     render_raw_cell := fun _ _ _ _ => [];
     render_nb_metadata := fun md => md |}.

(** A code cell that prints a line, shows a figure in three formats, gives
    a result the plugin cannot render, and shows a table. *)
Definition cells2 : list cell :=
  [{| outputs :=
        Some [{| output_type := "stream"; name := Some "stdout";
                 data := None; metadata := None |};
              output0;
              {| output_type := "execute_result"; name := None;
                 data := Some [("image/png", VStr "iVBORw0KGgo=")];
                 metadata := None |};
              {| output_type := "display_data"; name := None;
                 data := Some [("text/html", VStr "<table/>")];
                 metadata := None |}] |}].

Definition token2 : token :=
  {| content := "show()";
     map_line := Some 5;
     meta_index := 0;
     meta_metadata := [];
     meta_execution_count := VInt 3;
     meta_lexer := Some "ipython3" |}.

(** A document whose first mime bundle offers an image and JSON, neither of
    which the builder takes, and whose last mime bundle has no children. *)
Definition document2 : node :=
  Element "document" [] no_loc
    [mime_bundle
       [mime_container "image/png" [Text "iVBORw0KGgo=" no_loc];
        mime_container "application/json" [Text "{}" no_loc]];
     Element "paragraph" [] no_loc [Text "after" no_loc];
     mime_bundle []].

Definition store2 : Docutils.store :=
  snd (Docutils.load (Some current0) None document2 0 ∅).

(** Mime bundles that carry a class of their own, around a text and around
    a paragraph. *)
Definition classy_bundle (cs : list node) : node :=
  Element "container"
    [("nb_element", VStr "mime_bundle"); ("classes", VList [VStr "keep"])]
    no_loc cs.

Definition store_text : Docutils.store :=
  snd (Docutils.load (Some current0) None
         (Element "document" [] no_loc
            [classy_bundle [mime_container "text/html" [Text "x" no_loc]]])
         0 ∅).

Definition store_para : Docutils.store :=
  snd (Docutils.load (Some current0) None
         (Element "document" [] no_loc
            [classy_bundle
               [mime_container "text/html"
                  [Element "paragraph" [] no_loc [Text "x" no_loc]]]])
         0 ∅).

(** The JavaScript files a rendered notebook asks for, as registrations
    [(key, uri, kwargs)], and the document attributes that hold them. *)
Definition js_regs : list (string * value * dict) :=
  [("ipywidgets", VStr "https://cdn.example/embed-amd.js",
    [("crossorigin", VStr "anonymous")]);
   ("require", VNone, [("body", VStr "var require = {};")])].

Definition js_attributes : dict :=
  [("source", VStr "intro.md");
   ("nb_js_files", VDict (List.map Setup.js_entry js_regs))].

(** An execution result with a traceback, and the resources of a notebook
    that glued two variables. *)
Definition exec0 : dict :=
  [("mtime", VInt 1700000000); ("runtime", VInt 2);
   ("method", VStr "cache"); ("succeeded", VBool false);
   ("error", VStr "NameError"); ("traceback", VStr "NameError: x")].

Definition resources0 : dict :=
  [("glue", VDict [("fig", VStr "<Figure>"); ("df", VStr "<table>")])].

(** Three configuration fields: one with a deprecated name, one plain, one
    that is not a Sphinx option; and a [conf.py] that still uses the
    deprecated name. *)
Definition fields0 : list Setup.field :=
  [{| Setup.field_name := "execution_mode";
      Setup.field_default := VStr "auto";
      Setup.field_metadata :=
        [("legacy_name", VStr "jupyter_execute_notebooks")] |};
   {| Setup.field_name := "render_plugin";
      Setup.field_default := VStr "default";
      Setup.field_metadata := [] |};
   {| Setup.field_name := "read_as_md";
      Setup.field_default := VBool false;
      Setup.field_metadata := [("sphinx_exclude", VBool true)] |}].

Definition sphinx_config0 : gmap string value :=
  {[ "nb_execution_mode" := VStr "auto";
     "jupyter_execute_notebooks" := VStr "force";
     "nb_render_plugin" := VStr "default";
     "nb_render_priority" := VStr "--unset--" ]}.

(** An HTML build whose store holds the files registered for a page. *)
Definition page_env : Collector.SphinxEnvType :=
  {| Collector.nb_metadata :=
       Some {[ "intro" :=
                 [("js_files", VDict (List.map Setup.js_entry js_regs))] ]};
     Collector.nb_new_exec_data := Some false |}.

Definition app0 : Setup.app :=
  {| Setup.app_env := Some page_env;
     Setup.builder_format := Some "html";
     Setup.page_js_files := [] |}.

(** A code cell tagged for hiding, with a line on stdout, an output of a
    type of a later notebook format, and a traceback. *)
Definition cells1 : list cell :=
  [{| outputs :=
        Some [{| output_type := "stream"; name := Some "stdout";
                 data := None; metadata := None |};
              {| output_type := "update_display_data"; name := None;
                 data := None; metadata := None |};
              {| output_type := "error"; name := None;
                 data := None; metadata := None |}] |}].

Definition token1 : token :=
  {| content := "print(x)";
     map_line := Some 7;
     meta_index := 0;
     meta_metadata := [("tags", VList [VStr "hide input"])];
     meta_execution_count := VInt 2;
     meta_lexer := Some "ipython3" |}.

End Examples.

(** * Properties *)

(** ** Configuration resolver *)

Section ConfigFacts.
Import Config.

Lemma get_cell_render_config_state e key nb_key has_nb_key :
  snd (get_cell_render_config key nb_key has_nb_key e) = e.
Proof.
  unfold get_cell_render_config, mbind, M_bind, mbind', mget, mlift, mraise.
  simpl.
  destruct (negb (dict_has _ _)); simpl.
  - destruct (negb has_nb_key); reflexivity.
  - destruct (dict_getitem _ _) as [ns|x]; simpl; [|reflexivity].
    destruct (py_contains ns key) as [b|x]; simpl; [|reflexivity].
    destruct (negb b); simpl; [destruct (negb has_nb_key); reflexivity|].
    reflexivity.
Qed.

Lemma get_cell_render_config_present e key nb_key has_nb_key d v :
  dict_get (the_cell_metadata e) (cell_render_key (the_nb_config e))
    = Some (VDict d) ->
  dict_get d key = Some v ->
  fst (get_cell_render_config key nb_key has_nb_key e) = Ok v.
Proof.
  intros Hns Hk.
  unfold get_cell_render_config, mbind, M_bind, mbind', mget, mlift, mraise,
    dict_has, dict_getitem.
  simpl. rewrite Hns. simpl. unfold dict_has. rewrite Hk. simpl.
  unfold dict_getitem. rewrite Hk. reflexivity.
Qed.

Lemma get_cell_render_config_absent e key nb_key has_nb_key :
  (dict_get (the_cell_metadata e) (cell_render_key (the_nb_config e)) = None
   \/ exists d,
       dict_get (the_cell_metadata e) (cell_render_key (the_nb_config e))
         = Some (VDict d)
       /\ dict_get d key = None) ->
  fst (get_cell_render_config key nb_key has_nb_key e) =
    if has_nb_key
    then config_getitem (the_nb_config e) (default key nb_key)
    else Raise (KeyError key).
Proof.
  unfold get_cell_render_config, mbind, M_bind, mbind', mget, mlift, mraise,
    dict_has, dict_getitem.
  simpl. intros [Hns | (d & Hns & Hk)]; rewrite Hns; simpl.
  - destruct has_nb_key; simpl; [destruct nb_key|]; reflexivity.
  - unfold dict_has. rewrite Hk. simpl.
    destruct has_nb_key; simpl; [destruct nb_key|]; reflexivity.
Qed.

(** C5.  The lookup returns [cell_metadata[namespace][key]] verbatim when the
    namespace mapping is present and contains the key; otherwise it raises
    [KeyError key] when the notebook fallback is disabled, and else returns
    the configuration value under the notebook-level key, which defaults to
    [key]; in every case the cell metadata and the configuration are left
    as they were. *)
Theorem get_cell_render_config_correct e key nb_key has_nb_key :
  let ns := dict_get (the_cell_metadata e) (cell_render_key (the_nb_config e)) in
  let r := get_cell_render_config key nb_key has_nb_key e in
  snd r = e
  /\ (forall d v, ns = Some (VDict d) -> dict_get d key = Some v ->
        fst r = Ok v)
  /\ ((ns = None \/ exists d, ns = Some (VDict d) /\ dict_get d key = None) ->
        has_nb_key = false -> fst r = Raise (KeyError key))
  /\ ((ns = None \/ exists d, ns = Some (VDict d) /\ dict_get d key = None) ->
        has_nb_key = true ->
        fst r = config_getitem (the_nb_config e) (default key nb_key)).
Proof.
  cbv zeta. split; [apply get_cell_render_config_state|].
  split; [intros d v; apply get_cell_render_config_present|].
  split; intros H Hb;
    rewrite (get_cell_render_config_absent _ _ _ _ H), Hb; reflexivity.
Qed.

End ConfigFacts.

(** ** Tree builder *)

Section BuilderFacts.
Import Config Doctree Builder.

Context {plugin : NbElementRenderer}.
Variable nb_config : NbParserConfig.
Variable cells : list cell.
Variable document_source : string.
Variable create_highlighted_code_block :
  string -> option string -> value -> string -> nat -> node.
Variable create_warning : string -> nat -> string -> string -> option node.
Variable create_figure_context : option value -> nat -> B unit -> B unit.
Variable DEFAULT_LOG_TYPE : string.

Lemma mime_container_loop t output_index o line items acc :
  mfor items (render_mime_container t output_index o line) acc
  = (Ok tt,
     acc ++ List.filter has_children
              (List.map (mime_container_of t output_index o line) items)).
Proof.
  revert acc. induction items as [|item items IH]; intros acc.
  - simpl. unfold mret. now rewrite app_nil_r.
  - cbn [mfor List.map List.filter]. unfold mbind'.
    replace (render_mime_container t output_index o line item acc)
      with (Ok tt, acc ++ (if has_children (mime_container_of t output_index o line item)
                           then [mime_container_of t output_index o line item] else [])).
    + rewrite IH. destruct (has_children _); simpl.
      * now rewrite <- app_assoc.
      * now rewrite app_nil_r.
    + unfold render_mime_container, mbind, M_bind, mbind',
        current_node_context, extend, container, has_children,
        mime_container_of.
      simpl. destruct (render_mime_type _); simpl.
      * unfold mret. now rewrite app_nil_r.
      * reflexivity.
Qed.

(** One display_data / execute_result output: it is rendered, inside the
    figure context, by [render_mime_bundle]; that makes one mime-bundle
    container whose children are, in the order of the output's data, one
    container per (mime_type, payload) pair, tagged with the mime type and
    holding the plugin's nodes; pairs for which the plugin gave no node leave
    no container, and when none is left nothing is appended at all. *)
Lemma render_mime_bundle_one t output_index o line items cur :
  data o = Some items ->
  let kept := List.filter has_children
                (List.map (mime_container_of t output_index o line) items) in
  render_mime_bundle document_source t output_index o line cur =
    (Ok tt,
     cur ++ match kept with
            | [] => []
            | _ => add_line_and_source_path_r document_source
                     [Element "container" [("nb_element", VStr "mime_bundle")]
                        no_loc kept] t
            end)
  /\ (forall figure_options,
        (output_type o = "display_data" \/ output_type o = "execute_result") ->
        match cell_config nb_config (meta_metadata t) "figure" false with
        | Ok v => figure_options = Some v
        | Raise (KeyError _) => figure_options = None
        | Raise _ => False
        end ->
        render_output nb_config document_source create_warning
          create_figure_context DEFAULT_LOG_TYPE t line output_index o cur
        = create_figure_context figure_options line
            (render_mime_bundle document_source t output_index o line) cur).
Proof.
  intros Hdata kept. split.
  - unfold render_mime_bundle, mbind, M_bind, mbind', current_node_context.
    rewrite Hdata. unfold mlift. cbn [children container].
    rewrite mime_container_loop. cbn [app set_children container].
    fold kept. cbn [children].
    destruct kept; [unfold mret; now rewrite app_nil_r | reflexivity].
  - intros fo Hty Hfig. unfold render_output.
    assert (String.eqb (output_type o) "stream" = false) as ->
      by (destruct Hty as [-> | ->]; reflexivity).
    assert (String.eqb (output_type o) "error" = false) as ->
      by (destruct Hty as [-> | ->]; reflexivity).
    assert (String.eqb (output_type o) "display_data"
            || String.eqb (output_type o) "execute_result" = true) as ->
      by (destruct Hty as [-> | ->]; reflexivity).
    unfold mbind, M_bind, mbind', mlift.
    destruct (cell_config _ _ _ _) as [v|[]]; try contradiction;
      subst fo; reflexivity.
Qed.

(** The containers the builder puts into a mime bundle carry their mime
    type and are not themselves tagged as mime bundles: the shape the
    resolver relies on. *)
Lemma mime_container_of_attributes t output_index o line item :
  dict_get (attributes (mime_container_of t output_index o line item))
    "mime_type" = Some (VStr (fst item))
  /\ dict_get (attributes (mime_container_of t output_index o line item))
       "nb_element" = None.
Proof. split; reflexivity. Qed.

Lemma current_node_context_appends n body cur r cur' :
  current_node_context n true body cur = (Ok r, cur') -> cur' = cur ++ [r].
Proof.
  unfold current_node_context.
  destruct (body (children n)) as [[[]|e] cs]; intros H; inversion H.
  reflexivity.
Qed.

Lemma removal_flag_truthy md tags key tag1 tag2 v b1 b2 :
  cell_config nb_config md key true = Ok v ->
  py_contains tags tag1 = Ok b1 ->
  py_contains tags tag2 = Ok b2 ->
  exists flag,
    removal_flag nb_config md tags key tag1 tag2 = Ok flag
    /\ truthy flag = truthy v || b1 || b2.
Proof.
  intros Hv H1 H2. unfold removal_flag. rewrite Hv. cbn.
  destruct (truthy v) eqn:Ev.
  - exists v. now rewrite Ev.
  - rewrite H1. cbn. destruct b1; [now exists (VBool true)|].
    rewrite H2. cbn. now exists (VBool b2).
Qed.

(** C4.  The remove-input flag is true exactly when the resolved
    [remove_code_source] value is true or the tags hold [remove_input] or
    [remove-input]; the remove-output flag likewise from
    [remove_code_outputs], [remove_output] and [remove-output]; when both
    flags are true the cell adds no node to the current node, and otherwise a
    cell that renders adds exactly one. *)
Theorem render_nb_cell_code_removal t cur v_in v_out bi1 bi2 bo1 bo2 :
  let md := meta_metadata t in
  let tags := default (VList []) (dict_get md "tags") in
  let render :=
    render_nb_cell_code nb_config cells document_source
      create_highlighted_code_block create_warning create_figure_context
      DEFAULT_LOG_TYPE t in
  cell_config nb_config md "remove_code_source" true = Ok v_in ->
  cell_config nb_config md "remove_code_outputs" true = Ok v_out ->
  py_contains tags "remove_input" = Ok bi1 ->
  py_contains tags "remove-input" = Ok bi2 ->
  py_contains tags "remove_output" = Ok bo1 ->
  py_contains tags "remove-output" = Ok bo2 ->
  exists remove_input remove_output,
    removal_flag nb_config md tags
      "remove_code_source" "remove_input" "remove-input" = Ok remove_input
    /\ removal_flag nb_config md tags
         "remove_code_outputs" "remove_output" "remove-output" = Ok remove_output
    /\ truthy remove_input = truthy v_in || bi1 || bi2
    /\ truthy remove_output = truthy v_out || bo1 || bo2
    /\ (truthy remove_input = true -> truthy remove_output = true ->
          render cur = (Ok tt, cur))
    /\ (truthy remove_input && truthy remove_output = false ->
          forall cur', render cur = (Ok tt, cur') ->
          exists n, cur' = cur ++ [n]).
Proof.
  intros md tags render Hin Hout Hi1 Hi2 Ho1 Ho2.
  destruct (removal_flag_truthy _ _ _ _ _ _ _ _ Hin Hi1 Hi2) as (fi & Efi & Hfi).
  destruct (removal_flag_truthy _ _ _ _ _ _ _ _ Hout Ho1 Ho2) as (fo & Efo & Hfo).
  exists fi, fo. repeat split; try assumption.
  - intros Ti To. unfold render, render_nb_cell_code.
    fold md. fold tags. rewrite Efi, Efo.
    unfold mbind, M_bind, mbind', mlift. now rewrite Ti, To.
  - intros Hnot cur'. unfold render, render_nb_cell_code.
    fold md. fold tags. rewrite Efi, Efo.
    unfold mbind, M_bind, mbind', mlift. rewrite Hnot.
    destruct (tag_classes tags) as [tcs|e]; [|discriminate].
    destruct (current_node_context _ true _ cur) as [[n|e] c1] eqn:E;
      [|discriminate].
    apply current_node_context_appends in E. subst c1.
    unfold mret. intros H. injection H as <-. eauto.
Qed.

Lemma dict_get_set d k v k' :
  dict_get (dict_set d k v) k' =
    if String.eqb k k' then Some v else dict_get d k'.
Proof.
  induction d as [|[k0 v0] d IH]; simpl.
  - reflexivity.
  - destruct (String.eqb_spec k0 k) as [->|Hne]; simpl.
    + destruct (String.eqb k k'); reflexivity.
    + rewrite IH. destruct (String.eqb_spec k0 k') as [->|]; [|reflexivity].
      destruct (String.eqb_spec k k') as [->|]; [contradiction|reflexivity].
Qed.

Lemma save_special_fold md docname keys (em : gmap string dict) :
  let em' :=
    foldl (fun em key =>
             if dict_has md key
             then <[docname := save_special md (default [] (em !! docname)) key]> em
             else em) em keys in
  (forall k,
     dict_get (default [] (em' !! docname)) k =
       if existsb (String.eqb k) keys && dict_has md k
       then dict_get md k
       else dict_get (default [] (em !! docname)) k)
  /\ (forall d, d <> docname -> em' !! d = em !! d).
Proof.
  revert em. induction keys as [|key keys IH]; intros em; cbn zeta.
  - split; reflexivity.
  - cbn [foldl existsb]. destruct (dict_get md key) as [v|] eqn:E.
    + assert (dict_has md key = true) as Hh
        by (unfold dict_has; now rewrite E).
      rewrite Hh.
      set (em1 := <[docname := save_special md (default [] (em !! docname)) key]> em).
      destruct (IH em1) as [H1 H2]. split.
      * intros k. rewrite H1. unfold em1 at 1.
        rewrite lookup_insert_eq. cbn [default from_option id].
        unfold save_special at 1. rewrite E. rewrite dict_get_set.
        destruct (existsb (String.eqb k) keys && dict_has md k) eqn:Ek.
        -- apply andb_prop in Ek as [-> ->]. now rewrite orb_true_r.
        -- destruct (String.eqb_spec k key) as [->|Hne].
           ++ rewrite String.eqb_refl. cbn. now rewrite Hh.
           ++ destruct (String.eqb_spec key k) as [->|_]; [contradiction|].
              cbn. now rewrite Ek.
      * intros d Hd. rewrite H2 by done. unfold em1.
        now apply lookup_insert_ne.
    + assert (dict_has md key = false) as Hh
        by (unfold dict_has; now rewrite E).
      rewrite Hh.
      destruct (IH em) as [H1 H2]. split; [|exact H2].
      intros k. rewrite H1.
      destruct (String.eqb_spec k key) as [->|_]; [|reflexivity].
      cbn. rewrite Hh. now rewrite andb_false_r.
Qed.

(** C9, as the code has it.  The reserved keys present in the notebook
    metadata are stored, with the values of the original metadata, under the
    document's name in the side store; nothing else in the side store
    changes; the plugin then transforms the metadata, and exactly the
    non-reserved entries of what it returns are forwarded as front matter. *)
Theorem render_nb_metadata_token_correct token_meta docname env_metadata :
  let r := render_nb_metadata_token token_meta docname env_metadata in
  snd r = List.filter (fun kv => negb (is_special (fst kv)))
            (render_nb_metadata token_meta)
  /\ (forall k,
        dict_get (default [] (fst r !! docname)) k =
          if is_special k && dict_has token_meta k
          then dict_get token_meta k
          else dict_get (default [] (env_metadata !! docname)) k)
  /\ (forall d, d <> docname -> fst r !! d = env_metadata !! d).
Proof.
  cbn zeta. split; [reflexivity|].
  apply (save_special_fold token_meta docname special_keys env_metadata).
Qed.

End BuilderFacts.

(** ** Per-document metadata store *)

Section CollectorFacts.
Import Collector.

Lemma defaultdict_getitem_spec (m : gmap string dict) k :
  fst (defaultdict_getitem m k) = default [] (m !! k)
  /\ forall d, snd (defaultdict_getitem m k) !! d =
               if decide (d = k) then Some (default [] (m !! k)) else m !! d.
Proof.
  unfold defaultdict_getitem. destruct (m !! k) as [v|] eqn:E; simpl.
  - split; [reflexivity|]. intros d. destruct (decide (d = k)) as [->|];
      [exact E | reflexivity].
  - split; [reflexivity|]. intros d. destruct (decide (d = k)) as [->|].
    + apply lookup_insert_eq.
    + now apply lookup_insert_ne.
Qed.

Lemma merge_loop_lookup l (e o : gmap string dict) :
  forall d,
    fst (merge_loop l (e, o)) !! d =
      (if decide (d ∈ l) then Some (default [] (o !! d)) else e !! d)
    /\ snd (merge_loop l (e, o)) !! d =
      (if decide (d ∈ l) then Some (default [] (o !! d)) else o !! d).
Proof.
  revert e o. induction l as [|x l IH]; intros e o d.
  - simpl. destruct (decide (d ∈ [])) as [H|_]; [inversion H|]. done.
  - unfold merge_loop. cbn [foldl].
    destruct (defaultdict_getitem_spec o x) as [Hfst Hsnd].
    destruct (defaultdict_getitem o x) as [entry o1]. simpl in Hfst, Hsnd.
    fold (merge_loop l (<[x:=entry]> e, o1)).
    destruct (IH (<[x:=entry]> e) o1 d) as [He Ho]. rewrite He, Ho.
    assert (default [] (o1 !! d) = default [] (o !! d)) as Hd.
    { rewrite Hsnd. destruct (decide (d = x)) as [->|]; [|done].
      simpl. now destruct (o !! x). }
    rewrite Hd.
    destruct (decide (d ∈ l)) as [Hin|Hnin].
    + destruct (decide (d ∈ x :: l)) as [_|Hn];
        [|exfalso; apply Hn; apply elem_of_cons; auto].
      split; reflexivity.
    + destruct (decide (d = x)) as [->|Hne].
      * destruct (decide (x ∈ x :: l)) as [_|Hn];
        [|exfalso; apply Hn; apply elem_of_cons; auto].
        rewrite lookup_insert_eq, Hsnd, decide_True by done.
        subst entry. split; reflexivity.
      * destruct (decide (d ∈ x :: l)) as [Hn|_];
          [exfalso; apply elem_of_cons in Hn as [?|?]; auto|].
        rewrite lookup_insert_ne by done. rewrite Hsnd.
        rewrite decide_False by done. split; reflexivity.
Qed.

Lemma merge_other_ok env docnames other flag :
  nb_new_exec_data other = Some flag ->
  merge_other env docnames other =
    Ok ({| nb_metadata :=
             Some (fst (merge_loop (elements docnames)
                          (ensure_metadata env, ensure_metadata other)));
           nb_new_exec_data :=
             if flag then Some true else nb_new_exec_data env |},
        {| nb_metadata :=
             match nb_metadata other with
             | Some _ =>
                 Some (snd (merge_loop (elements docnames)
                              (ensure_metadata env, ensure_metadata other)))
             | None => None
             end;
           nb_new_exec_data := nb_new_exec_data other |}).
Proof.
  intros Hflag. unfold merge_other, ensure_metadata. rewrite Hflag.
  destruct (merge_loop _ _). reflexivity.
Qed.

Lemma merged_lookup (e o : gmap string dict) (docnames : gset string) d :
  fst (merge_loop (elements docnames) (e, o)) !! d =
    if decide (d ∈ docnames) then Some (default [] (o !! d)) else e !! d.
Proof.
  destruct (merge_loop_lookup (elements docnames) e o d) as [-> _].
  destruct (decide (d ∈ elements docnames)) as [H|H];
    rewrite elem_of_elements in H;
    [rewrite decide_True by done | rewrite decide_False by done]; done.
Qed.

(** C6.  The merge succeeds when the other environment carries the flag; it
    replaces the target's entry for every docname of the set by the other
    store's entry as a whole and leaves the other entries alone; afterwards
    the new-execution-data flag is true exactly when it was true in one of
    the two; and merging two workers over disjoint docname sets gives the
    same target in either order. *)
Theorem merge_other_correct env docnames other flag :
  nb_new_exec_data other = Some flag ->
  exists env' other',
    merge_other env docnames other = Ok (env', other')
    /\ (forall d entry, d ∈ docnames ->
          ensure_metadata other !! d = Some entry ->
          ensure_metadata env' !! d = Some entry)
    /\ (forall d, d ∉ docnames ->
          ensure_metadata env' !! d = ensure_metadata env !! d)
    /\ new_exec_data env' = new_exec_data env || new_exec_data other
    /\ (forall docnames2 other2 flag2,
          nb_new_exec_data other2 = Some flag2 ->
          docnames ## docnames2 ->
          exists env2 other2' env12 other2'' other'',
            merge_other env docnames2 other2 = Ok (env2, other2')
            /\ merge_other env' docnames2 other2 = Ok (env12, other2'')
            /\ merge_other env2 docnames other = Ok (env12, other'')).
Proof.
  intros Hflag. eexists _, _. split; [apply merge_other_ok, Hflag|].
  split; [|split; [|split]].
  - intros d entry Hd He. unfold ensure_metadata at 1. cbn.
    rewrite merged_lookup, decide_True by done. now rewrite He.
  - intros d Hd. unfold ensure_metadata at 1. cbn.
    now rewrite merged_lookup, decide_False by done.
  - unfold new_exec_data. cbn. rewrite Hflag. cbn.
    destruct flag, (nb_new_exec_data env) as [[]|]; reflexivity.
  - intros D2 other2 flag2 Hflag2 Hdisj.
    eexists _, _, _, _, _.
    split; [apply merge_other_ok, Hflag2|].
    split; [apply merge_other_ok, Hflag2|].
    rewrite (merge_other_ok _ _ _ _ Hflag). f_equal. f_equal.
    f_equal; [f_equal|].
    + apply map_eq. intros d. unfold ensure_metadata. cbn.
      rewrite !merged_lookup.
      destruct (decide (d ∈ docnames)), (decide (d ∈ D2)); try done.
      exfalso. eapply Hdisj; eassumption.
    + cbn. destruct flag, flag2; reflexivity.
Qed.

(** C10.  For a docname of the set for which the other store has no entry,
    the target ends up with an empty entry, whatever it held before, and the
    other store, when it has the mapping at all, gains that empty entry. *)
Theorem merge_other_missing_entry env docnames other flag d :
  nb_new_exec_data other = Some flag ->
  d ∈ docnames ->
  ensure_metadata other !! d = None ->
  exists env' other',
    merge_other env docnames other = Ok (env', other')
    /\ ensure_metadata env' !! d = Some []
    /\ (nb_metadata other <> None -> ensure_metadata other' !! d = Some []).
Proof.
  intros Hflag Hd Hnone. eexists _, _.
  split; [apply merge_other_ok, Hflag|]. split.
  - unfold ensure_metadata at 1. cbn.
    rewrite merged_lookup, decide_True by done. now rewrite Hnone.
  - intros Hsome. unfold ensure_metadata at 1. cbn.
    destruct (nb_metadata other) as [m|] eqn:E; [|done]. cbn.
    destruct (merge_loop_lookup (elements docnames) (ensure_metadata env)
                (ensure_metadata other) d) as [_ ->].
    rewrite decide_True by (now apply elem_of_elements).
    now rewrite Hnone.
Qed.

End CollectorFacts.

(** ** Notebook-level configuration overrides *)

Section ParseFacts.
Import Config Parse.

Variable copy : NbParserConfig -> dict -> result NbParserConfig.
Variable nb_node_to_dict : value -> value.
Variable exn_str : exn -> string.
Variable outcome : Type.
Variable continue_parse : NbParserConfig -> list log_record -> outcome.

(** When [nb_config.copy] raises on the notebook's overrides, the
    exception is caught: one warning of subtype [config] is logged, the
    configuration in force is the original one, and [parse] goes on with
    the rest of its work. *)
Lemma parse_override_failure nb_config notebook_metadata raw d exc :
  dict_get notebook_metadata (metadata_key nb_config) = Some raw ->
  nb_node_to_dict raw = VDict d ->
  copy nb_config (dict_pop d "output_folder") = Raise exc ->
  let w := {| log_level := Warning;
              log_message :=
                "Failed to update configuration with notebook metadata: "
                +:+ exn_str exc;
              log_subtype := "config" |} in
  update_config copy nb_node_to_dict exn_str nb_config notebook_metadata
    = Ok (nb_config, [w])
  /\ parse copy nb_node_to_dict exn_str outcome continue_parse
       nb_config notebook_metadata
     = Ok (continue_parse nb_config [w]).
Proof.
  intros Hraw Hdict Hcopy w.
  assert (update_config copy nb_node_to_dict exn_str nb_config notebook_metadata
          = Ok (nb_config, [w])) as Hu.
  { unfold update_config, dict_has, dict_getitem. rewrite Hraw. cbn.
    rewrite Hdict. cbn. now rewrite Hcopy. }
  split; [exact Hu|]. unfold parse. now rewrite Hu.
Qed.

(** C8.  A failure before the guarded call is not caught.  When the value
    the notebook metadata holds under the configuration's metadata key is
    not turned into a mapping by [nb_node_to_dict], the call
    [overrides.pop("output_folder", None)] of line 280, which stands before
    the [try], raises: [TypeError] on a list, [AttributeError] on any other
    value.  No warning is logged, and [parse] raises instead of going on
    with the original configuration. *)
Theorem parse_override_not_a_mapping nb_config notebook_metadata raw :
  dict_get notebook_metadata (metadata_key nb_config) = Some raw ->
  (forall d, nb_node_to_dict raw <> VDict d) ->
  let e := match nb_node_to_dict raw with
           | VList _ => TypeError
           | _ => AttributeError
           end in
  update_config copy nb_node_to_dict exn_str nb_config notebook_metadata
    = Raise e
  /\ parse copy nb_node_to_dict exn_str outcome continue_parse
       nb_config notebook_metadata
     = Raise e.
Proof.
  intros Hraw Hdict e.
  assert (update_config copy nb_node_to_dict exn_str nb_config notebook_metadata
          = Raise e) as Hu.
  { unfold update_config, dict_has, dict_getitem. rewrite Hraw. cbn.
    subst e. destruct (nb_node_to_dict raw) as [| | | | |d]; try reflexivity.
    now destruct (Hdict d). }
  split; [exact Hu|]. unfold parse. now rewrite Hu.
Qed.

End ParseFacts.

(** ** The properties at concrete inputs *)

Section ExampleFacts.
Import Config Doctree Builder Examples.

Lemma get_cell_render_config_correct_witness :
  fst (get_cell_render_config "remove_code_source" None true cell_env0)
    = Ok (VBool true)
  /\ fst (get_cell_render_config "figure" None false cell_env0)
       = Raise (KeyError "figure")
  /\ fst (get_cell_render_config "remove_code_outputs" None true cell_env0)
       = config_getitem config0 "remove_code_outputs".
Proof.
  split; [|split].
  - destruct (get_cell_render_config_correct
                cell_env0 "remove_code_source" None true) as (_ & H & _ & _).
    apply (H [("remove_code_source", VBool true)]); reflexivity.
  - destruct (get_cell_render_config_correct
                cell_env0 "figure" None false) as (_ & _ & H & _).
    apply H; [right; eexists; split; reflexivity | reflexivity].
  - destruct (get_cell_render_config_correct
                cell_env0 "remove_code_outputs" None true) as (_ & _ & _ & H).
    apply H; [right; eexists; split; reflexivity | reflexivity].
Defined.

(** C9, with the plugin called first, fails: with a plugin that takes the
    kernel specification out of the metadata, the code still stores the
    kernel specification in the side store, while a plugin-first order
    would not. *)
Lemma render_nb_metadata_plugin_first_differs :
  fst (render_nb_metadata_token (plugin := text_plugin)
         notebook_metadata "index" ∅) !! "index"
    = Some [("kernelspec", VDict [("name", VStr "python3")])]
  /\ fst (render_nb_metadata_plugin_first (plugin := text_plugin)
            notebook_metadata "index" ∅) !! "index"
       = None
  /\ render_nb_metadata_token (plugin := text_plugin)
       notebook_metadata "index" ∅
     <> render_nb_metadata_plugin_first (plugin := text_plugin)
          notebook_metadata "index" ∅.
Proof.
  assert (fst (render_nb_metadata_token (plugin := text_plugin)
                 notebook_metadata "index" ∅) !! "index"
          = Some [("kernelspec", VDict [("name", VStr "python3")])]) as H1
    by (vm_compute; reflexivity).
  assert (fst (render_nb_metadata_plugin_first (plugin := text_plugin)
                 notebook_metadata "index" ∅) !! "index" = None) as H2
    by (vm_compute; reflexivity).
  split; [exact H1|]. split; [exact H2|].
  intros E. rewrite E in H1. rewrite H1 in H2. discriminate.
Qed.

Lemma render_nb_cell_code_removal_witness :
  render_nb_cell_code (plugin := text_plugin) config0 [] "index.md"
    highlight0 warning0 figure0 "mystnb" token0 []
  = (Ok tt, []).
Proof.
  destruct (render_nb_cell_code_removal (plugin := text_plugin) config0 []
              "index.md" highlight0 warning0 figure0 "mystnb" token0 []
              (VBool true) (VBool false) false false false true
              eq_refl eq_refl eq_refl eq_refl eq_refl eq_refl)
    as (fi & fo & Hi & Ho & Ti & To & Hboth & _).
  apply Hboth; [rewrite Ti | rewrite To]; reflexivity.
Defined.

Lemma merge_other_correct_witness :
  exists env' other',
    Collector.merge_other main_env {[ "api"; "tutorial" ]} worker_env
      = Ok (env', other')
    /\ Collector.ensure_metadata env' !! "tutorial"
         = Some [("exec_data", VStr "ok")]
    /\ Collector.new_exec_data env' = true.
Proof.
  destruct (merge_other_correct main_env {[ "api"; "tutorial" ]} worker_env
              true eq_refl)
    as (env' & other' & Hm & Hin & _ & Hflag & _).
  exists env', other'. split; [exact Hm|]. split.
  - apply Hin; [set_solver | reflexivity].
  - rewrite Hflag. reflexivity.
Defined.

Lemma merge_other_missing_entry_witness :
  exists env' other',
    Collector.merge_other main_env {[ "api"; "tutorial" ]} worker_env
      = Ok (env', other')
    /\ Collector.ensure_metadata env' !! "api" = Some []
    /\ Collector.ensure_metadata other' !! "api" = Some [].
Proof.
  destruct (merge_other_missing_entry main_env {[ "api"; "tutorial" ]}
              worker_env true "api" eq_refl)
    as (env' & other' & Hm & He & Ho); [set_solver | reflexivity |].
  exists env', other'. split; [exact Hm|]. split; [exact He|].
  apply Ho. discriminate.
Defined.

Lemma parse_override_failure_witness :
  Parse.update_config copy0 id (fun _ => "TypeError") config0
    bad_notebook_metadata
  = Ok (config0,
        [{| Parse.log_level := Parse.Warning;
            Parse.log_message :=
              "Failed to update configuration with notebook metadata: TypeError";
            Parse.log_subtype := "config" |}]).
Proof.
  exact (proj1 (parse_override_failure copy0 id (fun _ => "TypeError")
                  unit (fun _ _ => tt) config0 bad_notebook_metadata
                  _ _ TypeError eq_refl eq_refl eq_refl)).
Defined.

End ExampleFacts.

(** ** Mime-bundle resolver: one node at a time *)

Section SelectFacts.
Import Doctree Docutils SelectMimeType Shape.

Lemma is_vstr_true s v : is_vstr s v = true <-> v = VStr s.
Proof.
  destruct v; simpl; try (split; [discriminate|intros H; discriminate H]).
  rewrite String.eqb_eq. split; [now intros ->|now intros [= ->]].
Qed.

Lemma mime_index_Some m mts i :
  mime_index m mts = Some i <->
  mts !! i = Some (VStr m) /\ forall i', i' < i -> mts !! i' <> Some (VStr m).
Proof.
  revert i. induction mts as [|v mts IH]; intros i; simpl.
  - split; [discriminate|]. intros [H _]. discriminate H.
  - destruct (is_vstr m v) eqn:E.
    + apply is_vstr_true in E. subst v. split.
      * intros [= <-]. split; [reflexivity|]. intros i' Hi'. lia.
      * intros [Hi Hmin]. destruct i as [|i]; [reflexivity|].
        exfalso. apply (Hmin 0); [lia|reflexivity].
    + assert (v <> VStr m) as Hv
        by (intros ->; simpl in E; now rewrite String.eqb_refl in E).
      destruct (mime_index m mts) as [k|] eqn:Ek.
      * split.
        -- intros [= <-]. destruct (proj1 (IH k) eq_refl) as [Hk Hmin].
           split; [exact Hk|].
           intros [|i'] Hi'; simpl; [congruence|]. apply Hmin. lia.
        -- intros [Hi Hmin]. destruct i as [|i]; simpl in Hi; [congruence|].
           f_equal. assert (Some k = Some i) as [= ->]; [|reflexivity].
           apply IH. split; [exact Hi|].
           intros i' Hi'. apply (Hmin (S i')). lia.
      * split; [discriminate|]. intros [Hi Hmin].
        destruct i as [|i]; simpl in Hi; [congruence|].
        assert (None = Some i) as Habs; [|discriminate Habs].
        apply IH. split; [exact Hi|].
        intros i' Hi'. apply (Hmin (S i')). lia.
Qed.

Lemma mime_index_None m mts :
  mime_index m mts = None <-> VStr m ∉ mts.
Proof.
  induction mts as [|v mts IH]; simpl.
  - split; [intros _ H; inversion H|reflexivity].
  - destruct (is_vstr m v) eqn:E.
    + apply is_vstr_true in E. subst v. split; [discriminate|].
      intros H. exfalso. apply H. left.
    + assert (v <> VStr m) as Hv
        by (intros ->; simpl in E; now rewrite String.eqb_refl in E).
      destruct (mime_index m mts) as [k|].
      * split; [discriminate|]. intros H. exfalso.
        assert (VStr m ∉ mts) as H' by (intros ?; apply H; now right).
        apply IH in H'. discriminate H'.
      * split; [|reflexivity]. intros _ H.
        apply elem_of_cons in H as [H|H]; [congruence|].
        now apply (proj1 IH).
Qed.

(** The decision of lines 648-655: the chosen index is the position, among
    the mime types, of the earliest priority entry that occurs there. *)
Lemma select_index_Some prio mts i :
  select_index prio mts = Some i <->
  exists j m,
    prio !! j = Some m /\ mime_index m mts = Some i
    /\ forall j' m', j' < j -> prio !! j' = Some m' -> mime_index m' mts = None.
Proof.
  revert i. induction prio as [|m0 prio IH]; intros i; simpl.
  - split; [discriminate|]. intros (j & m & H & _). discriminate H.
  - destruct (mime_index m0 mts) as [k|] eqn:E.
    + split.
      * intros [= <-]. exists 0, m0. repeat split; [exact E|]. intros; lia.
      * intros (j & m & Hj & Hm & Hmin). destruct j as [|j].
        -- simpl in Hj. injection Hj as <-. congruence.
        -- specialize (Hmin 0 m0 ltac:(lia) eq_refl). congruence.
    + rewrite IH. split.
      * intros (j & m & Hj & Hm & Hmin). exists (S j), m.
        repeat split; [exact Hj|exact Hm|].
        intros [|j'] m' Hlt Hj'; simpl in Hj'.
        -- injection Hj' as <-. exact E.
        -- apply (Hmin j'); [lia|exact Hj'].
      * intros (j & m & Hj & Hm & Hmin). destruct j as [|j].
        -- simpl in Hj. injection Hj as <-. congruence.
        -- exists j, m. repeat split; [exact Hj|exact Hm|].
           intros j' m' Hlt Hj'. apply (Hmin (S j')); [lia|exact Hj'].
Qed.

Lemma select_index_None prio mts :
  select_index prio mts = None <->
  forall m, m ∈ prio -> VStr m ∉ mts.
Proof.
  induction prio as [|m0 prio IH]; simpl.
  - split; [intros _ m H; inversion H|reflexivity].
  - destruct (mime_index m0 mts) as [k|] eqn:E.
    + split; [discriminate|]. intros H. exfalso.
      assert (mime_index m0 mts = None) as H'
        by (apply mime_index_None, H; left).
      congruence.
    + rewrite IH. split.
      * intros H m Hm. apply elem_of_cons in Hm as [->|Hm];
          [now apply mime_index_None|now apply H].
      * intros H m Hm. apply H. now right.
Qed.

Lemma index_of_Some x l i :
  index_of x l = Some i ->
  l !! i = Some x /\ (x ∉ take i l)
  /\ remove_first x l = (take i l ++ drop (S i) l).
Proof.
  revert i. induction l as [|y l IH]; intros i; simpl; [discriminate|].
  destruct (Nat.eqb_spec y x) as [->|Hne].
  - intros [= <-]. simpl. rewrite drop_0. repeat split. intros H; inversion H.
  - destruct (index_of x l) as [k|]; [|discriminate].
    intros [= <-]. destruct (IH k eq_refl) as (H1 & H2 & H3).
    simpl. repeat split; [exact H1| |now rewrite H3].
    intros H. apply elem_of_cons in H as [H|H]; [congruence|contradiction].
Qed.

Lemma index_of_elem x l : x ∈ l -> exists i, index_of x l = Some i.
Proof.
  induction l as [|y l IH]; intros H; [inversion H|]. simpl.
  destruct (Nat.eqb_spec y x) as [->|Hne]; [eauto|].
  apply elem_of_cons in H as [H|H]; [congruence|].
  destruct (IH H) as [i ->]. eauto.
Qed.

Lemma index_of_None x l : index_of x l = None -> x ∉ l.
Proof.
  intros H Hin. apply index_of_elem in Hin as [i Hi]. congruence.
Qed.

Lemma setup_child_idem doc p (r : nrec) :
  setup_child doc p (setup_child doc p r) = setup_child doc p r.
Proof.
  destruct doc as [[cl cf]|]; [|reflexivity].
  destruct r as [k a [l f] dd cs pp]. unfold setup_child. cbn.
  destruct l, f, cl, cf; reflexivity.
Qed.

Lemma setup_child_fields doc p (r : nrec) :
  node_kind (setup_child doc p r) = node_kind r
  /\ node_attrs (setup_child doc p r) = node_attrs r
  /\ node_children (setup_child doc p r) = node_children r
  /\ node_parent (setup_child doc p r) = Some p.
Proof. destruct doc; repeat split. Qed.

(** [setup_children] adopts the new nodes and touches nothing else. *)
Lemma setup_children_lookup doc p new (s : store) q :
  setup_children doc p new s !! q =
    (fun r => if decide (q ∈ new) then setup_child doc p r else r)
      <$> s !! q.
Proof.
  revert s. induction new as [|c new IH]; intros s; simpl.
  - destruct (s !! q) as [r|]; simpl; [|reflexivity].
    destruct (decide (q ∈ [])) as [H|_]; [inversion H|reflexivity].
  - rewrite IH. destruct (s !! c) as [cr|] eqn:Ec.
    + destruct (decide (q = c)) as [->|Hne].
      * rewrite lookup_insert_eq, Ec. simpl.
        destruct (decide (c ∈ new)), (decide (c ∈ c :: new)) as [|Hn];
          rewrite ?setup_child_idem; try reflexivity; exfalso; apply Hn; left.
      * rewrite lookup_insert_ne by done.
        destruct (s !! q) as [r|]; simpl; [|reflexivity].
        destruct (decide (q ∈ new)) as [H|H], (decide (q ∈ c :: new)) as [H'|H'];
          try reflexivity; exfalso.
        -- apply H'. now right.
        -- apply elem_of_cons in H' as [?|?]; contradiction.
    + destruct (s !! q) as [r|] eqn:Eq; simpl; [|reflexivity].
      assert (q <> c) by congruence.
      destruct (decide (q ∈ new)) as [H'|H'], (decide (q ∈ c :: new)) as [H''|H''];
        try reflexivity; exfalso.
      * apply H''. now right.
      * apply elem_of_cons in H'' as [?|?]; contradiction.
Qed.

Lemma child_mime_types_spec (s : store) cs mts :
  child_mime_types s cs = Ok mts ->
  length mts = length cs
  /\ forall i c, cs !! i = Some c ->
       exists cr m, s !! c = Some cr /\ mts !! i = Some m
                    /\ node_getitem cr "mime_type" = Ok m.
Proof.
  revert mts. induction cs as [|c cs IH]; intros mts; simpl.
  - intros [= <-]. split; [reflexivity|]. intros i c H. discriminate H.
  - unfold deref. destruct (s !! c) as [cr|] eqn:Ec; [|discriminate]. cbn.
    destruct (node_getitem cr "mime_type") as [m|] eqn:Em; [|discriminate]. cbn.
    destruct (child_mime_types s cs) as [ms|]; [|discriminate]. cbn.
    intros [= <-]. destruct (IH ms eq_refl) as [Hlen Hall].
    split; [simpl; now rewrite Hlen|].
    intros [|i] c' Hc'; simpl in Hc'.
    + injection Hc' as <-. eauto.
    + apply Hall, Hc'.
Qed.

(** The full description of a step gives its shape. *)
Lemma replaced_spliced (s s' : store) p i new :
  replaced s s' p i new -> spliced s s' p i new.
Proof.
  intros H q. rewrite (H q). destruct (s !! q) as [r|]; simpl; [|exact I].
  destruct (setup_child_fields (s !! p ≫= node_document) p r)
    as (Hk & Ha & Hc & Hpar).
  destruct (decide (q ∈ new)), (decide (q = p)); cbn;
    rewrite ?Hk, ?Ha, ?Hc, ?Hpar; repeat split.
Qed.

Lemma replaced_fun (s s1 s2 : store) p i new :
  replaced s s1 p i new -> replaced s s2 p i new -> s1 = s2.
Proof.
  intros H1 H2. apply map_eq. intros q. now rewrite (H1 q), (H2 q).
Qed.

Lemma parent_remove_replaced (s : store) node r p pr i :
  s !! node = Some r -> node_parent r = Some p -> s !! p = Some pr ->
  index_of node (node_children pr) = Some i ->
  exists s', parent_remove s node = Ok s' /\ replaced s s' p i [].
Proof.
  intros Hn Hp Hpr Hi. unfold parent_remove, deref.
  rewrite Hn. cbn. rewrite Hp, Hpr. cbn. rewrite Hi.
  eexists. split; [reflexivity|]. intros q.
  destruct (decide (q = p)) as [->|Hne].
  - rewrite Hpr, lookup_insert_eq. cbn.
    destruct (index_of_Some _ _ _ Hi) as (_ & _ & ->).
    destruct (decide (p ∈ [])) as [H|_]; [inversion H|reflexivity].
  - rewrite lookup_insert_ne by done. destruct (s !! q) as [qr|]; [|done].
    cbn. destruct (decide (q ∈ [])) as [H|_]; [inversion H|reflexivity].
Qed.

Lemma parent_remove_spliced (s : store) node r p pr i :
  s !! node = Some r -> node_parent r = Some p -> s !! p = Some pr ->
  index_of node (node_children pr) = Some i ->
  exists s', parent_remove s node = Ok s' /\ spliced s s' p i [].
Proof.
  intros Hn Hp Hpr Hi.
  destruct (parent_remove_replaced s node r p pr i Hn Hp Hpr Hi)
    as (s' & H & Hrep).
  exists s'. split; [exact H|]. now apply replaced_spliced.
Qed.

(** The second half of [replace_self]: adoption and splice. *)
Lemma replace_replaced (s : store) p pr i new :
  s !! p = Some pr ->
  exists s',
    (pr1 ← deref (setup_children (node_document pr) p new s) p ;
     Ok (<[p := set_node_children pr1
                  (take i (node_children pr1) ++ new
                   ++ drop (S i) (node_children pr1))]>
           (setup_children (node_document pr) p new s))) = Ok s'
    /\ replaced s s' p i new.
Proof.
  intros Hpr. unfold deref.
  rewrite setup_children_lookup, Hpr. cbn.
  eexists. split; [reflexivity|]. intros q.
  destruct (decide (q = p)) as [->|Hne].
  - rewrite Hpr, lookup_insert_eq. cbn. reflexivity.
  - rewrite lookup_insert_ne by done. rewrite setup_children_lookup, Hpr.
    destruct (s !! q) as [qr|]; [|done]. cbn. reflexivity.
Qed.

Lemma append_attr_other a attr v a' key :
  append_attr a attr v = Ok a' -> key <> attr ->
  dict_get a' key = dict_get a key.
Proof.
  unfold append_attr. destruct (py_in v (basic_attribute a attr)) as [[]|];
    cbn; try discriminate.
  - now intros [= <-].
  - destruct (basic_attribute a attr); try discriminate.
    intros [= <-] Hne. rewrite dict_get_set.
    destruct (String.eqb_spec attr key) as [->|]; [contradiction|reflexivity].
Qed.

Lemma append_attr_list_other attr key : forall values a a',
  append_attr_list a attr values = Ok a' -> key <> attr ->
  dict_get a' key = dict_get a key.
Proof.
  induction values as [|v values IH]; intros a a'; simpl.
  - now intros [= <-].
  - destruct (append_attr a attr v) as [a1|] eqn:E; [|discriminate]. cbn.
    intros H Hne. rewrite (IH _ _ H Hne). eapply append_attr_other; eauto.
Qed.

Lemma update_atts_other dict_ key : forall atts a a',
  update_atts atts a dict_ = Ok a' -> key ∉ atts ->
  dict_get a' key = dict_get a key.
Proof.
  induction atts as [|att atts IH]; intros a a'; simpl.
  - now intros [= <-].
  - destruct (py_iter (basic_attribute dict_ att)) as [vs|]; [|discriminate].
    cbn. destruct (append_attr_list a att vs) as [a1|] eqn:E; [|discriminate].
    cbn. intros H Hnin. rewrite (IH _ _ H).
    + eapply append_attr_list_other; [exact E|].
      intros ->. apply Hnin. left.
    + intros Hin. apply Hnin. now right.
Qed.

(** The hand-over changes basic attributes only. *)
Lemma hand_over_same (s s0 : store) r new :
  hand_over s r new = Ok s0 ->
  forall q,
    match s !! q, s0 !! q with
    | Some a, Some b =>
        node_kind b = node_kind a
        /\ (forall key, key ∉ basic_attributes ->
              dict_get (node_attrs b) key = dict_get (node_attrs a) key)
        /\ node_children b = node_children a
        /\ node_parent b = node_parent a
    | None, None => True
    | _, _ => False
    end.
Proof.
  assert (forall q, match s !! q, s !! q with
                    | Some a, Some b =>
                        node_kind b = node_kind a
                        /\ (forall key, key ∉ basic_attributes ->
                              dict_get (node_attrs b) key
                              = dict_get (node_attrs a) key)
                        /\ node_children b = node_children a
                        /\ node_parent b = node_parent a
                    | None, None => True
                    | _, _ => False
                    end) as Hid.
  { intros q. destruct (s !! q); [repeat split|exact I]. }
  unfold hand_over. destruct new as [|u new].
  - destruct (losing_attribute (node_attrs r)); [discriminate|].
    now intros [= <-].
  - unfold deref. destruct (s !! u) as [ur|] eqn:Eu; [|discriminate]. cbn.
    destruct (node_kind ur) eqn:Ek.
    + destruct (losing_attribute (node_attrs r)); [discriminate|].
      now intros [= <-].
    + destruct (update_basic_atts (node_attrs ur) (node_attrs r)) as [a|] eqn:Ea;
        [|discriminate]. cbn. intros [= <-] q.
      destruct (decide (q = u)) as [->|Hne].
      * rewrite Eu, lookup_insert_eq. cbn. repeat split.
        intros key Hkey. eapply update_atts_other; eassumption.
      * rewrite lookup_insert_ne by done. apply Hid.
Qed.

Lemma append_attr_list_nil a attr : append_attr_list a attr [] = Ok a.
Proof. reflexivity. Qed.

Lemma no_basic_atts_spec a att :
  no_basic_atts a = true -> att ∈ basic_attributes ->
  basic_attribute a att = VList [].
Proof.
  unfold no_basic_atts, basic_attribute. rewrite forallb_forall.
  intros H Hin. specialize (H att (proj1 (list_elem_of_In _ _) Hin)).
  destruct (dict_get a att) as [[| | | |[|]|]|]; try discriminate; reflexivity.
Qed.

(** A node without basic attributes hands nothing over. *)
Lemma hand_over_plain (s : store) r new :
  no_basic_atts (node_attrs r) = true ->
  (forall u, head new = Some u -> is_Some (s !! u)) ->
  hand_over s r new = Ok s.
Proof.
  intros Hplain Hhead.
  assert (losing_attribute (node_attrs r) = false) as Hlose.
  { unfold losing_attribute.
    apply not_true_is_false. intros H. apply existsb_exists in H
      as (att & Hin & Ht).
    rewrite (no_basic_atts_spec _ att Hplain) in Ht; [discriminate|].
    now apply list_elem_of_In. }
  assert (forall a atts, (forall att, att ∈ atts -> att ∈ basic_attributes) ->
            update_atts atts a (node_attrs r) = Ok a) as Hupd.
  { intros a atts. induction atts as [|att atts IH]; intros Hsub;
      [reflexivity|]. simpl.
    rewrite (no_basic_atts_spec _ att Hplain) by (apply Hsub; left). cbn.
    apply IH. intros att' H. apply Hsub. now right. }
  unfold hand_over. destruct new as [|u new]; [now rewrite Hlose|].
  destruct (Hhead u eq_refl) as [ur Hu]. unfold deref. rewrite Hu. cbn.
  destruct (node_kind ur); [now rewrite Hlose|].
  unfold update_basic_atts. rewrite Hupd by auto. cbn. f_equal.
  apply map_eq. intros q. destruct (decide (q = u)) as [->|Hne].
  - rewrite lookup_insert_eq, Hu. f_equal. now destruct ur.
  - now rewrite lookup_insert_ne.
Qed.

Lemma deref_Some (s : store) i r : s !! i = Some r -> deref s i = Ok r.
Proof. unfold deref. now intros ->. Qed.

Lemma deref_Ok (s : store) i r : deref s i = Ok r -> s !! i = Some r.
Proof. unfold deref. destruct (s !! i); [now intros [= ->]|discriminate]. Qed.

(** [replace_self] on a node that has nothing to hand over. *)
Lemma replace_self_replaced (s : store) node r p pr i new :
  s !! node = Some r -> node_parent r = Some p -> s !! p = Some pr ->
  index_of node (node_children pr) = Some i ->
  no_basic_atts (node_attrs r) = true ->
  (forall u, head new = Some u -> is_Some (s !! u)) ->
  exists s', replace_self s node new = Ok s' /\ replaced s s' p i new.
Proof.
  intros Hn Hp Hpr Hi Hplain Hhead. unfold replace_self.
  rewrite (deref_Some _ _ _ Hn). cbn.
  rewrite (hand_over_plain s r new Hplain Hhead). cbn. rewrite Hp.
  rewrite (deref_Some _ _ _ Hpr). cbn. rewrite Hi.
  apply (replace_replaced s p pr i new Hpr).
Qed.

(** What a [replace_self] that completes has done to the shape of the
    document. *)
Lemma replace_self_shape (s s' : store) node r new :
  s !! node = Some r -> replace_self s node new = Ok s' ->
  exists p pr i,
    node_parent r = Some p /\ s !! p = Some pr
    /\ index_of node (node_children pr) = Some i /\ spliced s s' p i new.
Proof.
  intros Hn. unfold replace_self. rewrite (deref_Some _ _ _ Hn). cbn.
  destruct (hand_over s r new) as [s0|] eqn:Eh; [|discriminate]. cbn.
  pose proof (hand_over_same s s0 r new Eh) as Hsame.
  destruct (node_parent r) as [p|] eqn:Hp; [|discriminate].
  destruct (deref s0 p) as [pr0|] eqn:Hpr0; [|discriminate].
  apply deref_Ok in Hpr0.
  cbn. destruct (index_of node (node_children pr0)) as [i|] eqn:Hi;
    [|discriminate].
  destruct (replace_replaced s0 p pr0 i new Hpr0) as (s2 & H2 & Hrep).
  intros H. assert (s2 = s') as <- by congruence.
  pose proof (Hsame p) as Hsp. rewrite Hpr0 in Hsp.
  destruct (s !! p) as [pr|] eqn:Hpr; [|contradiction].
  destruct Hsp as (_ & _ & Hcp & _).
  exists p, pr, i. split; [reflexivity|]. split; [exact Hpr|].
  split; [now rewrite <- Hcp|].
  apply replaced_spliced in Hrep. intros q.
  specialize (Hsame q). specialize (Hrep q).
  destruct (s !! q) as [a|], (s0 !! q) as [b|], (s2 !! q) as [c|];
    try contradiction; try exact I.
  destruct Hsame as (K & A & C & P), Hrep as (K' & A' & C' & P').
  repeat split.
  - congruence.
  - intros key Hkey. rewrite (A' key Hkey). apply A, Hkey.
  - rewrite C', C. reflexivity.
  - rewrite P', P. reflexivity.
Qed.

End SelectFacts.

Section ProcessFacts.
Import Doctree Docutils SelectMimeType Shape.

Variable DEFAULT_LOG_TYPE : string.
Variable py_repr : value -> string.
Variable bname : string.

Local Abbreviation process :=
  (SelectMimeType.process DEFAULT_LOG_TYPE py_repr bname).
Local Abbreviation bundle_warnings :=
  (SelectMimeType.bundle_warnings DEFAULT_LOG_TYPE py_repr bname).

(** The loop body completes on a node that is ready: it puts the selection
    in the place of the node and logs what the document says it should. *)
Lemma process_ready prio (s : store) log x :
  ready s x ->
  exists r p pr i mts new s',
    s !! x = Some r /\ node_parent r = Some p /\ s !! p = Some pr
    /\ index_of x (node_children pr) = Some i
    /\ child_mime_types s (node_children r) = Ok mts
    /\ selection prio s r mts new
    /\ replaced s s' p i new
    /\ process prio (s, log) x = Ok (s', log ++ bundle_warnings prio s x).
Proof.
  intros (r & p & pr & i & mts & Hx & Hpar & Hp & Hi & Hmts & Hplain & Hcl).
  exists r, p, pr, i, mts.
  destruct (parent_remove_replaced s x r p pr i Hx Hpar Hp Hi)
    as (s1 & Hrem & Hrep1).
  assert (forall new s' ws,
            selection prio s r mts new -> replaced s s' p i new ->
            process prio (s, log) x = Ok (s', log ++ ws) ->
            bundle_warnings prio s x = ws ->
            exists new s',
              s !! x = Some r /\ node_parent r = Some p /\ s !! p = Some pr
              /\ index_of x (node_children pr) = Some i
              /\ child_mime_types s (node_children r) = Ok mts
              /\ selection prio s r mts new
              /\ replaced s s' p i new
              /\ process prio (s, log) x
                 = Ok (s', log ++ bundle_warnings prio s x)) as Hdone.
  { intros new s' ws H1 H2 H3 H4. exists new, s'. rewrite H4.
    repeat split; assumption. }
  assert (process prio (s, log) x =
          match mts with
          | [] => s' ← parent_remove s x ; Ok (s', log)
          | _ =>
              match select_index prio mts with
              | None =>
                  s' ← parent_remove s x ;
                  Ok (s', log ++ [no_mime_warning DEFAULT_LOG_TYPE py_repr
                                    bname x mts])
              | Some index =>
                  match node_children r !! index with
                  | None => Raise IndexError
                  | Some w =>
                      wr ← deref s w ;
                      match node_children wr with
                      | [] => s' ← parent_remove s x ; Ok (s', log)
                      | new => s' ← replace_self s x new ; Ok (s', log)
                      end
                  end
              end
          end) as Hproc.
  { unfold SelectMimeType.process.
    rewrite (deref_Some _ _ _ Hx). cbn. rewrite Hmts. reflexivity. }
  assert (bundle_warnings prio s x =
          match mts, select_index prio mts with
          | _ :: _, None =>
              [no_mime_warning DEFAULT_LOG_TYPE py_repr bname x mts]
          | _, _ => []
          end) as Hwarn.
  { unfold SelectMimeType.bundle_warnings.
    rewrite Hx, Hmts. now destruct mts. }
  remember (process prio (s, log) x) as res eqn:Eres.
  destruct mts as [|m mts].
  - apply (Hdone [] s1 []); [right; split; [|reflexivity]|exact Hrep1| |].
    + intros m _ H. inversion H.
    + rewrite app_nil_r. rewrite Hrem in Hproc. exact Hproc.
    + exact Hwarn.
  - destruct (select_index prio (m :: mts)) as [idx|] eqn:Esel.
    + apply select_index_Some in Esel as (j & m' & Hj & Hidx & Hmin).
      apply mime_index_Some in Hidx as [Hidx Hfirst].
      destruct (child_mime_types_spec s _ _ Hmts) as [Hlen Hall].
      assert (idx < length (node_children r)) as Hlt.
      { rewrite <- Hlen. eapply lookup_lt_Some. exact Hidx. }
      apply lookup_lt_is_Some in Hlt as [w Hw]. rewrite Hw in Hproc.
      destruct (Hall idx w Hw) as (wr & _ & Hwr & _).
      rewrite (deref_Some _ _ _ Hwr) in Hproc. cbn in Hproc.
      assert (selection prio s r (m :: mts) (node_children wr)) as Hsel.
      { left. exists j, m', idx, w, wr. repeat split; try assumption.
        intros j' m0 Hlt' Hj'. apply mime_index_None. eauto. }
      destruct (node_children wr) as [|c cs] eqn:Ecs.
      * apply (Hdone [] s1 []); [exact Hsel|exact Hrep1| |exact Hwarn].
        rewrite app_nil_r. rewrite Hrem in Hproc. exact Hproc.
      * destruct (replace_self_replaced s x r p pr i (c :: cs)
                    Hx Hpar Hp Hi Hplain) as (s2 & Hrep & Hrep2).
        { intros u [= <-]. apply (Hcl w wr c).
          - eapply list_elem_of_lookup_2, Hw.
          - exact Hwr.
          - rewrite Ecs. left. }
        apply (Hdone (c :: cs) s2 []); [exact Hsel|exact Hrep2| |exact Hwarn].
        rewrite app_nil_r. rewrite Hrep in Hproc. exact Hproc.
    + apply (Hdone [] s1 [no_mime_warning DEFAULT_LOG_TYPE py_repr bname x
                            (m :: mts)]);
        [right; split; [|reflexivity]|exact Hrep1| |exact Hwarn].
      * now apply select_index_None.
      * rewrite Hrem in Hproc. exact Hproc.
Qed.

End ProcessFacts.

(** ** The document as a tree *)

Section TraverseFacts.
Import Doctree Docutils.

Variable condition : nrec -> bool.

Lemma traverse_unfold fuel (s : store) i :
  traverse condition (S fuel) s i =
    r ← deref s i ;
    rest ← traverse_list condition fuel s (node_children r) ;
    Ok (if condition r then i :: rest else rest).
Proof. reflexivity. Qed.

Lemma path_zero_inv (s : store) a b : path s 0 a b -> a = b.
Proof. intros H. inversion H. reflexivity. Qed.

Lemma path_succ_inv (s : store) n a c :
  path s (S n) a c ->
  exists b r, path s n a b /\ s !! b = Some r /\ c ∈ node_children r.
Proof. intros H. inversion H; subst. eauto. Qed.

Lemma path_cons (s : store) n a r c x :
  s !! a = Some r -> c ∈ node_children r -> path s n c x -> path s (S n) a x.
Proof.
  intros Ha Hc Hp. induction Hp as [c|n c b rb y Hp IH Hb Hy].
  - eapply path_step; [apply path_here|exact Ha|exact Hc].
  - eapply path_step; [apply IH, Hc|exact Hb|exact Hy].
Qed.

Lemma path_first (s : store) n a x :
  path s (S n) a x ->
  exists r c, s !! a = Some r /\ c ∈ node_children r /\ path s n c x.
Proof.
  revert x. induction n as [|n IH]; intros x Hp.
  - inversion Hp as [|n' a' b r c Hp' Hb Hc]; subst.
    inversion Hp'; subst. exists r, x. repeat split; try assumption.
    apply path_here.
  - inversion Hp as [|n' a' b r c Hp' Hb Hc]; subst.
    destruct (IH _ Hp') as (ra & c0 & Ha & Hc0 & Hp0).
    exists ra, c0. repeat split; try assumption.
    eapply path_step; eassumption.
Qed.

Lemma path_trans (s : store) n m a b c :
  path s n a b -> path s m b c -> path s (n + m) a c.
Proof.
  intros Hab Hbc. induction Hbc as [b|m b y r c Hby IH Hy Hc].
  - now rewrite Nat.add_0_r.
  - rewrite Nat.add_succ_r. eapply path_step; [apply IH, Hab|exact Hy|exact Hc].
Qed.

(** What a traversal that completes returns: the nodes below [i] that
    satisfy the condition. *)
Lemma traverse_elem fuel (s : store) :
  forall i l, traverse condition fuel s i = Ok l ->
  forall x, x ∈ l <->
    exists n xr, path s n i x /\ s !! x = Some xr /\ condition xr = true.
Proof.
  induction fuel as [|fuel IH]; intros i l; [discriminate|].
  rewrite traverse_unfold. unfold deref.
  destruct (s !! i) as [r|] eqn:Ei; [|discriminate]. cbn.
  destruct (traverse_list condition fuel s (node_children r)) as [rest|] eqn:Er;
    [|discriminate]. cbn. intros [= <-].
  assert (forall x, x ∈ rest <->
            exists c n xr, c ∈ node_children r /\ path s n c x
                           /\ s !! x = Some xr /\ condition xr = true) as Hrest.
  { clear Ei. revert rest Er.
    induction (node_children r) as [|c cs IHcs]; intros rest; cbn.
    - intros [= <-] x. split; [intros H; inversion H|].
      intros (c & _ & _ & H & _). inversion H.
    - destruct (traverse condition fuel s c) as [l1|] eqn:E1; [|discriminate].
      cbn. fold (traverse_list condition fuel s cs).
      destruct (traverse_list condition fuel s cs) as [l2|]; [|discriminate].
      cbn. intros [= <-] x. rewrite elem_of_app, (IH _ _ E1), (IHcs _ eq_refl).
      split.
      + intros [(n & xr & H)|(c' & n & xr & Hc' & H)].
        * exists c, n, xr. split; [left|exact H].
        * exists c', n, xr. split; [now right|exact H].
      + intros (c' & n & xr & Hc' & H).
        apply elem_of_cons in Hc' as [->|Hc']; [left|right]; eauto. }
  intros x. split.
  - intros Hx.
    assert (x = i /\ condition r = true \/ x ∈ rest) as [[-> Hc]|Hx'].
    { destruct (condition r); [|now right].
      apply elem_of_cons in Hx as [->|Hx]; [now left|now right]. }
    + exists 0, r. repeat split; [apply path_here|exact Ei|exact Hc].
    + apply Hrest in Hx' as (c & n & xr & Hc & Hp & Hxr).
      exists (S n), xr. split; [|exact Hxr]. eapply path_cons; eassumption.
  - intros (n & xr & Hp & Hx & Hc). destruct n as [|n].
    + inversion Hp; subst. assert (xr = r) as -> by congruence.
      rewrite Hc. left.
    + apply path_first in Hp as (r' & c & Hi & Hc' & Hp).
      assert (r' = r) as -> by congruence.
      assert (x ∈ rest) as Hin by (apply Hrest; eauto 10).
      destruct (condition r); [now right|exact Hin].
Qed.

(** A traversal completes when the levels below [i] are fewer than the
    fuel and every node met is in the table. *)
Lemma traverse_succeeds fuel (s : store) :
  forall i,
    (forall n x, path s n i x -> n < fuel /\ is_Some (s !! x)) ->
    exists l, traverse condition fuel s i = Ok l.
Proof.
  induction fuel as [|fuel IH]; intros i Hb.
  - destruct (Hb 0 i (path_here _ _)) as [H _]. lia.
  - rewrite traverse_unfold. unfold deref.
    destruct (Hb 0 i (path_here _ _)) as [_ [r Hr]]. rewrite Hr. cbn.
    assert (exists rest,
              traverse_list condition fuel s (node_children r) = Ok rest)
      as [rest ->].
    { assert (forall c, c ∈ node_children r ->
                exists l, traverse condition fuel s c = Ok l) as Hch.
      { intros c Hc. apply IH. intros n x Hp.
        destruct (Hb (S n) x) as [Hlt Hx];
          [eapply path_cons; eassumption|].
        split; [lia|exact Hx]. }
      clear Hr Hb. induction (node_children r) as [|c cs IHcs]; cbn; [eauto|].
      destruct (Hch c) as [l1 ->]; [left|]. cbn.
      fold (traverse_list condition fuel s cs).
      destruct IHcs as [l2 ->]; [intros c' Hc'; apply Hch; now right|].
      cbn. eauto. }
    cbn. eauto.
Qed.

End TraverseFacts.

Section TreeFacts.
Import Doctree Docutils SelectMimeType Shape.

Variable s : store.
Variable d : nat.

Hypothesis Hroot : exists r0, s !! d = Some r0 /\ node_parent r0 = None.
Hypothesis Htree :
  forall q qr, reachable s d q -> s !! q = Some qr ->
    NoDup (node_children qr)
    /\ forall c, c ∈ node_children qr ->
         exists cr, s !! c = Some cr /\ node_parent cr = Some q.

Lemma root_no_parent n b r :
  path s n d b -> s !! b = Some r -> d ∈ node_children r -> False.
Proof.
  intros Hp Hb Hd. destruct Hroot as (r0 & Hr0 & Hpar).
  destruct (Htree b r (ex_intro _ n Hp) Hb) as [_ H].
  destruct (H d Hd) as (cr & Hcr & Hparent). congruence.
Qed.

(** A node of the document lies at one depth only. *)
Lemma depth_unique n a :
  path s n d a -> forall m, path s m d a -> n = m.
Proof.
  revert a. induction n as [|n IH]; intros a Hp m Hm.
  - apply path_zero_inv in Hp as <-. destruct m as [|m]; [reflexivity|].
    apply path_succ_inv in Hm as (b & r & Hm' & Hb & Hc).
    exfalso. eapply root_no_parent; eassumption.
  - apply path_succ_inv in Hp as (b & r & Hp' & Hb & Hc).
    destruct m as [|m].
    + apply path_zero_inv in Hm as <-.
      exfalso. eapply root_no_parent; eassumption.
    + apply path_succ_inv in Hm as (b' & r' & Hm' & Hb' & Hc').
      f_equal. apply (IH b Hp').
      destruct (Htree b r (ex_intro _ n Hp') Hb) as [_ H].
      destruct (H a Hc) as (cr & Hcr & Hpar).
      destruct (Htree b' r' (ex_intro _ m Hm') Hb') as [_ H'].
      destruct (H' a Hc') as (cr' & Hcr' & Hpar').
      assert (b = b') as -> by congruence. exact Hm'.
Qed.

Lemma reachable_child q qr c :
  reachable s d q -> s !! q = Some qr -> c ∈ node_children qr ->
  reachable s d c.
Proof. intros [n Hp] Hq Hc. exists (S n). eapply path_step; eassumption. Qed.

(** A node of the document other than the root is a child of its parent,
    which is a node of the document. *)
Lemma reachable_parent x xr :
  reachable s d x -> s !! x = Some xr -> x <> d ->
  exists p pr n, node_parent xr = Some p /\ s !! p = Some pr
                 /\ x ∈ node_children pr /\ path s n d p /\ path s (S n) d x.
Proof.
  intros [n Hp] Hx Hne. destruct n as [|n].
  - apply path_zero_inv in Hp. congruence.
  - pose proof Hp as Hp0.
    apply path_succ_inv in Hp as (b & r & Hp' & Hb & Hc).
    destruct (Htree b r (ex_intro _ n Hp') Hb) as [_ H].
    destruct (H x Hc) as (cr & Hcr & Hpar).
    assert (cr = xr) as -> by congruence.
    exists b, r, n. repeat split; assumption.
Qed.

End TreeFacts.

(** ** One step of the loop, seen on the whole document *)

Section SplicedFacts.
Import Doctree Docutils SelectMimeType Shape.

Variables (s s' : store) (d x p i : nat) (r pr : nrec) (new : list nat).

Hypothesis Hx : s !! x = Some r.
Hypothesis Hp : s !! p = Some pr.
Hypothesis Hi : index_of x (node_children pr) = Some i.
Hypothesis Hsp : spliced s s' p i new.
Hypothesis Hnew :
  new = [] \/ exists w wr, w ∈ node_children r /\ s !! w = Some wr
                           /\ new = node_children wr.

Lemma condition_same (r1 r2 : nrec) :
  node_kind r1 = node_kind r2 ->
  (forall key, key ∉ basic_attributes ->
     dict_get (node_attrs r1) key = dict_get (node_attrs r2) key) ->
  condition r1 = condition r2.
Proof.
  unfold condition. intros -> H. rewrite (H "nb_element"); [reflexivity|].
  apply (bool_decide_unpack _). vm_compute. exact I.
Qed.

Lemma spliced_after q rq' :
  s' !! q = Some rq' ->
  exists rq, s !! q = Some rq
    /\ condition rq' = condition rq
    /\ node_children rq' =
         (if decide (q = p)
          then take i (node_children rq) ++ new ++ drop (S i) (node_children rq)
          else node_children rq)
    /\ node_parent rq' = (if decide (q ∈ new) then Some p else node_parent rq).
Proof.
  intros Hq. specialize (Hsp q). rewrite Hq in Hsp.
  destruct (s !! q) as [rq|]; [|contradiction].
  destruct Hsp as (Hk & Ha & Hc & Hpar).
  exists rq. repeat split; try assumption. now apply condition_same.
Qed.

Lemma spliced_before q rq :
  s !! q = Some rq ->
  exists rq', s' !! q = Some rq'
    /\ condition rq' = condition rq
    /\ node_children rq' =
         (if decide (q = p)
          then take i (node_children rq) ++ new ++ drop (S i) (node_children rq)
          else node_children rq)
    /\ node_parent rq' = (if decide (q ∈ new) then Some p else node_parent rq).
Proof.
  intros Hq. specialize (Hsp q). rewrite Hq in Hsp.
  destruct (s' !! q) as [rq'|]; [|contradiction].
  destruct Hsp as (Hk & Ha & Hc & Hpar).
  exists rq'. repeat split; try assumption. now apply condition_same.
Qed.

Lemma x_in_parent : x ∈ node_children pr.
Proof.
  destruct (index_of_Some _ _ _ Hi) as (H & _). eapply list_elem_of_lookup_2, H.
Qed.

Lemma parent_children_split :
  node_children pr = take i (node_children pr) ++ x :: drop (S i) (node_children pr).
Proof.
  destruct (index_of_Some _ _ _ Hi) as (H & _).
  symmetry. now apply take_drop_middle.
Qed.

Lemma elem_of_take_drop (c : nat) (l : list nat) :
  c ∈ take i l ++ drop (S i) l -> c ∈ l.
Proof.
  intros H. apply elem_of_app in H as [H|H].
  - rewrite <- (take_drop i l). apply elem_of_app. now left.
  - rewrite <- (take_drop (S i) l). apply elem_of_app. now right.
Qed.

(** The children of a node after the step: those it had, except that the
    parent has lost [x] and gained [new]. *)
Lemma edge_after q rq' c :
  s' !! q = Some rq' -> c ∈ node_children rq' ->
  exists rq, s !! q = Some rq
    /\ (c ∈ node_children rq /\ (q = p -> c ∈ take i (node_children rq)
                                           ++ drop (S i) (node_children rq))
        \/ q = p /\ c ∈ new).
Proof.
  intros Hq Hc. destruct (spliced_after _ _ Hq) as (rq & Hrq & _ & Hch & _).
  exists rq. split; [exact Hrq|]. rewrite Hch in Hc.
  destruct (decide (q = p)) as [->|Hne].
  - rewrite !elem_of_app in Hc. destruct Hc as [Hc|[Hc|Hc]].
    + left. split; [|intros _; apply elem_of_app; now left].
      apply elem_of_take_drop, elem_of_app. now left.
    + now right.
    + left. split; [|intros _; apply elem_of_app; now right].
      apply elem_of_take_drop, elem_of_app. now right.
  - left. split; [exact Hc|contradiction].
Qed.

(** A path of the new document is, level by level or longer, a path of the
    old one. *)
Lemma path_lift n j :
  path s' n d j -> exists m, n <= m /\ path s m d j.
Proof.
  induction 1 as [a|n a b rb' c Hpath IH Hb Hc].
  - exists 0. split; [lia|apply path_here].
  - destruct IH as (m & Hle & Hm).
    destruct (edge_after _ _ _ Hb Hc) as (rb & Hrb & [[Hc' _]|[-> Hc']]).
    + exists (S m). split; [lia|]. eapply path_step; eassumption.
    + destruct Hnew as [->|(w & wr & Hw & Hwr & ->)]; [inversion Hc'|].
      exists (S (S (S m))). split; [lia|].
      eapply path_step; [|exact Hwr|exact Hc'].
      eapply path_step; [|exact Hx|exact Hw].
      eapply path_step; [exact Hm|exact Hp|apply x_in_parent].
Qed.

Lemma reachable_lift j : reachable s' d j -> reachable s d j.
Proof. intros [n H]. destruct (path_lift _ _ H) as (m & _ & Hm). now exists m. Qed.

(** A path of the old document that does not pass through the parent is a
    path of the new one. *)
Lemma path_keep n j :
  (forall m, m < n -> ~ path s m d p) ->
  path s n d j -> path s' n d j.
Proof.
  intros Hnp Hpath. induction Hpath as [a|n a b rb c Hpath IH Hb Hc].
  - apply path_here.
  - destruct (spliced_before _ _ Hb) as (rb' & Hrb' & _ & Hch & _).
    assert (b <> p) as Hne by (intros ->; apply (Hnp n); [lia|exact Hpath]).
    rewrite decide_False in Hch by exact Hne.
    eapply path_step; [|exact Hrb'|now rewrite Hch].
    apply IH. intros m Hm. apply Hnp. lia.
Qed.

End SplicedFacts.

Section StepFacts.
Import Doctree Docutils SelectMimeType Shape.

Variables (s s' : store) (d x p i : nat) (r pr : nrec) (new done : list nat).

Hypothesis Hinv : inv s d done.
Hypothesis Hx : s !! x = Some r.
Hypothesis Hbundle : condition r = true.
Hypothesis Hpar : node_parent r = Some p.
Hypothesis Hp : s !! p = Some pr.
Hypothesis Hi : index_of x (node_children pr) = Some i.
Hypothesis Hsp : spliced s s' p i new.
Hypothesis Hnew :
  new = [] \/ exists w wr, w ∈ node_children r /\ s !! w = Some wr
                           /\ new = node_children wr.
Hypothesis Hfresh : x ∉ done.

Lemma step_root : exists r0, s !! d = Some r0 /\ node_parent r0 = None.
Proof. destruct (inv_root _ _ _ Hinv) as (r0 & H1 & H2 & _). eauto. Qed.

Lemma step_tree q qr :
  reachable s d q -> s !! q = Some qr ->
  NoDup (node_children qr)
  /\ forall c, c ∈ node_children qr ->
       exists cr, s !! c = Some cr /\ node_parent cr = Some q.
Proof. apply (inv_tree _ _ _ Hinv). Qed.

Lemma x_child : x ∈ node_children pr.
Proof. exact (x_in_parent x i pr Hi). Qed.

(** To reach a contradiction one may suppose that a node is, or is not,
    part of the document. *)
Lemma by_cases (A : Prop) : (A -> False) -> (~ A -> False) -> False.
Proof. tauto. Qed.

Lemma parent_not_bundle : condition pr = false.
Proof.
  destruct (condition pr) eqn:E; [|reflexivity].
  rewrite <- Hbundle.
  eapply (inv_bundle_children _ _ _ Hinv p pr x r);
    [exact Hp|exact E|exact x_child|exact Hx].
Qed.

Lemma parent_not_done : p ∉ done.
Proof.
  intros H. destruct (inv_done _ _ _ Hinv p H) as (_ & yr & Hy & Hc).
  assert (yr = pr) as -> by congruence.
  rewrite parent_not_bundle in Hc. discriminate.
Qed.

Lemma x_not_parent : x <> p.
Proof.
  intros E. assert (r = pr) as E' by congruence.
  pose proof parent_not_bundle as H. rewrite <- E' in H. congruence.
Qed.

Lemma x_not_stale : ~ stale s done x.
Proof.
  intros (y & yr & Hy & Hyr & Hin).
  destruct (inv_done _ _ _ Hinv y Hy) as (_ & yr' & Hyr' & Hc).
  assert (yr' = yr) as -> by congruence.
  pose proof (inv_bundle_children _ _ _ Hinv y yr x r Hyr Hc Hin Hx).
  congruence.
Qed.

Lemma winner_not_stale w : w ∈ node_children r -> ~ stale s done w.
Proof.
  intros Hw (y & yr & Hy & Hyr & Hin).
  destruct (inv_done _ _ _ Hinv y Hy) as (_ & yr' & Hyr' & Hc).
  assert (yr' = yr) as -> by congruence.
  assert (x = y) as E
    by (eapply (inv_bundle_disjoint _ _ _ Hinv x r y yr w); eassumption).
  apply Hfresh. now rewrite E.
Qed.

Lemma stale_after q : stale s done q -> stale s' (x :: done) q.
Proof.
  intros (y & yr & Hy & Hyr & Hin).
  destruct (spliced_before _ _ _ _ _ Hsp _ _ Hyr) as (yr' & Hyr' & _ & Hch & _).
  assert (y <> p) as Hne
    by (intros E; apply parent_not_done; now rewrite <- E).
  rewrite decide_False in Hch by exact Hne.
  exists y, yr'. repeat split; [now right|exact Hyr'|now rewrite Hch].
Qed.

Lemma lift j : reachable s' d j -> reachable s d j.
Proof. exact (reachable_lift s s' d x p i r pr new Hx Hp Hi Hsp Hnew j). Qed.

Lemma depth n a m : path s n d a -> path s m d a -> n = m.
Proof. intros H1 H2. exact (depth_unique s d step_root step_tree n a H1 m H2). Qed.

Lemma x_not_root : x <> d.
Proof.
  intros E. destruct (inv_root _ _ _ Hinv) as (r0 & H0 & _ & Hc).
  assert (r = r0) as E' by congruence. congruence.
Qed.

(** *** When the node is no longer part of the document *)

Lemma parent_unreachable : ~ reachable s d x -> ~ reachable s d p.
Proof.
  intros HA Hr. apply HA.
  exact (reachable_child s d p pr x Hr Hp x_child).
Qed.

Lemma new_unreachable c : ~ reachable s d x -> c ∈ new -> ~ reachable s d c.
Proof.
  intros HA Hc. destruct Hnew as [E|(w & wr & Hw & Hwr & E)].
  - rewrite E in Hc. inversion Hc.
  - rewrite E in Hc.
    apply (inv_closed _ _ _ Hinv w wr c Hwr); [|now apply winner_not_stale|exact Hc].
    exact (inv_closed _ _ _ Hinv x r w Hx HA x_not_stale Hw).
Qed.

Lemma reachable_kept j :
  ~ reachable s d x -> reachable s d j -> reachable s' d j.
Proof.
  intros HA [n Hn]. exists n.
  apply (path_keep s s' d p i new Hsp n j); [|exact Hn].
  intros m _ Hm. apply (parent_unreachable HA). now exists m.
Qed.

(** *** When the node is part of the document *)

Lemma levels :
  reachable s d x ->
  exists k, path s k d p /\ path s (S k) d x.
Proof.
  intros HB.
  destruct (reachable_parent s d step_tree x r HB Hx x_not_root)
    as (p' & pr' & n & Hp' & Hpr' & _ & Hn & Hn').
  assert (p' = p) as E by congruence. rewrite E in Hn. eauto.
Qed.

Lemma parent_reachable : reachable s d x -> reachable s d p.
Proof. intros HB. destruct (levels HB) as (k & Hk & _). now exists k. Qed.

Lemma x_once :
  reachable s d x ->
  x ∉ take i (node_children pr) ++ drop (S i) (node_children pr).
Proof.
  intros HB. destruct (step_tree p pr (parent_reachable HB) Hp) as [Hnd _].
  rewrite (parent_children_split x i pr Hi) in Hnd.
  apply NoDup_app in Hnd as (_ & Hdisj & Hnd).
  apply NoDup_cons in Hnd as [Hx' _].
  intros H. apply elem_of_app in H as [H|H]; [|contradiction].
  apply (Hdisj x H). left.
Qed.

Lemma new_levels k c :
  path s k d p -> c ∈ new -> path s (S (S (S k))) d c.
Proof.
  intros Hk Hc. destruct Hnew as [E|(w & wr & Hw & Hwr & E)].
  - rewrite E in Hc. inversion Hc.
  - rewrite E in Hc.
    eapply path_step; [|exact Hwr|exact Hc].
    eapply path_step; [|exact Hx|exact Hw].
    eapply path_step; [exact Hk|exact Hp|exact x_child].
Qed.

Lemma x_unreachable_after : reachable s d x -> ~ reachable s' d x.
Proof.
  intros HB [n Hn]. destruct (levels HB) as (k & Hk & Hk').
  destruct n as [|n].
  - apply path_zero_inv in Hn. now apply x_not_root.
  - apply path_succ_inv in Hn as (b & rb' & Hb & Hrb' & Hin).
    destruct (edge_after s s' p i new Hsp b rb' x Hrb' Hin)
      as (rb & Hrb & [[Hin' Hmid]|[_ Hin']]).
    + assert (reachable s d b) as Rb by (apply lift; now exists n).
      destruct (step_tree b rb Rb Hrb) as [_ Hch].
      destruct (Hch x Hin') as (cr & Hcr & Hparent).
      assert (b = p) as E by congruence.
      assert (rb = pr) as E' by congruence.
      apply (x_once HB). rewrite <- E'. now apply Hmid.
    + pose proof (new_levels k x Hk Hin') as H3.
      pose proof (depth _ _ _ Hk' H3). lia.
Qed.

Lemma winner_unreachable_after w wr :
  reachable s d x -> w ∈ node_children r -> s !! w = Some wr ->
  new = node_children wr -> ~ reachable s' d w.
Proof.
  intros HB Hw Hwr E [n Hn]. destruct (levels HB) as (k & Hk & Hk').
  assert (path s (S (S k)) d w) as Hw2
    by (eapply path_step; [exact Hk'|exact Hx|exact Hw]).
  destruct n as [|n].
  - apply path_zero_inv in Hn.
    pose proof (path_here s d) as H0. rewrite Hn in H0 at 2.
    pose proof (depth _ _ _ H0 Hw2). lia.
  - apply path_succ_inv in Hn as (b & rb' & Hb & Hrb' & Hin).
    destruct (edge_after s s' p i new Hsp b rb' w Hrb' Hin)
      as (rb & Hrb & [[Hin' _]|[_ Hin']]).
    + assert (reachable s d b) as Rb by (apply lift; now exists n).
      destruct (step_tree b rb Rb Hrb) as [_ Hch].
      destruct (Hch w Hin') as (cr & Hcr & Hparent).
      destruct (step_tree x r HB Hx) as [_ Hch'].
      destruct (Hch' w Hw) as (cr' & Hcr' & Hparent').
      assert (b = x) as Eb by congruence.
      apply (x_unreachable_after HB). exists n. now rewrite <- Eb.
    + pose proof (new_levels k w Hk Hin') as H3.
      pose proof (depth _ _ _ Hw2 H3). lia.
Qed.

Lemma parent_reachable_after : reachable s d x -> reachable s' d p.
Proof.
  intros HB. destruct (levels HB) as (k & Hk & _). exists k.
  apply (path_keep s s' d p i new Hsp k p); [|exact Hk].
  intros m Hm Hpm. pose proof (depth _ _ _ Hk Hpm). lia.
Qed.

Lemma new_fresh c :
  reachable s d x -> c ∈ new ->
  c <> d /\ c ∉ take i (node_children pr) ++ drop (S i) (node_children pr).
Proof.
  intros HB Hc. destruct (levels HB) as (k & Hk & _).
  pose proof (new_levels k c Hk Hc) as H3. split.
  - intros E. pose proof (path_here s d) as H0. rewrite <- E in H0 at 2.
    pose proof (depth _ _ _ H0 H3). lia.
  - intros H. apply elem_of_take_drop in H.
    assert (path s (S k) d c) as H1
      by (eapply path_step; [exact Hk|exact Hp|exact H]).
    pose proof (depth _ _ _ H1 H3). lia.
Qed.

Lemma new_NoDup : reachable s d x -> NoDup new.
Proof.
  intros HB. destruct Hnew as [E|(w & wr & Hw & Hwr & E)]; rewrite E.
  - constructor.
  - assert (reachable s d w) as Rw
      by exact (reachable_child s d x r w HB Hx Hw).
    now destruct (step_tree w wr Rw Hwr).
Qed.

Lemma before q rq :
  s !! q = Some rq ->
  exists rq', s' !! q = Some rq'
    /\ condition rq' = condition rq
    /\ node_children rq' =
         (if decide (q = p)
          then take i (node_children rq) ++ new ++ drop (S i) (node_children rq)
          else node_children rq)
    /\ node_parent rq' = (if decide (q ∈ new) then Some p else node_parent rq).
Proof. exact (spliced_before s s' p i new Hsp q rq). Qed.

Lemma after q rq' :
  s' !! q = Some rq' ->
  exists rq, s !! q = Some rq
    /\ condition rq' = condition rq
    /\ node_children rq' =
         (if decide (q = p)
          then take i (node_children rq) ++ new ++ drop (S i) (node_children rq)
          else node_children rq)
    /\ node_parent rq' = (if decide (q ∈ new) then Some p else node_parent rq).
Proof. exact (spliced_after s s' p i new Hsp q rq'). Qed.

Lemma new_not_reachable_child q qr c :
  reachable s' d q -> s !! q = Some qr -> q <> p ->
  c ∈ node_children qr -> c ∈ new -> False.
Proof.
  intros Rq' Hq Hne Hc Hcn.
  assert (reachable s d q) as Rq by now apply lift.
  apply (by_cases (reachable s d x)).
  - intros HB. destruct Hnew as [E|(w & wr & Hw & Hwr & E)];
      [rewrite E in Hcn; inversion Hcn|].
    assert (reachable s d w) as Rw
      by exact (reachable_child s d x r w HB Hx Hw).
    destruct (step_tree w wr Rw Hwr) as [_ Hch].
    rewrite E in Hcn. destruct (Hch c Hcn) as (cr & Hcr & Hparent).
    destruct (step_tree q qr Rq Hq) as [_ Hch'].
    destruct (Hch' c Hc) as (cr' & Hcr' & Hparent').
    assert (q = w) as Eq by congruence.
    apply (winner_unreachable_after w wr HB Hw Hwr E). now rewrite <- Eq.
  - intros HA. apply (new_unreachable c HA Hcn).
    exact (reachable_child s d q qr c Rq Hq Hc).
Qed.

Lemma root_not_new : d ∉ new.
Proof.
  intros Hd. apply (by_cases (reachable s d x)).
  - intros HB. now destruct (new_fresh d HB Hd).
  - intros HA. apply (new_unreachable d HA Hd). exists 0. apply path_here.
Qed.

Lemma step_inv_root :
  exists r0, s' !! d = Some r0 /\ node_parent r0 = None /\ condition r0 = false.
Proof.
  destruct (inv_root _ _ _ Hinv) as (r0 & H0 & Hp0 & Hc0).
  destruct (before d r0 H0) as (r0' & H0' & Hc & _ & Hparent).
  exists r0'. split; [exact H0'|]. split; [|congruence].
  rewrite Hparent, decide_False by exact root_not_new. exact Hp0.
Qed.

Lemma step_inv_tree q qr' :
  reachable s' d q -> s' !! q = Some qr' ->
  NoDup (node_children qr')
  /\ forall c, c ∈ node_children qr' ->
       exists cr', s' !! c = Some cr' /\ node_parent cr' = Some q.
Proof.
  intros Rq' Hq'. destruct (after q qr' Hq') as (qr & Hq & _ & Hch & _).
  assert (reachable s d q) as Rq by now apply lift.
  destruct (step_tree q qr Rq Hq) as [Hnd Hchild].
  destruct (decide (q = p)) as [E|Hne].
  - assert (qr = pr) as E' by congruence.
    assert (reachable s d x) as HB.
    { rewrite E in Rq. exact (reachable_child s d p pr x Rq Hp x_child). }
    rewrite Hch, E'. clear Hch. rewrite E' in Hnd, Hchild.
    rewrite (parent_children_split x i pr Hi) in Hnd.
    apply NoDup_app in Hnd as (Hnd1 & Hdisj & Hnd2).
    apply NoDup_cons in Hnd2 as [_ Hnd2]. split.
    + apply NoDup_app. split; [exact Hnd1|]. split.
      * intros c Hc Hc'. apply elem_of_app in Hc' as [Hc'|Hc'].
        -- destruct (new_fresh c HB Hc') as [_ H]. apply H.
           apply elem_of_app. now left.
        -- apply (Hdisj c Hc). now right.
      * apply NoDup_app. split; [exact (new_NoDup HB)|]. split; [|exact Hnd2].
        intros c Hc Hc'. destruct (new_fresh c HB Hc) as [_ H]. apply H.
        apply elem_of_app. now right.
    + intros c Hc. destruct (decide (c ∈ new)) as [Hcn|Hcn].
      * destruct (levels HB) as (k & Hk & _).
        pose proof (new_levels k c Hk Hcn) as H3.
        apply path_succ_inv in H3 as (w & wr & Hw2 & Hwr & Hcw).
        destruct (step_tree w wr (ex_intro _ _ Hw2) Hwr) as [_ Hch'].
        destruct (Hch' c Hcw) as (cr & Hcr & _).
        destruct (before c cr Hcr) as (cr' & Hcr' & _ & _ & Hparent).
        exists cr'. split; [exact Hcr'|].
        rewrite Hparent, decide_True by exact Hcn. now rewrite E.
      * assert (c ∈ node_children pr) as Hc0.
        { apply (elem_of_take_drop i).
          rewrite !elem_of_app in Hc. rewrite elem_of_app. tauto. }
        destruct (Hchild c Hc0) as (cr & Hcr & Hparent0).
        destruct (before c cr Hcr) as (cr' & Hcr' & _ & _ & Hparent).
        exists cr'. split; [exact Hcr'|].
        now rewrite Hparent, decide_False by exact Hcn.
  - rewrite Hch. split; [exact Hnd|]. intros c Hc.
    destruct (Hchild c Hc) as (cr & Hcr & Hparent0).
    destruct (before c cr Hcr) as (cr' & Hcr' & _ & _ & Hparent).
    exists cr'. split; [exact Hcr'|]. rewrite Hparent.
    destruct (decide (c ∈ new)) as [Hcn|Hcn]; [|exact Hparent0].
    exfalso. exact (new_not_reachable_child q qr c Rq' Hq Hne Hc Hcn).
Qed.

Lemma step_inv_closed q qr' c :
  s' !! q = Some qr' -> ~ reachable s' d q -> ~ stale s' (x :: done) q ->
  c ∈ node_children qr' -> ~ reachable s' d c.
Proof.
  intros Hq' Nq' Nst Hc Rc'.
  assert (~ stale s done q) as Nst0 by (intros H; now apply Nst, stale_after).
  assert (reachable s d c) as Rc by now apply lift.
  destruct (edge_after s s' p i new Hsp q qr' c Hq' Hc)
    as (qr & Hq & [[Hc0 _]|[E Hcn]]).
  - apply (by_cases (reachable s d q)).
    + intros Rq. destruct (step_tree q qr Rq Hq) as [_ Hch].
      destruct (Hch c Hc0) as (cr & Hcr & Hparent).
      destruct Rc' as [n Hn]. destruct n as [|n].
      * apply path_zero_inv in Hn.
        destruct step_root as (r0 & H0 & Hp0). congruence.
      * apply path_succ_inv in Hn as (b & rb' & Hb & Hrb' & Hin).
        assert (reachable s' d b) as Rb' by now exists n.
        destruct (edge_after s s' p i new Hsp b rb' c Hrb' Hin)
          as (rb & Hrb & [[Hin0 _]|[Eb Hcn]]).
        -- destruct (step_tree b rb (lift b Rb') Hrb) as [_ Hch'].
           destruct (Hch' c Hin0) as (cr' & Hcr' & Hparent').
           assert (b = q) as Ebq by congruence.
           apply Nq'. now rewrite <- Ebq.
        -- assert (reachable s d x) as HB.
           { rewrite Eb in Rb'.
             exact (reachable_child s d p pr x (lift p Rb') Hp x_child). }
           destruct Hnew as [E|(w & wr & Hw & Hwr & E)];
             [rewrite E in Hcn; inversion Hcn|].
           assert (reachable s d w) as Rw
             by exact (reachable_child s d x r w HB Hx Hw).
           destruct (step_tree w wr Rw Hwr) as [_ Hch'].
           rewrite E in Hcn. destruct (Hch' c Hcn) as (cr' & Hcr' & Hparent').
           assert (q = w) as Eqw by congruence.
           apply Nst. destruct (before x r Hx) as (r' & Hr' & _ & Hchx & _).
           rewrite decide_False in Hchx by exact x_not_parent.
           exists x, r'. split; [left|]. split; [exact Hr'|].
           rewrite Hchx, Eqw. exact Hw.
    + intros Nq. exact (inv_closed _ _ _ Hinv q qr c Hq Nq Nst0 Hc0 Rc).
  - apply (by_cases (reachable s d x)).
    + intros HB. apply Nq'. rewrite E. exact (parent_reachable_after HB).
    + intros HA. exact (new_unreachable c HA Hcn Rc).
Qed.

Lemma bundle_not_parent z zr : s !! z = Some zr -> condition zr = true -> z <> p.
Proof.
  intros Hz Hc E. assert (zr = pr) as E' by congruence.
  pose proof parent_not_bundle. congruence.
Qed.

Lemma step_inv_bundle_children z zr' c cr' :
  s' !! z = Some zr' -> condition zr' = true ->
  c ∈ node_children zr' -> s' !! c = Some cr' -> condition cr' = false.
Proof.
  intros Hz' Hcz Hc Hcr'.
  destruct (after z zr' Hz') as (zr & Hz & Hcond & Hch & _).
  destruct (after c cr' Hcr') as (cr & Hcr & Hcond' & _).
  rewrite Hcond in Hcz.
  rewrite decide_False in Hch by (eapply bundle_not_parent; eassumption).
  rewrite Hcond'. rewrite Hch in Hc.
  exact (inv_bundle_children _ _ _ Hinv z zr c cr Hz Hcz Hc Hcr).
Qed.

Lemma step_inv_bundle_disjoint a ar' b br' c :
  s' !! a = Some ar' -> s' !! b = Some br' ->
  condition ar' = true -> condition br' = true ->
  c ∈ node_children ar' -> c ∈ node_children br' -> a = b.
Proof.
  intros Ha' Hb' Hca Hcb Hc1 Hc2.
  destruct (after a ar' Ha') as (ar & Ha & Hcond1 & Hch1 & _).
  destruct (after b br' Hb') as (br & Hb & Hcond2 & Hch2 & _).
  rewrite Hcond1 in Hca. rewrite Hcond2 in Hcb.
  rewrite decide_False in Hch1 by (eapply bundle_not_parent; eassumption).
  rewrite decide_False in Hch2 by (eapply bundle_not_parent; eassumption).
  rewrite Hch1 in Hc1. rewrite Hch2 in Hc2.
  exact (inv_bundle_disjoint _ _ _ Hinv a ar b br c Ha Hb Hca Hcb Hc1 Hc2).
Qed.

Lemma step_inv_done y :
  y ∈ x :: done ->
  ~ reachable s' d y /\ exists yr, s' !! y = Some yr /\ condition yr = true.
Proof.
  intros Hy. apply elem_of_cons in Hy as [E|Hy].
  - split.
    + intros R'. rewrite E in R'. apply (by_cases (reachable s d x)).
      * intros HB. exact (x_unreachable_after HB R').
      * intros HA. exact (HA (lift x R')).
    + destruct (before x r Hx) as (r' & Hr' & Hcond & _).
      exists r'. rewrite E. split; [exact Hr'|congruence].
  - destruct (inv_done _ _ _ Hinv y Hy) as (Ny & yr & Hyr & Hc). split.
    + intros R'. exact (Ny (lift y R')).
    + destruct (before y yr Hyr) as (yr' & Hyr' & Hcond & _).
      exists yr'. split; [exact Hyr'|congruence].
Qed.

(** The loop keeps the document a tree in which no node already dealt
    with is left. *)
Lemma step_inv : inv s' d (x :: done).
Proof.
  constructor.
  - exact step_inv_root.
  - exact step_inv_tree.
  - exact step_inv_closed.
  - exact step_inv_bundle_children.
  - exact step_inv_bundle_disjoint.
  - exact step_inv_done.
Qed.

End StepFacts.

(** ** The whole loop *)

Section LoopFacts.
Import Doctree Docutils SelectMimeType Shape.

Variable DEFAULT_LOG_TYPE : string.
Variable py_repr : value -> string.
Variable bname : string.

Let process := process DEFAULT_LOG_TYPE py_repr bname.
Let process_all := process_all DEFAULT_LOG_TYPE py_repr bname.

Lemma parent_remove_inv (s s' : store) x r :
  s !! x = Some r -> parent_remove s x = Ok s' ->
  exists p pr i,
    node_parent r = Some p /\ s !! p = Some pr
    /\ index_of x (node_children pr) = Some i /\ spliced s s' p i [].
Proof.
  intros Hx. unfold parent_remove, deref. rewrite Hx. cbn.
  destruct (node_parent r) as [p|] eqn:Hp; [|discriminate].
  destruct (s !! p) as [pr|] eqn:Hpr; [|discriminate]. cbn.
  destruct (index_of x (node_children pr)) as [i|] eqn:Hi; [|discriminate].
  intros H. exists p, pr, i. repeat split; try assumption.
  destruct (parent_remove_spliced s x r p pr i Hx Hp Hpr Hi) as (s2 & H2 & Hsp).
  unfold parent_remove, deref in H2. rewrite Hx in H2. cbn in H2.
  rewrite Hp, Hpr in H2. cbn in H2. rewrite Hi in H2.
  assert (s2 = s') as <- by congruence. exact Hsp.
Qed.

Lemma replace_self_inv (s s' : store) x r new :
  s !! x = Some r -> replace_self s x new = Ok s' ->
  exists p pr i,
    node_parent r = Some p /\ s !! p = Some pr
    /\ index_of x (node_children pr) = Some i /\ spliced s s' p i new.
Proof. apply replace_self_shape. Qed.

(** What a step that completes has done. *)
Lemma process_inv prio (s s' : store) log log' x :
  process prio (s, log) x = Ok (s', log') ->
  exists r p pr i new,
    s !! x = Some r /\ node_parent r = Some p /\ s !! p = Some pr
    /\ index_of x (node_children pr) = Some i
    /\ spliced s s' p i new
    /\ (new = [] \/ exists w wr, w ∈ node_children r /\ s !! w = Some wr
                                 /\ new = node_children wr).
Proof.
  unfold process, SelectMimeType.process, deref.
  destruct (s !! x) as [r|] eqn:Hx; [|discriminate]. cbn.
  destruct (child_mime_types s (node_children r)) as [mts|]; [|discriminate].
  cbn.
  assert (forall l1 : list warning,
            (s1 ← parent_remove s x; Ok (s1, l1)) = Ok (s', log') ->
            exists p pr i new,
              node_parent r = Some p /\ s !! p = Some pr
              /\ index_of x (node_children pr) = Some i
              /\ spliced s s' p i new
              /\ (new = [] \/ exists w wr, w ∈ node_children r /\ s !! w = Some wr
                                           /\ new = node_children wr)) as Hrem.
  { intros l1 H. destruct (parent_remove s x) as [s1|] eqn:E; [|discriminate].
    cbn in H. injection H as <- _.
    destruct (parent_remove_inv s s1 x r Hx E) as (p & pr & i & H1 & H2 & H3 & H4).
    exists p, pr, i, []. repeat split; try assumption. now left. }
  intros H.
  assert (exists p pr i new,
            node_parent r = Some p /\ s !! p = Some pr
            /\ index_of x (node_children pr) = Some i
            /\ spliced s s' p i new
            /\ (new = [] \/ exists w wr, w ∈ node_children r /\ s !! w = Some wr
                                         /\ new = node_children wr))
    as (p & pr & i & new & H1); [|exists r, p, pr, i, new; tauto].
  destruct mts as [|m mts]; [exact (Hrem log H)|].
  destruct (select_index prio (m :: mts)) as [idx|]; [|exact (Hrem _ H)].
  destruct (node_children r !! idx) as [w|] eqn:Hw; [|discriminate].
  destruct (s !! w) as [wr|] eqn:Hwr; [|discriminate]. cbn in H.
  destruct (node_children wr) as [|c cs] eqn:Ecs; [exact (Hrem log H)|].
  destruct (replace_self s x (c :: cs)) as [s1|] eqn:E; [|discriminate].
  cbn in H. injection H as <- _.
  destruct (replace_self_inv s s1 x r _ Hx E) as (p & pr & i & H1 & H2 & H3 & H4).
  exists p, pr, i, (c :: cs). repeat split; try assumption.
  right. exists w, wr. repeat split; [|exact Hwr|now rewrite Ecs].
  eapply list_elem_of_lookup_2, Hw.
Qed.

(** The loop over nodes that are pairwise distinct keeps the document a
    tree, deals with every node of the list, and only ever shortens the
    ways down from the root. *)
Lemma process_all_inv prio d : forall l (s s1 : store) log log1 done,
  process_all prio l (s, log) = Ok (s1, log1) ->
  inv s d done ->
  NoDup l ->
  (forall x, x ∈ l -> x ∉ done) ->
  (forall x, x ∈ l -> exists r, s !! x = Some r /\ condition r = true) ->
  inv s1 d (rev l ++ done)
  /\ (forall n j, path s1 n d j -> exists m, n <= m /\ path s m d j)
  /\ (forall q, is_Some (s1 !! q) <-> is_Some (s !! q))
  /\ (forall q r1 r, s1 !! q = Some r1 -> s !! q = Some r ->
        condition r1 = condition r).
Proof.
  induction l as [|x l IH]; intros s s1 log log1 done Hrun Hinv Hnd Hfresh Hb.
  - cbn in Hrun. assert (s1 = s) as -> by congruence.
    cbn. split; [exact Hinv|].
    split; [intros n j H; exists n; split; [lia|exact H]|].
    split; [tauto|]. intros q r1 r H1 H2. congruence.
  - change ((st' ← process prio (s, log) x; process_all prio l st')
            = Ok (s1, log1)) in Hrun.
    destruct (process prio (s, log) x) as [[s2 log2]|] eqn:Estep; [|discriminate].
    change (process_all prio l (s2, log2) = Ok (s1, log1)) in Hrun.
    destruct (process_inv _ _ _ _ _ _ Estep)
      as (r & p & pr & i & new & Hx & Hpar & Hp & Hi & Hsp & Hnew).
    destruct (Hb x) as (r' & Hr' & Hc); [left|].
    assert (r' = r) as -> by congruence.
    apply NoDup_cons in Hnd as [Hxl Hnd].
    assert (inv s2 d (x :: done)) as Hinv2.
    { eapply (step_inv s s2 d x p i r pr new done); try eassumption.
      apply Hfresh. left. }
    destruct (IH s2 s1 log2 log1 (x :: done) Hrun Hinv2 Hnd)
      as (Hinv1 & Hpath & Hdom & Hcond).
    + intros y Hy Hy'. apply elem_of_cons in Hy' as [->|Hy'];
        [contradiction|]. apply (Hfresh y); [now right|exact Hy'].
    + intros y Hy. destruct (Hb y) as (ry & Hry & Hcy); [now right|].
      destruct (spliced_before s s2 p i new Hsp y ry Hry) as (ry' & Hry' & Hc' & _).
      exists ry'. split; [exact Hry'|congruence].
    + split; [|split; [|split]].
      * cbn [rev]. now rewrite <- app_assoc.
      * intros n j Hn. destruct (Hpath n j Hn) as (m & Hle & Hm).
        destruct (path_lift s s2 d x p i r pr new Hx Hp Hi Hsp Hnew m j Hm)
          as (m' & Hle' & Hm').
        exists m'. split; [lia|exact Hm'].
      * intros q. rewrite Hdom. split.
        -- intros [rq' Hq'].
           destruct (spliced_after s s2 p i new Hsp q rq' Hq') as (rq & Hq & _).
           eauto.
        -- intros [rq Hq].
           destruct (spliced_before s s2 p i new Hsp q rq Hq) as (rq' & Hq' & _).
           eauto.
      * intros q r1 rq H1 Hq.
        destruct (spliced_before s s2 p i new Hsp q rq Hq) as (rq' & Hq' & Hc' & _).
        rewrite (Hcond q r1 rq' H1 Hq'). exact Hc'.
Qed.

End LoopFacts.

(** ** Well-formed documents *)

Section WellFormedFacts.
Import Doctree Docutils SelectMimeType Shape.

Lemma well_formed_root (s : store) d :
  well_formed s d = true ->
  exists r0, s !! d = Some r0 /\ node_parent r0 = None /\ condition r0 = false.
Proof.
  unfold well_formed. intros H. apply andb_prop in H as [H _].
  destruct (s !! d) as [r0|]; [|discriminate].
  apply andb_prop in H as [H1 H2]. apply bool_decide_eq_true in H1.
  apply negb_true_iff in H2. eauto.
Qed.

Lemma well_formed_node (s : store) d q qr :
  well_formed s d = true -> s !! q = Some qr ->
  NoDup (node_children qr)
  /\ forall c, c ∈ node_children qr ->
       exists cr, s !! c = Some cr /\ node_parent cr = Some q
                  /\ (condition qr = true -> condition cr = false).
Proof.
  unfold well_formed. intros H Hq. apply andb_prop in H as [_ H].
  rewrite forallb_forall in H.
  assert (node_ok s q qr = true) as Hok.
  { apply (H (q, qr)). apply list_elem_of_In. now apply elem_of_map_to_list. }
  unfold node_ok in Hok. apply andb_prop in Hok as [H1 H2].
  apply bool_decide_eq_true in H1. split; [exact H1|].
  rewrite forallb_forall in H2. intros c Hc.
  specialize (H2 c (proj1 (list_elem_of_In _ _) Hc)).
  unfold child_ok in H2. destruct (s !! c) as [cr|]; [|discriminate].
  apply andb_prop in H2 as [H2 H3]. apply bool_decide_eq_true in H2.
  exists cr. repeat split; [exact H2|].
  intros Hc'. rewrite Hc' in H3. now destruct (condition cr).
Qed.

Lemma well_formed_tree (s : store) d :
  well_formed s d = true ->
  forall q qr, reachable s d q -> s !! q = Some qr ->
    NoDup (node_children qr)
    /\ forall c, c ∈ node_children qr ->
         exists cr, s !! c = Some cr /\ node_parent cr = Some q.
Proof.
  intros H q qr _ Hq. destruct (well_formed_node s d q qr H Hq) as [H1 H2].
  split; [exact H1|]. intros c Hc.
  destruct (H2 c Hc) as (cr & ? & ? & _). eauto.
Qed.

(** A well-formed document satisfies what the loop keeps true, before any
    node has been dealt with. *)
Lemma well_formed_inv (s : store) d : well_formed s d = true -> inv s d [].
Proof.
  intros H. constructor.
  - exact (well_formed_root s d H).
  - exact (well_formed_tree s d H).
  - intros q qr c Hq Nq _ Hc [n Hn].
    destruct (well_formed_node s d q qr H Hq) as [_ Hch].
    destruct (Hch c Hc) as (cr & Hcr & Hpar & _).
    destruct n as [|n].
    + apply path_zero_inv in Hn.
      destruct (well_formed_root s d H) as (r0 & H0 & Hp0 & _). congruence.
    + apply path_succ_inv in Hn as (b & rb & Hb & Hrb & Hin).
      destruct (well_formed_node s d b rb H Hrb) as [_ Hch'].
      destruct (Hch' c Hin) as (cr' & Hcr' & Hpar' & _).
      assert (b = q) as E by congruence. apply Nq. exists n. now rewrite <- E.
  - intros z zr c cr Hz Hcz Hc Hcr.
    destruct (well_formed_node s d z zr H Hz) as [_ Hch].
    destruct (Hch c Hc) as (cr' & Hcr' & _ & Hcond).
    assert (cr' = cr) as <- by congruence. now apply Hcond.
  - intros x xr y yr c Hx Hy _ _ Hc1 Hc2.
    destruct (well_formed_node s d x xr H Hx) as [_ Hch1].
    destruct (Hch1 c Hc1) as (cr1 & Hcr1 & Hp1 & _).
    destruct (well_formed_node s d y yr H Hy) as [_ Hch2].
    destruct (Hch2 c Hc2) as (cr2 & Hcr2 & Hp2 & _).
    congruence.
  - intros y Hy. inversion Hy.
Qed.

End WellFormedFacts.

Section WellFormedTraversal.
Import Doctree Docutils SelectMimeType Shape.

Variables (s : store) (d : nat).
Hypothesis Hwf : well_formed s d = true.

Lemma wf_root : exists r0, s !! d = Some r0 /\ node_parent r0 = None.
Proof. destruct (well_formed_root s d Hwf) as (r0 & ? & ? & _). eauto. Qed.

Lemma wf_depth n a m : path s n d a -> path s m d a -> n = m.
Proof.
  intros H1 H2.
  exact (depth_unique s d wf_root (well_formed_tree s d Hwf) n a H1 m H2).
Qed.

(** Two nodes from which the same node is found the same number of levels
    down are one node. *)
Lemma same_source n : forall a b y, path s n a y -> path s n b y -> a = b.
Proof.
  induction n as [|n IH]; intros a b y Ha Hb.
  - apply path_zero_inv in Ha, Hb. congruence.
  - apply path_succ_inv in Ha as (a' & ra & Ha & Hra & Hya).
    apply path_succ_inv in Hb as (b' & rb & Hb & Hrb & Hyb).
    destruct (well_formed_node s d a' ra Hwf Hra) as [_ H1].
    destruct (H1 y Hya) as (cr1 & Hc1 & Hp1 & _).
    destruct (well_formed_node s d b' rb Hwf Hrb) as [_ H2].
    destruct (H2 y Hyb) as (cr2 & Hc2 & Hp2 & _).
    assert (a' = b') as E by congruence. rewrite E in Ha.
    exact (IH a b b' Ha Hb).
Qed.

(** The nodes on the way down to a node are distinct nodes of the table,
    so the way is shorter than the table. *)
Lemma path_nodes n j :
  path s n d j ->
  exists l, length l = S n /\ NoDup l
            /\ (forall y, y ∈ l -> exists m, m <= n /\ path s m d y)
            /\ (forall y, y ∈ l -> is_Some (s !! y)).
Proof.
  revert j. induction n as [|n IH]; intros j Hp.
  - apply path_zero_inv in Hp as <-.
    exists [d]. split; [reflexivity|]. split; [apply NoDup_singleton|].
    split; intros y Hy; apply list_elem_of_singleton in Hy as ->.
    + exists 0. split; [lia|apply path_here].
    + destruct wf_root as (r0 & -> & _). eauto.
  - pose proof Hp as Hj.
    apply path_succ_inv in Hp as (b & rb & Hb & Hrb & Hin).
    destruct (IH b Hb) as (l & Hlen & Hnd & Hlev & Hdom).
    exists (j :: l). split; [cbn; now rewrite Hlen|]. split.
    + apply NoDup_cons. split; [|exact Hnd].
      intros Hjl. destruct (Hlev j Hjl) as (m & Hle & Hm).
      pose proof (wf_depth _ _ _ Hm Hj). lia.
    + split; intros y Hy; apply elem_of_cons in Hy as [->|Hy].
      * exists (S n). split; [lia|exact Hj].
      * destruct (Hlev y Hy) as (m & Hle & Hm). exists m. split; [lia|exact Hm].
      * destruct (well_formed_node s d b rb Hwf Hrb) as [_ Hch].
        destruct (Hch j Hin) as (cr & -> & _). eauto.
      * now apply Hdom.
Qed.

Lemma path_bound n j : path s n d j -> n < size s /\ is_Some (s !! j).
Proof.
  intros Hp. split.
  - destruct (path_nodes n j Hp) as (l & Hlen & Hnd & Hlev & Hdom).
    assert (length l <= size s) as Hle; [|lia].
    rewrite <- length_map_to_list, <- (length_fmap fst).
    apply submseteq_length, NoDup_submseteq; [exact Hnd|].
    intros y Hy. destruct (Hdom y Hy) as [ry Hry].
    apply list_elem_of_fmap. exists (y, ry). split; [reflexivity|].
    now apply elem_of_map_to_list.
  - destruct n as [|n].
    + apply path_zero_inv in Hp as <-.
      destruct wf_root as (r0 & -> & _). eauto.
    + apply path_succ_inv in Hp as (b & rb & Hb & Hrb & Hin).
      destruct (well_formed_node s d b rb Hwf Hrb) as [_ Hch].
      destruct (Hch j Hin) as (cr & -> & _). eauto.
Qed.

(** On a well-formed document the traversal completes, within the depth
    allowed by [run]. *)
Lemma traverse_total :
  exists l, traverse condition (S (size s)) s d = Ok l.
Proof.
  apply traverse_succeeds. intros n x Hp.
  destruct (path_bound n x Hp) as [Hlt Hx]. split; [lia|exact Hx].
Qed.

Lemma traverse_list_NoDup fuel i r k :
  (forall c k l, path s k d c -> traverse condition fuel s c = Ok l -> NoDup l) ->
  path s k d i -> s !! i = Some r ->
  forall cs rest,
    NoDup cs -> (forall c, c ∈ cs -> c ∈ node_children r) ->
    traverse_list condition fuel s cs = Ok rest ->
    NoDup rest /\ forall y, y ∈ rest -> exists c n, c ∈ cs /\ path s n c y.
Proof.
  intros IH Hk Hi. induction cs as [|c cs IHcs]; intros rest Hnd Hsub Er;
    cbn in Er.
  - injection Er as <-. split; [constructor|]. intros y Hy. inversion Hy.
  - destruct (traverse condition fuel s c) as [l1|] eqn:E1; [|discriminate].
    cbn in Er. fold (traverse_list condition fuel s cs) in Er.
    destruct (traverse_list condition fuel s cs) as [l2|] eqn:E2;
      [|discriminate].
    cbn in Er. injection Er as <-.
    apply NoDup_cons in Hnd as [Hc Hnd].
    destruct (IHcs l2 Hnd) as [Hnd2 Hb2];
      [intros c' Hc'; apply Hsub; now right|reflexivity|].
    assert (path s (S k) d c) as Hkc
      by (eapply path_step; [exact Hk|exact Hi|apply Hsub; left]).
    pose proof (IH c (S k) l1 Hkc E1) as Hnd1.
    split.
    + apply NoDup_app. split; [exact Hnd1|]. split; [|exact Hnd2].
      intros y Hy1 Hy2.
      apply (traverse_elem condition fuel s c l1 E1) in Hy1
        as (n1 & _ & Hn1 & _).
      destruct (Hb2 y Hy2) as (c' & n2 & Hc' & Hn2).
      assert (path s (S k) d c') as Hkc'
        by (eapply path_step; [exact Hk|exact Hi|apply Hsub; now right]).
      pose proof (path_trans s _ _ _ _ _ Hkc Hn1) as H1.
      pose proof (path_trans s _ _ _ _ _ Hkc' Hn2) as H2.
      pose proof (wf_depth _ _ _ H1 H2) as E.
      assert (n1 = n2) as En by lia. rewrite <- En in Hn2.
      pose proof (same_source n1 c c' y Hn1 Hn2) as Ec.
      apply Hc. now rewrite Ec.
    + intros y Hy. apply elem_of_app in Hy as [Hy|Hy].
      * apply (traverse_elem condition fuel s c l1 E1) in Hy
          as (n1 & _ & Hn1 & _).
        exists c, n1. split; [left|exact Hn1].
      * destruct (Hb2 y Hy) as (c' & n2 & Hc' & Hn2).
        exists c', n2. split; [now right|exact Hn2].
Qed.

(** ... and meets every node once. *)
Lemma traverse_NoDup fuel : forall i k l,
  path s k d i -> traverse condition fuel s i = Ok l -> NoDup l.
Proof.
  induction fuel as [|fuel IH]; intros i k l Hk; [discriminate|].
  rewrite traverse_unfold. unfold deref.
  destruct (s !! i) as [r|] eqn:Hi; [|discriminate]. cbn.
  destruct (traverse_list condition fuel s (node_children r)) as [rest|] eqn:Er;
    [|discriminate]. cbn. intros [= <-].
  destruct (well_formed_node s d i r Hwf Hi) as [Hnd _].
  destruct (traverse_list_NoDup fuel i r k IH Hk Hi (node_children r) rest
              Hnd (fun c H => H) Er) as [Hrest Hbelow].
  destruct (condition r); [|exact Hrest].
  apply NoDup_cons. split; [|exact Hrest].
  intros Hin. destruct (Hbelow i Hin) as (c & n & Hc & Hn).
  assert (path s (S k) d c) as Hkc
    by (eapply path_step; [exact Hk|exact Hi|exact Hc]).
  pose proof (path_trans s _ _ _ _ _ Hkc Hn) as H1.
  pose proof (wf_depth _ _ _ Hk H1). lia.
Qed.

End WellFormedTraversal.

(** ** Running the transform twice *)

Section RunFacts.
Import Doctree Docutils SelectMimeType Shape.

Variable get_mime_priority : string -> value -> list string.
Variable DEFAULT_LOG_TYPE : string.
Variable py_repr : value -> string.
Variable bname : string.
Variable overrides : value.
Variable document : nat.

Let run := run get_mime_priority DEFAULT_LOG_TYPE py_repr bname overrides document.

Lemma same_size (s1 s : store) :
  (forall q, is_Some (s1 !! q) <-> is_Some (s !! q)) -> size s1 = size s.
Proof.
  intros H. rewrite <- !(size_dom (D := gset nat)). f_equal.
  apply set_eq. intros q. rewrite !elem_of_dom. apply H.
Qed.

Lemma run_no_candidates (s : store) l :
  traverse condition (S (size s)) s document = Ok l ->
  (forall x, x ∈ l -> False) ->
  run s = Ok (s, []).
Proof.
  intros Ht Hl. unfold run, SelectMimeType.run. rewrite Ht. cbn.
  destruct l as [|x l]; [reflexivity|]. exfalso. apply (Hl x). left.
Qed.

(** C7.  On a well-formed document: if no node of the document is a mime
    bundle, the transform returns the document as it is and logs nothing;
    and whenever the transform completes, no mime bundle is left in the
    document, so that running it again on the result changes nothing and
    logs nothing. *)
Theorem run_idempotent (s : store) :
  well_formed s document = true ->
  ((forall i r, reachable s document i -> s !! i = Some r ->
      condition r = false) ->
   run s = Ok (s, []))
  /\ (forall s1 log, run s = Ok (s1, log) ->
        (forall i r, reachable s1 document i -> s1 !! i = Some r ->
           condition r = false)
        /\ run s1 = Ok (s1, [])).
Proof.
  intros Hwf. destruct (traverse_total s document Hwf) as [l Hl]. split.
  - intros Hnone. apply (run_no_candidates s l Hl).
    intros x Hx. apply (traverse_elem condition _ s document l Hl) in Hx
      as (n & xr & Hn & Hxr & Hc).
    rewrite (Hnone x xr (ex_intro _ n Hn) Hxr) in Hc. discriminate.
  - intros s1 log Hrun. unfold run, SelectMimeType.run in Hrun.
    rewrite Hl in Hrun. cbn in Hrun.
    destruct (process_all_inv DEFAULT_LOG_TYPE py_repr bname
                (get_mime_priority bname overrides) document
                l s s1 [] log [] Hrun (well_formed_inv s document Hwf))
      as (Hinv & Hlift & Hdom & Hcond).
    { apply (traverse_NoDup s document Hwf _ document 0 l (path_here _ _) Hl). }
    { intros x _ Hx. inversion Hx. }
    { intros x Hx. apply (traverse_elem condition _ s document l Hl) in Hx
        as (n & xr & _ & Hxr & Hc). eauto. }
    assert (forall i r, reachable s1 document i -> s1 !! i = Some r ->
              condition r = false) as Hclean.
    { intros i r [n Hn] Hi. destruct (condition r) eqn:Hc; [|reflexivity].
      exfalso. destruct (Hlift n i Hn) as (m & _ & Hm).
      destruct (proj1 (Hdom i) (ex_intro _ r Hi)) as [r0 Hr0].
      assert (i ∈ l) as Hil.
      { apply (traverse_elem condition _ s document l Hl).
        exists m, r0. repeat split; [exact Hm|exact Hr0|].
        rewrite <- (Hcond i r r0 Hi Hr0). exact Hc. }
      destruct (inv_done _ _ _ Hinv i) as [Hunreach _].
      - apply elem_of_app. left. apply list_elem_of_In.
        apply (proj1 (in_rev l i)). now apply list_elem_of_In.
      - apply Hunreach. now exists n. }
    split; [exact Hclean|].
    destruct (traverse_succeeds condition (S (size s1)) s1 document) as [l1 Hl1].
    { intros n x Hn. destruct (Hlift n x Hn) as (m & Hle & Hm).
      destruct (path_bound s document Hwf m x Hm) as [Hlt Hx].
      rewrite (same_size s1 s Hdom). split; [lia|now apply Hdom]. }
    apply (run_no_candidates s1 l1 Hl1).
    intros x Hx. apply (traverse_elem condition _ s1 document l1 Hl1) in Hx
      as (n & xr & Hn & Hxr & Hc).
    rewrite (Hclean x xr (ex_intro _ n Hn) Hxr) in Hc. discriminate.
Qed.

End RunFacts.

(** ** The resolver at a concrete document *)

Section ResolverExamples.
Import Doctree Docutils SelectMimeType Shape Examples.

Lemma run_idempotent_witness :
  exists s1 log,
    run0 store0 = Ok (s1, log)
    /\ node_children (node_of s1 0) = [1; 7; 10]
    /\ List.length log = 1
    /\ run0 s1 = Ok (s1, []).
Proof.
  destruct (run0 store0) as [[s1 log]|e] eqn:E.
  - exists s1, log. split; [reflexivity|].
    assert (well_formed store0 0 = true) as Hwf by (vm_compute; reflexivity).
    destruct (run_idempotent priority0 "mystnb" repr0 "html" VNone 0
                store0 Hwf) as [_ H].
    destruct (H s1 log E) as [_ H2].
    split; [|split; [|exact H2]].
    + vm_compute in E. injection E as <- _. vm_compute. reflexivity.
    + vm_compute in E. injection E as _ <-. reflexivity.
  - vm_compute in E. discriminate E.
Defined.

(** The hypothesis on the shape of the document is needed: when a mime
    bundle is directly the child of a mime bundle, the inner one is dealt
    with after its children have moved up, their parent pointers are
    redirected to a node that has left the document, and a mime bundle
    stays behind; a second run then fails to find it under its parent. *)
Remark run_twice_outside_shape :
  well_formed store_odd 0 = false
  /\ run0 store_odd = Ok (store_odd1, [])
  /\ reachable store_odd1 0 4
  /\ condition (node_of store_odd1 4) = true
  /\ run0 store_odd1 = Raise ValueError.
Proof.
  split; [vm_compute; reflexivity|].
  split; [vm_compute; reflexivity|].
  split; [|split; vm_compute; reflexivity].
  exists 2.
  apply (path_step store_odd1 1 0 3 (node_of store_odd1 3) 4);
    [|vm_compute; reflexivity|vm_compute; constructor].
  apply (path_step store_odd1 0 0 0 (node_of store_odd1 0) 3);
    [apply path_here|vm_compute; reflexivity|vm_compute; constructor].
Qed.

End ResolverExamples.

(** ** The metadata store: reading back what was stored *)

Section StoreFacts.
Import Collector.

Lemma ensure_metadata_set_doc_data env docname key v :
  ensure_metadata (set_doc_data env docname key v) =
    <[docname := dict_set (default [] (ensure_metadata env !! docname)) key v]>
      (ensure_metadata env).
Proof. reflexivity. Qed.

Lemma doc_entry_fst env d :
  fst (doc_entry env d) = default [] (ensure_metadata env !! d).
Proof.
  unfold doc_entry, get_doc_data.
  destruct (defaultdict_getitem (ensure_metadata env) d) as [e m'] eqn:E.
  simpl. pose proof (defaultdict_getitem_spec (ensure_metadata env) d) as [H _].
  rewrite E in H. exact H.
Qed.

Lemma doc_entry_snd env d :
  ensure_metadata (snd (doc_entry env d)) =
    snd (defaultdict_getitem (ensure_metadata env) d)
  /\ nb_new_exec_data (snd (doc_entry env d)) = nb_new_exec_data env.
Proof.
  unfold doc_entry, get_doc_data.
  destruct (defaultdict_getitem (ensure_metadata env) d) as [e m'] eqn:E.
  simpl. split; reflexivity.
Qed.

Lemma get_exec_data_fst env d :
  fst (get_exec_data env d) =
    default VNone (dict_get (default [] (ensure_metadata env !! d)) "exec_data").
Proof.
  unfold get_exec_data. rewrite <- doc_entry_fst.
  destruct (doc_entry env d); reflexivity.
Qed.

Lemma get_js_files_fst env d :
  fst (get_js_files env d) =
    default (VDict []) (dict_get (default [] (ensure_metadata env !! d)) "js_files").
Proof.
  unfold get_js_files. rewrite <- doc_entry_fst.
  destruct (doc_entry env d); reflexivity.
Qed.

Lemma get_exec_data_snd env d :
  snd (get_exec_data env d) = snd (doc_entry env d).
Proof. unfold get_exec_data. destruct (doc_entry env d); reflexivity. Qed.

Lemma get_js_files_snd env d :
  snd (get_js_files env d) = snd (doc_entry env d).
Proof. unfold get_js_files. destruct (doc_entry env d); reflexivity. Qed.

Lemma entry_after_set env docname key v d k :
  dict_get (fst (doc_entry (set_doc_data env docname key v) d)) k =
    if decide (d = docname) then
      if String.eqb key k then Some v
      else dict_get (fst (doc_entry env docname)) k
    else dict_get (fst (doc_entry env d)) k.
Proof.
  rewrite !doc_entry_fst, ensure_metadata_set_doc_data.
  destruct (decide (d = docname)) as [->|Hne].
  - rewrite lookup_insert_eq. simpl. apply dict_get_set.
  - rewrite lookup_insert_ne by congruence. reflexivity.
Qed.

(** X1.  [set_doc_data] followed by a lookup: the key of the document holds
    the value stored, every other key of every document reads as before,
    and the execution flag is not touched. *)
Theorem set_doc_data_lookup env docname key v :
  (forall d k,
     dict_get (fst (doc_entry (set_doc_data env docname key v) d)) k =
       if decide (d = docname) then
         if String.eqb key k then Some v
         else dict_get (fst (doc_entry env docname)) k
       else dict_get (fst (doc_entry env d)) k)
  /\ new_exec_data (set_doc_data env docname key v) = new_exec_data env.
Proof.
  split; [|reflexivity].
  intros d k. apply entry_after_set.
Qed.

(** X2.  Execution data round trip: what [set_exec_data] stored for a
    document is what [get_exec_data] returns, and that read changes nothing;
    the flag for new execution data is raised; the execution data of the
    other documents and the registered JavaScript files of all documents
    are as before. *)
Theorem exec_data_round_trip env docname v :
  get_exec_data (set_exec_data env docname v) docname
    = (v, set_exec_data env docname v)
  /\ new_exec_data (set_exec_data env docname v) = true
  /\ (forall d, d <> docname ->
        fst (get_exec_data (set_exec_data env docname v) d)
          = fst (get_exec_data env d))
  /\ (forall d, fst (get_js_files (set_exec_data env docname v) d)
                  = fst (get_js_files env d)).
Proof.
  split; [|split; [reflexivity|split]].
  - unfold get_exec_data, doc_entry, get_doc_data, set_exec_data,
      note_exec_update, set_doc_data, defaultdict_getitem.
    set (m0 := ensure_metadata env). unfold ensure_metadata. simpl.
    rewrite lookup_insert_eq. simpl.
    rewrite dict_get_set. simpl. reflexivity.
  - intros d Hne. rewrite !get_exec_data_fst.
    unfold set_exec_data, note_exec_update, set_doc_data, ensure_metadata.
    simpl. rewrite lookup_insert_ne by congruence. reflexivity.
  - intros d. rewrite !get_js_files_fst.
    unfold set_exec_data, note_exec_update, set_doc_data, ensure_metadata.
    simpl. destruct (decide (d = docname)) as [->|Hne].
    + rewrite lookup_insert_eq. simpl. rewrite dict_get_set. reflexivity.
    + rewrite lookup_insert_ne by congruence. reflexivity.
Qed.

(** X3.  Reading is not free of effects: [get_exec_data] and [get_js_files]
    index a [defaultdict], so after the read the document has an entry (an
    empty one when it had none); nothing else changes, and reading again
    gives the same answer and changes nothing more. *)
Theorem read_materialises_entry env docname :
  ensure_metadata (snd (get_exec_data env docname)) !! docname
    = Some (default [] (ensure_metadata env !! docname))
  /\ (forall d, d <> docname ->
        ensure_metadata (snd (get_exec_data env docname)) !! d
          = ensure_metadata env !! d)
  /\ new_exec_data (snd (get_exec_data env docname)) = new_exec_data env
  /\ snd (get_js_files env docname) = snd (get_exec_data env docname)
  /\ get_exec_data (snd (get_exec_data env docname)) docname
       = get_exec_data env docname
  /\ get_js_files (snd (get_exec_data env docname)) docname
       = (fst (get_js_files env docname), snd (get_exec_data env docname)).
Proof.
  rewrite get_js_files_snd, get_exec_data_snd.
  destruct (doc_entry_snd env docname) as [Hm Hf].
  pose proof (defaultdict_getitem_spec (ensure_metadata env) docname) as [_ Hl].
  split; [|split; [|split; [|split; [|split]]]].
  - rewrite Hm, Hl. rewrite decide_True by reflexivity. reflexivity.
  - intros d Hne. rewrite Hm, Hl. rewrite decide_False by exact Hne. reflexivity.
  - unfold new_exec_data. rewrite Hf. reflexivity.
  - reflexivity.
  - unfold get_exec_data, doc_entry, get_doc_data, defaultdict_getitem.
    set (m := ensure_metadata env).
    destruct (m !! docname) as [e|] eqn:E; unfold ensure_metadata; simpl.
    + fold m. rewrite E. reflexivity.
    + rewrite lookup_insert_eq. reflexivity.
  - unfold get_js_files, doc_entry, get_doc_data, defaultdict_getitem.
    set (m := ensure_metadata env).
    destruct (m !! docname) as [e|] eqn:E; unfold ensure_metadata; simpl.
    + fold m. rewrite E. reflexivity.
    + rewrite lookup_insert_eq. reflexivity.
Qed.

(** X4.  [clear_doc] forgets a document: its execution data reads as [None]
    and its JavaScript files as the empty dict, the other documents keep
    their entries, the flag is not touched, and clearing twice is the same
    as clearing once. *)
Theorem clear_doc_forgets env docname :
  fst (get_exec_data (clear_doc env docname) docname) = VNone
  /\ fst (get_js_files (clear_doc env docname) docname) = VDict []
  /\ (forall d, d <> docname ->
        fst (doc_entry (clear_doc env docname) d) = fst (doc_entry env d))
  /\ new_exec_data (clear_doc env docname) = new_exec_data env
  /\ clear_doc (clear_doc env docname) docname = clear_doc env docname.
Proof.
  split; [|split; [|split; [|split]]].
  - rewrite get_exec_data_fst. unfold clear_doc, ensure_metadata. simpl.
    rewrite lookup_delete_eq. reflexivity.
  - rewrite get_js_files_fst. unfold clear_doc, ensure_metadata. simpl.
    rewrite lookup_delete_eq. reflexivity.
  - intros d Hne. rewrite !doc_entry_fst.
    unfold clear_doc, ensure_metadata. simpl.
    rewrite lookup_delete_ne by congruence. reflexivity.
  - reflexivity.
  - unfold clear_doc, ensure_metadata. simpl.
    rewrite delete_delete_eq. reflexivity.
Qed.

Lemma dict_has_set_keys d k v :
  List.map fst (dict_set d k v) =
    if dict_has d k then List.map fst d else List.map fst d ++ [k].
Proof.
  unfold dict_has. induction d as [|[k0 v0] d IH]; simpl.
  - reflexivity.
  - destruct (String.eqb_spec k0 k) as [->|Hne]; simpl.
    + reflexivity.
    + rewrite IH. destruct (dict_get d k); reflexivity.
Qed.

Lemma add_js_file_ok env docname key uri kwargs js :
  fst (get_js_files env docname) = VDict js ->
  exists env',
    add_js_file docname key uri kwargs env = (Ok tt, env')
    /\ fst (get_js_files env' docname)
         = VDict (dict_set js key (VList [uri; kwargs]))
    /\ (forall d, d <> docname ->
          fst (get_js_files env' d) = fst (get_js_files env d))
    /\ (forall d, fst (get_exec_data env' d) = fst (get_exec_data env d))
    /\ new_exec_data env' = new_exec_data env.
Proof.
  rewrite get_js_files_fst. intros Hjs.
  unfold add_js_file. rewrite Hjs.
  eexists. split; [reflexivity|].
  split; [|split; [|split]].
  - rewrite get_js_files_fst. unfold ensure_metadata at 1. simpl.
    rewrite lookup_insert_eq. simpl. rewrite dict_get_set. reflexivity.
  - intros d Hne. rewrite !get_js_files_fst. unfold ensure_metadata at 1.
    simpl. rewrite lookup_insert_ne by congruence. reflexivity.
  - intros d. rewrite !get_exec_data_fst. unfold ensure_metadata at 1. simpl.
    destruct (decide (d = docname)) as [->|Hne].
    + rewrite lookup_insert_eq. simpl. rewrite dict_get_set. reflexivity.
    + rewrite lookup_insert_ne by congruence. reflexivity.
  - reflexivity.
Qed.

(** X5.  [add_js_file] when the document's ["js_files"] is unset or a dict:
    the file is registered under its key, a key registered before is
    overwritten in place (the last registration wins and the order of the
    keys is kept), a new key goes last, and nothing else in the store
    changes.  When ["js_files"] holds anything else the call raises
    [TypeError] and the store keeps its contents. *)
Theorem add_js_file_registers env docname key uri kwargs :
  match fst (get_js_files env docname) with
  | VDict js =>
      exists env' js',
        add_js_file docname key uri kwargs env = (Ok tt, env')
        /\ fst (get_js_files env' docname) = VDict js'
        /\ (forall k, dict_get js' k =
              if String.eqb key k then Some (VList [uri; kwargs])
              else dict_get js k)
        /\ List.map fst js' =
             (if dict_has js key then List.map fst js
              else List.map fst js ++ [key])
        /\ (forall d, d <> docname ->
              fst (get_js_files env' d) = fst (get_js_files env d))
        /\ (forall d, fst (get_exec_data env' d) = fst (get_exec_data env d))
        /\ new_exec_data env' = new_exec_data env
  | _ =>
      fst (add_js_file docname key uri kwargs env) = Raise TypeError
      /\ ensure_metadata (snd (add_js_file docname key uri kwargs env))
           = ensure_metadata env
  end.
Proof.
  destruct (fst (get_js_files env docname)) as [| | | | |js] eqn:E.
  6: {
    destruct (add_js_file_ok env docname key uri kwargs js E)
      as (env' & Hrun & Hjs & Hd & He & Hf).
    exists env', (dict_set js key (VList [uri; kwargs])).
    split; [exact Hrun|]. split; [exact Hjs|].
    split; [intros k; apply dict_get_set|].
    split; [apply dict_has_set_keys|].
    split; [exact Hd|]. split; [exact He|exact Hf]. }
  all: rewrite get_js_files_fst in E; unfold add_js_file; rewrite E;
    split; reflexivity.
Qed.

End StoreFacts.

(** ** What [parse] writes and records *)

Section PersistFacts.
Import Collector SelectMimeType Persist.

Lemma split_slash_nonempty s : split_slash s <> [].
Proof.
  destruct s as [|c s]; simpl; [discriminate|].
  destruct (Ascii.eqb c "/"); [discriminate|].
  destruct (split_slash s); discriminate.
Qed.

(** Splitting at the separators and joining with them again gives the
    string back. *)
Lemma join_split_slash s : join "/" (split_slash s) = s.
Proof.
  induction s as [|c s IH]; [reflexivity|].
  simpl split_slash.
  pose proof (split_slash_nonempty s) as Hne.
  destruct (Ascii.eqb_spec c "/"%char) as [->|Hc].
  - destruct (split_slash s) as [|w ws]; [contradiction|].
    change (join "/" ("" :: w :: ws)) with ("" +:+ "/" +:+ join "/" (w :: ws)).
    rewrite IH. reflexivity.
  - destruct (split_slash s) as [|w ws]; [contradiction|].
    destruct ws as [|w' ws].
    + simpl in *. rewrite IH. reflexivity.
    + change (join "/" (String c w :: w' :: ws))
        with (String c (w +:+ "/" +:+ join "/" (w' :: ws))).
      change (join "/" (w :: w' :: ws))
        with (w +:+ "/" +:+ join "/" (w' :: ws)) in IH.
      rewrite IH. reflexivity.
Qed.

Lemma split_slash_free s : slash_free s -> split_slash s = [s].
Proof.
  induction s as [|c s IH]; intros H; [reflexivity|].
  simpl. destruct (Ascii.eqb_spec c "/"%char) as [->|Hc].
  - exfalso. apply (H "/"%char); [left; reflexivity|reflexivity].
  - rewrite IH; [reflexivity|].
    intros c' Hc'. apply H. right. exact Hc'.
Qed.

Lemma with_suffix_one x suffix : with_suffix [x] suffix = Ok [x +:+ suffix].
Proof. reflexivity. Qed.

Lemma with_suffix_cons x y l suffix :
  with_suffix (x :: y :: l) suffix =
    match with_suffix (y :: l) suffix with
    | Ok p => Ok (x :: p)
    | Raise e => Raise e
    end.
Proof.
  unfold with_suffix.
  change (last (x :: y :: l)) with (last (y :: l)).
  destruct (last (y :: l)) as [name|] eqn:E.
  - replace (length (x :: y :: l) - 1) with (S (length (y :: l) - 1))
      by (simpl; lia).
    reflexivity.
  - reflexivity.
Qed.

(** Appending a suffix without separators to a string changes only the last
    of its components. *)
Lemma with_suffix_split s suffix :
  slash_free suffix ->
  with_suffix (split_slash s) suffix = Ok (split_slash (s +:+ suffix)).
Proof.
  intros Hfree. induction s as [|c s IH].
  - change ("" +:+ suffix) with suffix.
    rewrite (split_slash_free suffix Hfree). reflexivity.
  - change (String c s +:+ suffix) with (String c (s +:+ suffix)).
    simpl split_slash.
    pose proof (split_slash_nonempty s) as Hne.
    destruct (Ascii.eqb c "/").
    + destruct (split_slash s) as [|w ws]; [contradiction|].
      rewrite with_suffix_cons, IH. reflexivity.
    + destruct (split_slash s) as [|w ws]; [contradiction|].
      destruct ws as [|w' ws].
      * rewrite with_suffix_one in IH. injection IH as <-.
        rewrite with_suffix_one. reflexivity.
      * rewrite with_suffix_cons in IH. rewrite with_suffix_cons.
        destruct (with_suffix (w' :: ws) suffix) as [p|e]; [|discriminate].
        injection IH as <-. reflexivity.
Qed.

Lemma slash_free_literal s :
  forallb (fun c => negb (Ascii.eqb c "/")) (list_ascii_of_string s) = true ->
  slash_free s.
Proof.
  intros H c Hc ->. rewrite forallb_forall in H.
  specialize (H _ Hc). simpl in H. discriminate.
Qed.

Lemma with_suffix_take path suffix p :
  with_suffix path suffix = Ok p ->
  length p = length path
  /\ take (length p - 1) p = take (length path - 1) path.
Proof.
  unfold with_suffix. destruct (last path) as [name|] eqn:E; [|discriminate].
  intros [= <-].
  assert (length path <> 0) as Hlen
    by (destruct path; [discriminate|simpl; lia]).
  assert (length (take (length path - 1) path) = length path - 1) as Ht
    by (rewrite length_take; lia).
  split.
  - rewrite length_app, Ht. simpl. lia.
  - rewrite length_app, Ht. simpl.
    replace (length path - 1 + 1 - 1) with (length path - 1) by lia.
    rewrite take_app_length'; [reflexivity|symmetry; exact Ht].
Qed.

(** X6.  The notebook and the glue data of a document are written under the
    document's own name: the path components always exist, joined by "/"
    they spell the docname followed by [.ipynb] and [.glue.json], and both
    lie in the directory the docname names (all components but the last
    are those of the docname). *)
Theorem output_paths_spell_docname docname :
  exists p g,
    ipynb_path docname = Ok p
    /\ glue_path docname = Ok g
    /\ join "/" p = docname +:+ ".ipynb"
    /\ join "/" g = docname +:+ ".glue.json"
    /\ length p = length (split_slash docname)
    /\ take (length p - 1) p
         = take (length (split_slash docname) - 1) (split_slash docname)
    /\ take (length g - 1) g = take (length p - 1) p.
Proof.
  assert (slash_free ".ipynb") as H1 by (apply slash_free_literal; reflexivity).
  assert (slash_free ".glue.json") as H2
    by (apply slash_free_literal; reflexivity).
  pose proof (with_suffix_split docname _ H1) as Hp.
  pose proof (with_suffix_split docname _ H2) as Hg.
  exists (split_slash (docname +:+ ".ipynb")),
         (split_slash (docname +:+ ".glue.json")).
  destruct (with_suffix_take _ _ _ Hp) as [Hlp Htp].
  destruct (with_suffix_take _ _ _ Hg) as [Hlg Htg].
  split; [exact Hp|]. split; [exact Hg|].
  split; [apply join_split_slash|]. split; [apply join_split_slash|].
  split; [exact Hlp|]. split; [exact Htp|].
  rewrite Htg, Htp. reflexivity.
Qed.

(** X7.  The traceback report of a document lies beside its notebook: the
    components split from [docname + ".err.log"] are the notebook's path
    with the last component's suffix exchanged, and joined they spell the
    docname followed by [.err.log]. *)
Theorem reports_path_beside_notebook docname :
  with_suffix (split_slash docname) ".err.log" = Ok (reports_path docname)
  /\ join "/" (reports_path docname) = docname +:+ ".err.log"
  /\ exists p,
       ipynb_path docname = Ok p
       /\ length (reports_path docname) = length p
       /\ take (length p - 1) (reports_path docname) = take (length p - 1) p.
Proof.
  assert (slash_free ".ipynb") as H1 by (apply slash_free_literal; reflexivity).
  assert (slash_free ".err.log") as H2
    by (apply slash_free_literal; reflexivity).
  pose proof (with_suffix_split docname _ H1) as Hp.
  pose proof (with_suffix_split docname _ H2) as Hr.
  fold (reports_path docname) in Hr.
  destruct (with_suffix_take _ _ _ Hp) as [Hlp Htp].
  destruct (with_suffix_take _ _ _ Hr) as [Hlr Htr].
  split; [exact Hr|]. split; [apply join_split_slash|].
  exists (split_slash (docname +:+ ".ipynb")).
  split; [exact Hp|]. split; [congruence|].
  rewrite Hlp, <- Hlr at 1. rewrite Htr. rewrite Hlp in Htp.
  symmetry. rewrite <- Hlp at 1. rewrite Hlp. exact Htp.
Qed.

Lemma dict_get_app (a b : dict) k :
  dict_get (a ++ b) k =
    match dict_get a k with Some v => Some v | None => dict_get b k end.
Proof.
  induction a as [|[k0 v0] a IH]; simpl; [reflexivity|].
  destruct (String.eqb k0 k); [reflexivity|exact IH].
Qed.

Lemma dict_get_pop d k k' :
  dict_get (dict_pop d k) k' =
    if String.eqb k k' then None else dict_get d k'.
Proof.
  unfold dict_pop. induction d as [|[k0 v0] d IH]; simpl.
  - destruct (String.eqb k k'); reflexivity.
  - destruct (String.eqb_spec k0 k) as [->|Hne]; simpl.
    + rewrite IH. destruct (String.eqb k k'); reflexivity.
    + rewrite IH. destruct (String.eqb_spec k0 k') as [->|]; [|reflexivity].
      destruct (String.eqb_spec k k') as [->|]; [contradiction|reflexivity].
Qed.

Lemma glue_path_ok docname :
  glue_path docname = Ok (split_slash (docname +:+ ".glue.json")).
Proof.
  apply with_suffix_split. apply slash_free_literal. reflexivity.
Qed.

Lemma doc_entry_note env d :
  fst (doc_entry (note_exec_update env) d) = fst (doc_entry env d).
Proof. rewrite !doc_entry_fst. reflexivity. Qed.

Lemma dict_get_registered items : forall js k,
  dict_get (registered js items) k =
    match dict_get (rev items) k with
    | Some v => Some v
    | None => dict_get js k
    end.
Proof.
  induction items as [|[k0 v0] items IH]; intros js k; [reflexivity|].
  change (registered js ((k0, v0) :: items))
    with (registered (dict_set js k0 v0) items).
  rewrite IH. simpl rev. rewrite dict_get_app.
  destruct (dict_get (rev items) k); [reflexivity|].
  rewrite dict_get_set. simpl. destruct (String.eqb k0 k); reflexivity.
Qed.

Lemma dict_set_fresh d k v :
  dict_get d k = None -> dict_set d k v = d ++ [(k, v)].
Proof.
  induction d as [|[k0 v0] d IH]; simpl; [reflexivity|].
  destruct (String.eqb k0 k); [discriminate|].
  intros H. rewrite IH by exact H. reflexivity.
Qed.

Lemma registered_fresh items : forall js,
  NoDup (List.map fst items) ->
  (forall k, k ∈ List.map fst items -> dict_get js k = None) ->
  registered js items = js ++ items.
Proof.
  induction items as [|[k0 v0] items IH]; intros js Hnd Hfresh.
  - simpl. rewrite app_nil_r. reflexivity.
  - change (registered js ((k0, v0) :: items))
      with (registered (dict_set js k0 v0) items).
    simpl in Hnd. apply NoDup_cons in Hnd as [Hk0 Hnd].
    rewrite dict_set_fresh by (apply Hfresh; left).
    rewrite IH; [rewrite <- app_assoc; reflexivity|exact Hnd|].
    intros k Hk. rewrite dict_get_app.
    rewrite Hfresh by (right; exact Hk). simpl.
    destruct (String.eqb_spec k0 k) as [->|]; [contradiction|reflexivity].
Qed.

Lemma js_loop docname items : forall env js,
  js_pairs items ->
  fst (get_js_files env docname) = VDict js ->
  exists env',
    mfor items
      (fun '(key, v) =>
         '(uri, kwargs) ← mlift (py_unpack2 v) ;
         add_js_file docname key uri kwargs) env = (Ok tt, env')
    /\ fst (get_js_files env' docname) = VDict (registered js items)
    /\ (forall d, d <> docname ->
          fst (get_js_files env' d) = fst (get_js_files env d))
    /\ (forall d, fst (get_exec_data env' d) = fst (get_exec_data env d))
    /\ (forall k, k <> "js_files" ->
          dict_get (fst (doc_entry env' docname)) k
            = dict_get (fst (doc_entry env docname)) k)
    /\ new_exec_data env' = new_exec_data env.
Proof.
  induction items as [|[key v] items IH]; intros env js Hitems Hjs.
  - exists env. simpl. repeat split; try reflexivity. exact Hjs.
  - apply Forall_cons in Hitems as [(uri & kwargs & Hv) Hitems].
    simpl in Hv. subst v.
    destruct (add_js_file_ok env docname key uri kwargs js Hjs)
      as (env1 & Hrun & Hjs1 & Hd1 & He1 & Hf1).
    destruct (IH env1 _ Hitems Hjs1)
      as (env' & Hloop & Hjs' & Hd & He & Hk & Hf).
    exists env'.
    split.
    { simpl. unfold mbind' at 1. unfold mbind, M_bind, mbind', mlift. simpl.
      rewrite Hrun. exact Hloop. }
    split; [exact Hjs'|].
    split; [intros d Hne; rewrite Hd, Hd1 by exact Hne; reflexivity|].
    split; [intros d; rewrite He, He1; reflexivity|].
    split; [|congruence].
    intros k Hne. rewrite Hk by exact Hne.
    unfold add_js_file in Hrun. rewrite get_js_files_fst in Hjs.
    rewrite Hjs in Hrun. injection Hrun as <-.
    rewrite !doc_entry_fst. unfold ensure_metadata at 1. simpl.
    rewrite lookup_insert_eq. simpl. rewrite dict_get_set.
    destruct (String.eqb_spec "js_files" k) as [<-|]; [contradiction|].
    reflexivity.
Qed.

(** X8.  Moving the JavaScript files of a document from the document
    attributes to the store: when ["nb_js_files"] is unset or a dict of
    [(uri, kwargs)] pairs and the document's ["js_files"] is unset or a
    dict, the loop succeeds; afterwards every key of ["nb_js_files"] is
    registered with its pair, the keys registered before and not named
    again are kept, the attribute is gone from the document while its other
    attributes are kept, and neither the other documents nor the execution
    data are touched. *)
Theorem move_js_files_registers env docname attributes items js :
  default (VDict []) (dict_get attributes "nb_js_files") = VDict items ->
  js_pairs items ->
  fst (get_js_files env docname) = VDict js ->
  exists env' js',
    move_js_files docname attributes env
      = (Ok (dict_pop attributes "nb_js_files"), env')
    /\ fst (get_js_files env' docname) = VDict js'
    /\ (forall k, dict_get js' k =
          match dict_get (rev items) k with
          | Some v => Some v
          | None => dict_get js k
          end)
    /\ (forall k, dict_get (dict_pop attributes "nb_js_files") k =
          if String.eqb "nb_js_files" k then None else dict_get attributes k)
    /\ (forall d, d <> docname ->
          fst (get_js_files env' d) = fst (get_js_files env d))
    /\ (forall d, fst (get_exec_data env' d) = fst (get_exec_data env d)).
Proof.
  intros Hattr Hitems Hjs.
  destruct (js_loop docname items env js Hitems Hjs)
    as (env' & Hloop & Hjs' & Hd & He & _ & _).
  exists env', (registered js items).
  split.
  { unfold move_js_files. rewrite Hattr.
    unfold mbind, M_bind, mbind', mlift, mret. simpl.
    unfold mbind, M_bind, mbind', mlift in Hloop. rewrite Hloop.
    reflexivity. }
  split; [exact Hjs'|]. split; [apply dict_get_registered|].
  split; [intros k; apply dict_get_pop|].
  split; [exact Hd|exact He].
Qed.

(** X9.  What [parse] records for a document fits together: after the
    execution result, the glue keys and the JavaScript files have been
    stored for it, each reads back as stored (the three live under
    different keys of the same entry), the flag for new execution data is
    raised, and the report and the glue file are named after the document. *)
Theorem parse_records_fit_together
    env docname exec traceback resources glue attributes items js :
  exec <> [] ->
  dict_get exec "traceback" = Some traceback ->
  dict_get resources "glue" = Some (VDict glue) ->
  glue <> [] ->
  default (VDict []) (dict_get attributes "nb_js_files") = VDict items ->
  js_pairs items ->
  fst (get_js_files env docname) = VDict js ->
  exists env1 env2 env3 g js',
    store_exec_data docname (VDict exec) env
      = (Ok (if truthy traceback then Some (reports_path docname, traceback)
             else None), env1)
    /\ store_glue_keys docname resources env1 = (Ok (Some g), env2)
    /\ glue_path docname = Ok g
    /\ move_js_files docname attributes env2
         = (Ok (dict_pop attributes "nb_js_files"), env3)
    /\ fst (get_exec_data env3 docname) = VDict exec
    /\ new_exec_data env3 = true
    /\ dict_get (fst (doc_entry env3 docname)) "glue"
         = Some (VList (List.map (fun kv => VStr (fst kv)) glue))
    /\ fst (get_js_files env3 docname) = VDict js'
    /\ (forall k, dict_get js' k =
          match dict_get (rev items) k with
          | Some v => Some v
          | None => dict_get js k
          end).
Proof.
  intros Hexec Htb Hglue Hg Hattr Hitems Hjs.
  pose proof (glue_path_ok docname) as Hgp.
  set (g := split_slash (docname +:+ ".glue.json")) in Hgp.
  set (env1 := set_exec_data env docname (VDict exec)).
  set (env2 := set_doc_data env1 docname "glue"
                 (VList (List.map (fun kv => VStr (fst kv)) glue))).
  assert (fst (get_js_files env2 docname) = VDict js) as Hjs2.
  { rewrite get_js_files_fst, <- doc_entry_fst. unfold env2.
    rewrite entry_after_set. rewrite decide_True by reflexivity. simpl.
    unfold env1, set_exec_data.
    rewrite doc_entry_note.
    rewrite <- Hjs, get_js_files_fst, <- doc_entry_fst.
    rewrite entry_after_set. rewrite decide_True by reflexivity. reflexivity. }
  destruct (js_loop docname items env2 js Hitems Hjs2)
    as (env3 & Hloop & Hjs' & _ & He & Hk & Hf).
  exists env1, env2, env3, g, (registered js items).
  split.
  { unfold store_exec_data.
    destruct exec as [|kv exec]; [contradiction|].
    cbn [truthy]. unfold mbind, M_bind, mbind', mlift, mret.
    cbn [py_getitem]. unfold dict_getitem. rewrite Htb.
    destruct (truthy traceback); reflexivity. }
  split.
  { unfold store_glue_keys. rewrite Hglue.
    destruct glue as [|kv glue]; [contradiction|].
    cbn [default from_option id truthy].
    unfold mbind, M_bind, mbind', mlift, mret. rewrite Hgp. reflexivity. }
  split; [exact Hgp|].
  split.
  { unfold move_js_files. rewrite Hattr.
    unfold mbind, M_bind, mbind', mlift, mret. simpl.
    unfold mbind, M_bind, mbind', mlift in Hloop. rewrite Hloop.
    reflexivity. }
  split.
  { rewrite He, get_exec_data_fst, <- doc_entry_fst. unfold env2.
    rewrite entry_after_set. rewrite decide_True by reflexivity. simpl.
    unfold env1, set_exec_data.
    rewrite doc_entry_note.
    rewrite entry_after_set. rewrite decide_True by reflexivity. reflexivity. }
  split; [rewrite Hf; reflexivity|].
  split.
  { rewrite Hk by discriminate. unfold env2.
    rewrite entry_after_set. rewrite decide_True by reflexivity. reflexivity. }
  split; [exact Hjs'|apply dict_get_registered].
Qed.

End PersistFacts.

(** ** Set-up and event handlers *)

Section SetupFacts.
Import Config Collector Persist Setup.

(** X10.  [add_exclude_patterns] puts the checkpoint pattern into the list
    exactly when it is missing: afterwards the pattern is present, the
    patterns given come first and in their order, a list without repeated
    patterns stays one, and running the handler again changes nothing. *)
Theorem add_exclude_patterns_once (l : list string) :
  In "**.ipynb_checkpoints" (add_exclude_patterns l)
  /\ (exists extra, add_exclude_patterns l = l ++ extra
                    /\ (extra = [] <-> In "**.ipynb_checkpoints" l))
  /\ (NoDup l -> NoDup (add_exclude_patterns l))
  /\ add_exclude_patterns (add_exclude_patterns l) = add_exclude_patterns l.
Proof.
  unfold add_exclude_patterns.
  destruct (existsb (String.eqb "**.ipynb_checkpoints") l) eqn:E.
  - assert (In "**.ipynb_checkpoints" l) as Hin.
    { apply existsb_exists in E as (x & Hx & Heq).
      apply String.eqb_eq in Heq. subst x. exact Hx. }
    split; [exact Hin|].
    split; [exists []; rewrite app_nil_r; split; [reflexivity|tauto]|].
    split; [tauto|]. rewrite E. reflexivity.
  - assert (~ In "**.ipynb_checkpoints" l) as Hnin.
    { intros Hin. assert (existsb (String.eqb "**.ipynb_checkpoints") l = true)
        as E' by (apply existsb_exists; eexists; split;
                  [exact Hin|apply String.eqb_refl]).
      congruence. }
    split; [apply in_or_app; right; left; reflexivity|].
    split.
    { eexists. split; [reflexivity|]. split; [discriminate|contradiction]. }
    split.
    { intros Hnd. apply NoDup_app. split; [exact Hnd|].
      split; [|apply NoDup_singleton].
      intros x Hx Hx'. apply list_elem_of_singleton in Hx'. subst x.
      apply Hnin. apply list_elem_of_In. exact Hx. }
    rewrite existsb_app, E. reflexivity.
Qed.

Section ConfigurationFacts.

Variable py_str : value -> string.
Variable py_repr : value -> string.
Variable DEFAULT_LOG_TYPE : string.

Lemma dict_set_twice d k v v' :
  dict_get d k = None ->
  dict_set (dict_set d k v) k v' = d ++ [(k, v')].
Proof.
  induction d as [|[k0 v0] d IH]; simpl.
  - rewrite String.eqb_refl. reflexivity.
  - destruct (String.eqb k0 k) eqn:E; [discriminate|].
    intros H. simpl. rewrite E, IH by exact H. reflexivity.
Qed.

Lemma collect_field_ok config f values0 log :
  (forall n, In n (List.map fst (declare_field py_str f)) ->
             is_Some (config !! n)) ->
  (forall ln, excluded f = false ->
              dict_get (field_metadata f) "legacy_name" = Some ln ->
              exists s, ln = VStr s) ->
  (excluded f = false -> dict_get values0 (field_name f) = None) ->
  collect_field py_repr DEFAULT_LOG_TYPE config f values0 log =
    (Ok (if excluded f then values0
         else values0 ++ [(field_name f, effective_value config f)]),
     log ++ deprecations py_repr DEFAULT_LOG_TYPE config f).
Proof.
  intros H1 H2 Hfresh.
  unfold collect_field, deprecations, effective_value, declare_field in *.
  destruct (excluded f) eqn:Eex.
  - unfold mret. rewrite app_nil_r. reflexivity.
  - specialize (Hfresh eq_refl).
    destruct (H1 ("nb_" +:+ field_name f)) as [v Hv]; [left; reflexivity|].
    unfold mbind, M_bind, mbind', mlift, mret, dict_has, dict_getitem.
    simpl config_value. rewrite Hv. cbn [default from_option id].
    destruct (dict_get (field_metadata f) "legacy_name") as [ln|] eqn:Eln.
    + destruct (H2 ln eq_refl eq_refl) as [s ->].
      destruct (H1 s) as [lv Hlv]; [right; left; reflexivity|].
      simpl config_value. rewrite Hlv. cbn [default from_option id].
      destruct (is_set lv).
      * unfold Setup.log. rewrite dict_set_twice by exact Hfresh. reflexivity.
      * rewrite dict_set_fresh by exact Hfresh. rewrite app_nil_r. reflexivity.
    + rewrite dict_set_fresh by exact Hfresh. rewrite app_nil_r. reflexivity.
Qed.

Lemma collect_values_from config fs : forall values0 log,
  (forall n, In n (List.map fst (flat_map (declare_field py_str) fs)) ->
             is_Some (config !! n)) ->
  (forall f ln, In f fs -> excluded f = false ->
                dict_get (field_metadata f) "legacy_name" = Some ln ->
                exists s, ln = VStr s) ->
  NoDup (List.map field_name (List.filter (fun f => negb (excluded f)) fs)) ->
  (forall f, In f fs -> excluded f = false ->
             dict_get values0 (field_name f) = None) ->
  collect_values py_repr DEFAULT_LOG_TYPE config fs values0 log =
    (Ok (values0 ++
         List.map (fun f => (field_name f, effective_value config f))
           (List.filter (fun f => negb (excluded f)) fs)),
     log ++ flat_map (deprecations py_repr DEFAULT_LOG_TYPE config) fs).
Proof.
  induction fs as [|f fs IH]; intros values0 log H1 H2 Hnd Hfresh.
  - simpl. unfold mret. rewrite !app_nil_r. reflexivity.
  - simpl collect_values. unfold mbind, M_bind, mbind'.
    rewrite (collect_field_ok config f values0 log).
    + simpl flat_map. simpl List.filter.
      destruct (excluded f) eqn:Eex; simpl negb; cbv iota.
      * rewrite IH.
        -- rewrite <- app_assoc. reflexivity.
        -- intros n Hn. apply H1. simpl. rewrite map_app. apply in_or_app.
           right. exact Hn.
        -- intros g ln Hg. apply H2. right. exact Hg.
        -- simpl in Hnd. rewrite Eex in Hnd. exact Hnd.
        -- intros g Hg. apply Hfresh. right. exact Hg.
      * simpl in Hnd. rewrite Eex in Hnd. simpl in Hnd.
        apply NoDup_cons in Hnd as [Hf Hnd].
        rewrite IH.
        -- simpl List.map. rewrite <- !app_assoc. reflexivity.
        -- intros n Hn. apply H1. simpl. rewrite map_app. apply in_or_app.
           right. exact Hn.
        -- intros g ln Hg. apply H2. right. exact Hg.
        -- exact Hnd.
        -- intros g Hg Hgex. rewrite dict_get_app.
           rewrite Hfresh by (try (right; exact Hg); exact Hgex).
           simpl. destruct (String.eqb_spec (field_name f) (field_name g))
             as [Heq|]; [|reflexivity].
           exfalso. apply Hf. rewrite Heq. apply list_elem_of_In.
           apply in_map. apply filter_In. split; [exact Hg|].
           rewrite Hgex. reflexivity.
    + intros n Hn. apply H1. simpl. rewrite map_app. apply in_or_app.
      left. exact Hn.
    + intros ln. apply H2. left. reflexivity.
    + apply Hfresh. left. reflexivity.
Qed.

(** X11.  The keyword arguments [create_mystnb_config] builds for
    [NbParserConfig]: when the configuration holds every value that
    [sphinx_setup] declared, the deprecated names are strings and the field
    names are distinct, the loop succeeds; it yields one argument per field
    that is not excluded, in field order, holding the value of the
    deprecated name when the user set it and the value of [nb_<name>]
    otherwise, and it logs one deprecation warning per deprecated name that
    was set, in field order. *)
Theorem collect_values_correct config fs log :
  (forall n, In n (List.map fst (flat_map (declare_field py_str) fs)) ->
             is_Some (config !! n)) ->
  (forall f ln, In f fs -> excluded f = false ->
                dict_get (field_metadata f) "legacy_name" = Some ln ->
                exists s, ln = VStr s) ->
  NoDup (List.map field_name (List.filter (fun f => negb (excluded f)) fs)) ->
  collect_values py_repr DEFAULT_LOG_TYPE config fs [] log =
    (Ok (List.map (fun f => (field_name f, effective_value config f))
           (List.filter (fun f => negb (excluded f)) fs)),
     log ++ flat_map (deprecations py_repr DEFAULT_LOG_TYPE config) fs).
Proof.
  intros H1 H2 Hnd.
  rewrite (collect_values_from config fs [] log H1 H2 Hnd); [reflexivity|].
  intros; reflexivity.
Qed.

End ConfigurationFacts.

Section PageFacts.

Variable sphinx_add_js_file : value -> dict -> result unit.

Lemma page_loop regs : forall added,
  (forall r, In r regs -> sphinx_add_js_file (snd (fst r)) (snd r) = Ok tt) ->
  mfor (List.map snd (List.map js_entry regs))
       (add_page_js_file sphinx_add_js_file) added
    = (Ok tt, added ++ List.map js_call regs).
Proof.
  induction regs as [|[[k u] kw] regs IH]; intros added Hok.
  - simpl. unfold mret. rewrite app_nil_r. reflexivity.
  - simpl. unfold mbind' at 1. unfold add_page_js_file at 1.
    unfold mbind, M_bind, mbind', mlift. simpl.
    pose proof (Hok (k, u, kw) (or_introl eq_refl)) as Hfirst.
    simpl in Hfirst. rewrite Hfirst.
    rewrite IH by (intros r Hr; apply Hok; right; exact Hr).
    rewrite <- app_assoc. reflexivity.
Qed.

(** On a builder that does not write HTML, or without an environment, the
    page handler does nothing: no file is added and the store is not read. *)
Lemma add_per_page_html_resources_other_builders a pagename :
  app_env a = None \/ builder_format a <> Some "html" ->
  add_per_page_html_resources sphinx_add_js_file a pagename = (Ok tt, a).
Proof.
  unfold add_per_page_html_resources. intros [H|H].
  - rewrite H. reflexivity.
  - destruct (app_env a); [|reflexivity].
    destruct (builder_format a) as [fmt|]; [|reflexivity].
    destruct (String.eqb_spec fmt "html") as [->|]; [contradiction|].
    reflexivity.
Qed.

(** X12.  On an HTML builder the page handler adds the JavaScript files
    registered for the page, one call of [app.add_js_file] per registration
    and in the order of the store, after the files the page already has;
    the read leaves the store as [get_js_files] leaves it. *)
Theorem add_per_page_html_resources_adds a env pagename regs :
  app_env a = Some env ->
  builder_format a = Some "html" ->
  fst (get_js_files env pagename) = VDict (List.map js_entry regs) ->
  (forall r, In r regs -> sphinx_add_js_file (snd (fst r)) (snd r) = Ok tt) ->
  add_per_page_html_resources sphinx_add_js_file a pagename =
    (Ok tt,
     {| app_env := Some (snd (get_js_files env pagename));
        builder_format := Some "html";
        page_js_files := page_js_files a ++ List.map js_call regs |}).
Proof.
  intros Henv Hfmt Hjs Hok.
  unfold add_per_page_html_resources. rewrite Henv, Hfmt. simpl.
  destruct (get_js_files env pagename) as [v env'] eqn:E.
  simpl in Hjs. subst v. simpl.
  rewrite (page_loop regs _ Hok). reflexivity.
Qed.

(** X13.  From the notebook to the page: the files the renderer left in the
    document's ["nb_js_files"], under distinct keys, for a document that
    has none registered yet, are moved to the store by [parse] and added to
    the document's HTML page by the page handler, each once and in the
    order in which they were registered. *)
Theorem registered_files_reach_the_page env pagename attributes regs added :
  dict_get attributes "nb_js_files" = Some (VDict (List.map js_entry regs)) ->
  NoDup (List.map (fun r => fst (fst r)) regs) ->
  fst (get_js_files env pagename) = VDict [] ->
  (forall r, In r regs -> sphinx_add_js_file (snd (fst r)) (snd r) = Ok tt) ->
  exists env' a',
    move_js_files pagename attributes env
      = (Ok (dict_pop attributes "nb_js_files"), env')
    /\ add_per_page_html_resources sphinx_add_js_file
         {| app_env := Some env'; builder_format := Some "html";
            page_js_files := added |} pagename = (Ok tt, a')
    /\ page_js_files a' = added ++ List.map js_call regs.
Proof.
  intros Hattr Hnd Hjs Hok.
  assert (js_pairs (List.map js_entry regs)) as Hpairs.
  { apply Forall_forall. intros kv Hkv. apply list_elem_of_In in Hkv.
    apply in_map_iff in Hkv as ([[k u] kw] & <- & _).
    exists u, (VDict kw). reflexivity. }
  destruct (js_loop pagename _ env [] Hpairs Hjs)
    as (env' & Hloop & Hjs' & _).
  rewrite registered_fresh in Hjs'.
  - exists env',
      {| app_env := Some (snd (get_js_files env' pagename));
         builder_format := Some "html";
         page_js_files := added ++ List.map js_call regs |}.
    split; [|split].
    + unfold move_js_files. rewrite Hattr.
      unfold mbind, M_bind, mbind', mlift, mret. simpl.
      unfold mbind, M_bind, mbind', mlift in Hloop. rewrite Hloop.
      reflexivity.
    + unfold add_per_page_html_resources. simpl.
      destruct (get_js_files env' pagename) as [v env''] eqn:E.
      simpl in Hjs'. subst v. simpl.
      rewrite (page_loop regs _ Hok). reflexivity.
    + reflexivity.
  - rewrite map_map. simpl. exact Hnd.
  - intros; reflexivity.
Qed.

End PageFacts.

Lemma string_app_assoc (a b c : string) : (a +:+ b) +:+ c = a +:+ (b +:+ c).
Proof.
  induction a as [|x a IH]; [reflexivity|].
  change (String x ((a +:+ b) +:+ c) = String x (a +:+ (b +:+ c))).
  rewrite IH. reflexivity.
Qed.

Lemma string_length_app (a b : string) :
  String.length (a +:+ b) = String.length a + String.length b.
Proof.
  induction a as [|x a IH]; [reflexivity|].
  change (S (String.length (a +:+ b)) = S (String.length a + String.length b)).
  rewrite IH. reflexivity.
Qed.

Lemma togglebutton_fold (sels : list string) : forall s,
  foldl (fun s selector => s +:+ ", " +:+ selector) s sels =
    s +:+ foldl (fun s selector => s +:+ ", " +:+ selector) "" sels.
Proof.
  induction sels as [|x sels IH]; intros s; simpl.
  - induction s as [|c s IHs]; [reflexivity|].
    change (String c s = String c (s +:+ "")). rewrite <- IHs. reflexivity.
  - rewrite IH. rewrite (IH ("" +:+ ", " +:+ x)).
    change ("" +:+ ", " +:+ x) with (", " +:+ x).
    rewrite string_app_assoc. reflexivity.
Qed.

(** X14.  [update_togglebutton_classes] only appends: the selector that was
    configured stays in front, followed by the same six selectors whatever
    it was; so, unlike [add_exclude_patterns], the handler is not
    idempotent, and a second run appends the six selectors once more. *)
Theorem update_togglebutton_classes_appends (s : string) :
  update_togglebutton_classes s = s +:+ update_togglebutton_classes ""
  /\ update_togglebutton_classes (update_togglebutton_classes s)
       = s +:+ update_togglebutton_classes ""
           +:+ update_togglebutton_classes ""
  /\ update_togglebutton_classes (update_togglebutton_classes s)
       <> update_togglebutton_classes s.
Proof.
  assert (forall t, update_togglebutton_classes t
                    = t +:+ update_togglebutton_classes "") as H
    by (intros t; apply togglebutton_fold).
  split; [apply H|]. split.
  - rewrite (H (update_togglebutton_classes s)), (H s).
    apply string_app_assoc.
  - rewrite (H (update_togglebutton_classes s)).
    intros Heq. apply (f_equal String.length) in Heq.
    rewrite string_length_app in Heq.
    assert (String.length (update_togglebutton_classes "") <> 0) as Hlen
      by (vm_compute; discriminate).
    lia.
Qed.

End SetupFacts.

(** ** Bytestrings in JSON *)

Section JsonFacts.
Import Json.

Lemma string_of_list_byte_length b :
  String.length (string_of_list_byte b) = length b.
Proof.
  unfold string_of_list_byte.
  induction b as [|x b IH]; [reflexivity|]. simpl. rewrite IH. reflexivity.
Qed.

(** X15.  [BytesEncoder.default] accepts exactly the bytestrings that are
    ASCII: such a bytestring becomes the string with the same characters
    (encoding it again gives the bytes back, and the length is kept), a
    bytestring with a byte from 128 on raises the decoding error, and any
    other object is refused with [TypeError] as by the base encoder. *)
Theorem bytes_encoder_default (b : list Byte.byte) :
  default Other = Raise TypeError
  /\ (forallb (fun x => (Byte.to_N x <? 128)%N) b = true ->
      exists s, default (Bytes b) = Ok s
                /\ list_byte_of_string s = b
                /\ String.length s = length b)
  /\ (forallb (fun x => (Byte.to_N x <? 128)%N) b = false ->
      default (Bytes b) = Raise ValueError).
Proof.
  split; [reflexivity|]. unfold default, decode_ascii. split; intros H.
  - rewrite H. exists (string_of_list_byte b). split; [reflexivity|].
    split; [apply list_byte_of_string_of_list_byte|].
    apply string_of_list_byte_length.
  - rewrite H. reflexivity.
Qed.

End JsonFacts.

(** ** Tree builder: locations, plain outputs and tags *)

Section BuilderMoreFacts.
Import Config Doctree Builder.

Context {plugin : NbElementRenderer}.
Variable nb_config : NbParserConfig.
Variable cells : list cell.
Variable document_source : string.
Variable create_highlighted_code_block :
  string -> option string -> value -> string -> nat -> node.
Variable create_warning : string -> nat -> string -> string -> option node.
Variable create_figure_context : option value -> nat -> B unit -> B unit.
Variable DEFAULT_LOG_TYPE : string.

Lemma node_induction (P : node -> Prop) :
  (forall s l, P (Text s l)) ->
  (forall t a l cs, Forall P cs -> P (Element t a l cs)) ->
  forall n, P n.
Proof.
  intros HT HE. fix IH 1. intros [s l|t a l cs]; [apply HT|].
  apply HE. induction cs as [|c cs IHcs]; constructor; [apply IH|exact IHcs].
Qed.

Lemma stamp_located t l :
  source (stamp document_source t l) = Some document_source
  /\ (forall ln, map_line t = Some ln ->
        line (stamp document_source t l) = Some ln)
  /\ (map_line t = None -> line (stamp document_source t l) = line l).
Proof.
  unfold stamp, token_line. simpl.
  destruct (map_line t) as [n|]; repeat split; try congruence; discriminate.
Qed.

Lemma stamp_idempotent t l :
  stamp document_source t (stamp document_source t l)
    = stamp document_source t l.
Proof.
  unfold stamp, token_line. simpl. destruct (map_line t); reflexivity.
Qed.

Lemma stamp_node t n :
  Forall (fun l => source l = Some document_source
                   /\ forall ln, map_line t = Some ln -> line l = Some ln)
         (locs (add_line_and_source_path_r1 document_source t n))
  /\ (map_line t = None ->
      List.map line (locs (add_line_and_source_path_r1 document_source t n))
        = List.map line (locs n))
  /\ shape (add_line_and_source_path_r1 document_source t n) = shape n
  /\ add_line_and_source_path_r1 document_source t
       (add_line_and_source_path_r1 document_source t n)
     = add_line_and_source_path_r1 document_source t n.
Proof.
  induction n as [s l|tg a l cs IH] using node_induction.
  - destruct (stamp_located t l) as (Hs & Hl & Hn).
    cbn [add_line_and_source_path_r1 locs shape List.map].
    split; [constructor; [split; assumption|constructor]|].
    split; [intros H; rewrite Hn by exact H; reflexivity|].
    split; [reflexivity|]. rewrite stamp_idempotent. reflexivity.
  - destruct (stamp_located t l) as (Hs & Hl & Hn).
    cbn [add_line_and_source_path_r1 locs shape List.map].
    split; [|split; [|split]].
    + constructor; [split; assumption|].
      induction cs as [|c cs IHcs]; [constructor|].
      apply Forall_cons in IH as [(Hc & _) IH]. simpl.
      apply Forall_app. split; [exact Hc|apply IHcs; exact IH].
    + intros H. rewrite Hn by exact H. f_equal.
      induction cs as [|c cs IHcs]; [reflexivity|].
      apply Forall_cons in IH as [(_ & Hc & _) IH]. simpl.
      rewrite !map_app, Hc by exact H. f_equal. apply IHcs. exact IH.
    + f_equal. induction cs as [|c cs IHcs]; [reflexivity|].
      apply Forall_cons in IH as [(_ & _ & Hc & _) IH]. simpl.
      rewrite Hc. f_equal. apply IHcs. exact IH.
    + rewrite stamp_idempotent. f_equal.
      induction cs as [|c cs IHcs]; [reflexivity|].
      apply Forall_cons in IH as [(_ & _ & _ & Hc) IH]. simpl.
      rewrite Hc. f_equal. apply IHcs. exact IH.
Qed.

Lemma stamp_nodes t ns :
  Forall (fun l => source l = Some document_source
                   /\ forall ln, map_line t = Some ln -> line l = Some ln)
         (flat_map locs (add_line_and_source_path_r document_source ns t))
  /\ (map_line t = None ->
      List.map line
        (flat_map locs (add_line_and_source_path_r document_source ns t))
        = List.map line (flat_map locs ns))
  /\ List.map shape (add_line_and_source_path_r document_source ns t)
       = List.map shape ns
  /\ add_line_and_source_path_r document_source
       (add_line_and_source_path_r document_source ns t) t
     = add_line_and_source_path_r document_source ns t.
Proof.
  unfold add_line_and_source_path_r.
  induction ns as [|n ns IH]; simpl.
  - repeat split; constructor.
  - destruct (stamp_node t n) as (H1 & H2 & H3 & H4).
    destruct IH as (I1 & I2 & I3 & I4).
    split; [apply Forall_app; split; assumption|].
    split; [intros H; rewrite !map_app, H2, I2 by exact H; reflexivity|].
    split; [rewrite H3, I3; reflexivity|].
    rewrite H4, I4. reflexivity.
Qed.

(** X16.  A raw cell always renders: the nodes the plugin makes for the
    cell's source, metadata, index and line (the token's, or 0 when it has
    none) go after the children the current node has, unchanged but for
    their locations, and each of them and of their descendants carries the
    document's source and the token's line. *)
Theorem render_nb_cell_raw_appends t cur :
  exists ns,
    render_nb_cell_raw document_source t cur = (Ok tt, cur ++ ns)
    /\ List.map shape ns =
         List.map shape
           (render_raw_cell (content t) (meta_metadata t) (meta_index t)
              (default 0 (map_line t)))
    /\ Forall (fun l => source l = Some document_source
                        /\ forall ln, map_line t = Some ln -> line l = Some ln)
              (flat_map locs ns).
Proof.
  unfold render_nb_cell_raw, token_line.
  unfold mbind, M_bind, mbind', mlift, extend.
  destruct (map_line t) as [ln|] eqn:E; simpl; eexists;
    (split; [reflexivity|]);
    match goal with
    | |- context [add_line_and_source_path_r _ ?ns _] =>
        destruct (stamp_nodes t ns) as (H1 & _ & H3 & _)
    end;
    (split; [exact H3|]); rewrite E in H1; exact H1.
Qed.

Lemma render_output_plain t line i o cur :
  plain_output o = true ->
  render_output nb_config document_source create_warning
    create_figure_context DEFAULT_LOG_TYPE t line i o cur
  = (Ok tt,
     cur ++ plain_output_nodes document_source create_warning
              DEFAULT_LOG_TYPE t line o).
Proof.
  unfold plain_output, render_output, plain_output_nodes. intros H.
  apply andb_true_iff in H as [Hd Hs].
  destruct (String.eqb (output_type o) "stream") eqn:E1.
  - simpl in Hs. destruct (name o) as [nm|]; [|discriminate].
    unfold mbind, M_bind, mbind', mlift, extend, mret. simpl.
    destruct (String.eqb nm "stdout"); [reflexivity|].
    destruct (String.eqb nm "stderr"); [reflexivity|].
    rewrite app_nil_r. reflexivity.
  - destruct (String.eqb (output_type o) "error"); [reflexivity|].
    apply negb_true_iff in Hd. rewrite Hd.
    destruct (create_warning _ _ _ _); [reflexivity|].
    unfold mret. rewrite app_nil_r. reflexivity.
Qed.

Lemma plain_loop t line outs : forall k cur,
  forallb plain_output outs = true ->
  mfor (zip (seq k (length outs)) outs)
    (fun '(output_index, o) =>
       render_output nb_config document_source create_warning
         create_figure_context DEFAULT_LOG_TYPE t line output_index o) cur
  = (Ok tt,
     cur ++ flat_map (plain_output_nodes document_source create_warning
                        DEFAULT_LOG_TYPE t line) outs).
Proof.
  induction outs as [|o outs IH]; intros k cur H.
  - simpl. unfold mret. rewrite app_nil_r. reflexivity.
  - simpl in H. apply andb_true_iff in H as [Ho H].
    simpl. unfold mbind' at 1.
    rewrite (render_output_plain t line k o cur Ho).
    rewrite IH by exact H. rewrite <- app_assoc. reflexivity.
Qed.

(** X17.  Streams, errors and unknown output types are rendered in the
    order of the notebook: for a cell none of whose outputs is a
    display_data or an execute_result (and whose streams have a name) the
    loop succeeds and leaves, after the children the current node has, what
    each output contributes, output by output: the plugin's nodes for
    stdout, stderr and an error, located at the token; nothing for a stream
    with another name; the warning node for an unknown type, after which
    the later outputs are still rendered. *)
Theorem render_nb_cell_code_outputs_plain t cur c :
  cells !! meta_index t = Some c ->
  forallb plain_output (default [] (outputs c)) = true ->
  render_nb_cell_code_outputs nb_config cells document_source create_warning
    create_figure_context DEFAULT_LOG_TYPE t cur
  = (Ok tt,
     cur ++ flat_map (plain_output_nodes document_source create_warning
                        DEFAULT_LOG_TYPE t (default 0 (map_line t)))
              (default [] (outputs c))).
Proof.
  intros Hc Hplain.
  unfold render_nb_cell_code_outputs, cell_outputs, token_line.
  rewrite Hc. unfold mbind, M_bind, mbind', mlift.
  destruct (map_line t) as [ln|]; simpl; apply plain_loop; exact Hplain.
Qed.

Lemma is_display_type o :
  is_display o = true ->
  output_type o = "display_data" \/ output_type o = "execute_result".
Proof.
  unfold is_display. intros H. apply orb_true_iff in H as [H|H];
    apply String.eqb_eq in H; auto.
Qed.

Lemma render_mime_bundle_nodes t i o line cur :
  is_Some (data o) ->
  render_mime_bundle document_source t i o line cur
  = (Ok tt, cur ++ mime_bundle_nodes document_source t i o line).
Proof.
  intros [items Hdata].
  destruct (render_mime_bundle_one nb_config document_source create_warning
              create_figure_context DEFAULT_LOG_TYPE t i o line items cur
              Hdata) as [H _].
  rewrite H. unfold mime_bundle_nodes. rewrite Hdata. cbn [default].
  destruct (List.filter _ _); reflexivity.
Qed.

Lemma mfor_ext {S A} (l : list A) (f g : A -> M S unit) :
  (forall x s, x ∈ l -> f x s = g x s) ->
  forall s, mfor l f s = mfor l g s.
Proof.
  induction l as [|a l IH]; intros H s; [reflexivity|].
  simpl. unfold mbind'. rewrite (H a s) by left.
  destruct (g a s) as [[[]|e] s']; [|reflexivity].
  apply IH. intros x s0 Hx. apply H. now right.
Qed.

(** The loop over the outputs, with the figure options the cell gives. *)
Lemma outputs_loop t line fo outs : forall k cur,
  forallb renderable outs = true ->
  match cell_config nb_config (meta_metadata t) "figure" false with
  | Ok v => fo = Some v
  | Raise (KeyError _) => fo = None
  | Raise _ => False
  end ->
  mfor (zip (seq k (length outs)) outs)
    (fun '(output_index, o) =>
       render_output nb_config document_source create_warning
         create_figure_context DEFAULT_LOG_TYPE t line output_index o) cur
  = mfor (zip (seq k (length outs)) outs)
      (fun '(output_index, o) =>
         if is_display o
         then create_figure_context fo line
                (render_mime_bundle document_source t output_index o line)
         else extend (plain_output_nodes document_source create_warning
                        DEFAULT_LOG_TYPE t line o)) cur.
Proof.
  intros k cur H Hfig. apply mfor_ext. intros [i o] cur' Hin.
  apply elem_of_zip_r in Hin. rewrite forallb_forall in H.
  specialize (H o (proj1 (list_elem_of_In _ _) Hin)).
  unfold renderable in H. destruct (is_display o) eqn:Ed.
  - destruct (data o) as [items|] eqn:Hdata; [|discriminate].
    destruct (render_mime_bundle_one nb_config document_source
                create_warning create_figure_context DEFAULT_LOG_TYPE
                t i o line items cur' Hdata) as [_ Hout].
    apply Hout; [now apply is_display_type|exact Hfig].
  - apply render_output_plain. exact H.
Qed.

Lemma outputs_loop_nodes t line outs : forall k cur,
  forallb renderable outs = true ->
  (forall ln body cur', create_figure_context None ln body cur' = body cur') ->
  mfor (zip (seq k (length outs)) outs)
    (fun '(output_index, o) =>
       if is_display o
       then create_figure_context None line
              (render_mime_bundle document_source t output_index o line)
       else extend (plain_output_nodes document_source create_warning
                      DEFAULT_LOG_TYPE t line o)) cur
  = (Ok tt,
     cur ++ flat_map (output_nodes document_source create_warning
                        DEFAULT_LOG_TYPE t line)
              (zip (seq k (length outs)) outs)).
Proof.
  induction outs as [|o outs IH]; intros k cur H Hnone.
  - simpl. unfold mret. rewrite app_nil_r. reflexivity.
  - simpl in H. apply andb_true_iff in H as [Ho H].
    simpl. unfold mbind' at 1. unfold output_nodes at 1. simpl.
    unfold renderable in Ho. destruct (is_display o) eqn:Ed.
    + rewrite Hnone, render_mime_bundle_nodes
        by (destruct (data o); [eauto|discriminate]).
      rewrite IH by assumption. rewrite <- app_assoc. reflexivity.
    + unfold extend at 1. rewrite IH by assumption.
      rewrite <- app_assoc. reflexivity.
Qed.

(** C1.  The loop of [render_nb_cell_code_outputs] over the outputs of a
    cell, numbered from 0 in the order of the notebook.  Each display_data
    or execute_result output is rendered, at its place in that order and
    inside the figure context the cell's options give, by one call of
    [render_mime_bundle] with the output's number; that call makes exactly
    one mime-bundle container, whose children are, in the order of the
    output's data, one container per (mime_type, payload) pair, tagged with
    the mime type and holding what the plugin's [render_mime_type] gave for
    the pair; a pair for which the plugin gave nothing leaves no container,
    and when no container is left the bundle is not appended at all.  With
    no figure to wrap them, the nodes the loop leaves after the children of
    the current node are therefore, output by output, these bundles and the
    nodes of the streams and errors between them. *)
Theorem render_nb_cell_code_outputs_bundles t cur c :
  cells !! meta_index t = Some c ->
  forallb renderable (default [] (outputs c)) = true ->
  let line := default 0 (map_line t) in
  let outs := zip (seq 0 (length (default [] (outputs c))))
                (default [] (outputs c)) in
  (forall fo,
     match cell_config nb_config (meta_metadata t) "figure" false with
     | Ok v => fo = Some v
     | Raise (KeyError _) => fo = None
     | Raise _ => False
     end ->
     render_nb_cell_code_outputs nb_config cells document_source
       create_warning create_figure_context DEFAULT_LOG_TYPE t cur
     = mfor outs
         (fun '(output_index, o) =>
            if is_display o
            then create_figure_context fo line
                   (render_mime_bundle document_source t output_index o line)
            else extend (plain_output_nodes document_source create_warning
                           DEFAULT_LOG_TYPE t line o)) cur)
  /\ (forall output_index o cur',
        (output_index, o) ∈ outs -> is_display o = true ->
        render_mime_bundle document_source t output_index o line cur'
        = (Ok tt,
           cur' ++ mime_bundle_nodes document_source t output_index o line))
  /\ ((exists k, cell_config nb_config (meta_metadata t) "figure" false
                 = Raise (KeyError k)) ->
      (forall ln body cur',
         create_figure_context None ln body cur' = body cur') ->
      render_nb_cell_code_outputs nb_config cells document_source
        create_warning create_figure_context DEFAULT_LOG_TYPE t cur
      = (Ok tt,
         cur ++ flat_map (output_nodes document_source create_warning
                            DEFAULT_LOG_TYPE t line) outs)).
Proof.
  intros Hc Hok line outs.
  assert (forall fo,
            match cell_config nb_config (meta_metadata t) "figure" false with
            | Ok v => fo = Some v
            | Raise (KeyError _) => fo = None
            | Raise _ => False
            end ->
            render_nb_cell_code_outputs nb_config cells document_source
              create_warning create_figure_context DEFAULT_LOG_TYPE t cur
            = mfor outs
                (fun '(output_index, o) =>
                   if is_display o
                   then create_figure_context fo line
                          (render_mime_bundle document_source t output_index
                             o line)
                   else extend (plain_output_nodes document_source
                                  create_warning DEFAULT_LOG_TYPE t line o))
                cur) as Hloop.
  { intros fo Hfig. subst line outs.
    unfold render_nb_cell_code_outputs, cell_outputs, token_line.
    rewrite Hc. unfold mbind, M_bind, mbind', mlift.
    destruct (map_line t) as [ln|]; simpl; apply outputs_loop; assumption. }
  split; [exact Hloop|]. split.
  - intros i o cur' Hin Hd. apply render_mime_bundle_nodes.
    subst outs. apply elem_of_zip_r in Hin.
    rewrite forallb_forall in Hok.
    specialize (Hok o (proj1 (list_elem_of_In _ _) Hin)).
    unfold renderable in Hok. rewrite Hd in Hok.
    destruct (data o); [eauto|discriminate].
  - intros [k Hk] Hnone. rewrite (Hloop None) by (now rewrite Hk).
    subst outs. apply outputs_loop_nodes; assumption.
Qed.

Lemma replace_spaces_spec s :
  String.length (replace_spaces s) = String.length s
  /\ ~ In " "%char (list_ascii_of_string (replace_spaces s))
  /\ (~ In " "%char (list_ascii_of_string s) -> replace_spaces s = s).
Proof.
  induction s as [|c s (IH1 & IH2 & IH3)]; simpl.
  - repeat split; tauto.
  - split; [rewrite IH1; reflexivity|]. split.
    + intros [H|H]; [|exact (IH2 H)].
      destruct (Ascii.eqb_spec c " "%char) as [->|Hc];
        [discriminate H|congruence].
    + intros H. destruct (Ascii.eqb_spec c " "%char) as [->|Hc].
      * exfalso. apply H. left. reflexivity.
      * rewrite IH3; [reflexivity|]. intros Hin. apply H. right. exact Hin.
Qed.

Lemma tag_classes_list_strings tags :
  tag_classes_list (List.map VStr tags)
    = Ok (List.map (fun s => VStr ("tag_" +:+ replace_spaces s)) tags).
Proof.
  induction tags as [|s tags IH]; [reflexivity|].
  simpl. rewrite IH. reflexivity.
Qed.

Lemma tag_classes_list_other l :
  Exists (fun v => forall s, v <> VStr s) l ->
  tag_classes_list l = Raise AttributeError.
Proof.
  induction l as [|v l IH]; intros H; [inversion H|].
  apply Exists_cons in H as [H|H].
  - destruct v; try reflexivity. exfalso. exact (H _ eq_refl).
  - destruct v; try reflexivity. simpl. rewrite IH by exact H. reflexivity.
Qed.

(** X18.  The classes made from a cell's tags: a list of strings gives one
    class per tag, in order, named [tag_] and the tag with its spaces
    replaced by underscores, so that no class contains a space and a tag
    without spaces is kept as it is; tags given as one string are taken
    character by character; a tag that is not a string makes the rendering
    fail with [AttributeError]. *)
Theorem tag_classes_spec :
  (forall tags : list string,
     tag_classes (VList (List.map VStr tags))
       = Ok (List.map (fun s => VStr ("tag_" +:+ replace_spaces s)) tags))
  /\ (forall s,
        String.length (replace_spaces s) = String.length s
        /\ ~ In " "%char (list_ascii_of_string (replace_spaces s))
        /\ (~ In " "%char (list_ascii_of_string s) -> replace_spaces s = s))
  /\ (forall s : string,
        tag_classes (VStr s)
          = Ok (List.map (fun c => VStr ("tag_" +:+ replace_spaces c))
                  (string_chars s)))
  /\ (forall l, Exists (fun v => forall s, v <> VStr s) l ->
                tag_classes (VList l) = Raise AttributeError).
Proof.
  split; [exact tag_classes_list_strings|].
  split; [exact replace_spaces_spec|].
  split; [intros s; apply tag_classes_list_strings|].
  exact tag_classes_list_other.
Qed.

(** X19.  The node a code cell adds when it is not removed as a whole: one
    [cell_code] container with the cell's index, execution count, metadata
    and classes, located at the token, whose children are the
    [cell_code_source] container holding the rendered source, unless the
    input is removed, followed by the [cell_code_output] container holding
    the rendered outputs, unless the outputs are removed or the cell has
    none; nothing else is added. *)
Theorem render_nb_cell_code_structure t cur v_in v_out tcs outs src os :
  removal_flag nb_config (meta_metadata t)
    (default (VList []) (dict_get (meta_metadata t) "tags"))
    "remove_code_source" "remove_input" "remove-input" = Ok v_in ->
  removal_flag nb_config (meta_metadata t)
    (default (VList []) (dict_get (meta_metadata t) "tags"))
    "remove_code_outputs" "remove_output" "remove-output" = Ok v_out ->
  truthy v_in && truthy v_out = false ->
  tag_classes (default (VList []) (dict_get (meta_metadata t) "tags"))
    = Ok tcs ->
  cell_outputs cells (meta_index t) = Ok outs ->
  (truthy v_in = false ->
   render_nb_cell_code_source nb_config document_source
     create_highlighted_code_block t [] = (Ok tt, src)) ->
  (truthy v_out = false -> outs <> [] ->
   render_nb_cell_code_outputs nb_config cells document_source create_warning
     create_figure_context DEFAULT_LOG_TYPE t [] = (Ok tt, os)) ->
  render_nb_cell_code nb_config cells document_source
    create_highlighted_code_block create_warning create_figure_context
    DEFAULT_LOG_TYPE t cur
  = (Ok tt,
     cur ++
     [Element "container"
        [("nb_element", VStr "cell_code");
         ("cell_index", VInt (Z.of_nat (meta_index t)));
         ("exec_count", meta_execution_count t);
         ("cell_metadata", VDict (meta_metadata t));
         ("classes", VList (VStr "cell" :: tcs))]
        (stamp document_source t no_loc)
        ((if truthy v_in then []
          else [Element "container"
                  [("nb_element", VStr "cell_code_source");
                   ("classes", VList [VStr "cell_input"])]
                  (stamp document_source t no_loc) src])
         ++
         (if truthy v_out then []
          else match outs with
               | [] => []
               | _ => [Element "container"
                         [("nb_element", VStr "cell_code_output");
                          ("classes", VList [VStr "cell_output"])]
                         (stamp document_source t no_loc) os]
               end))]).
Proof.
  intros Hin Hout Hnot Htags Houts Hsrc Hos.
  unfold render_nb_cell_code. rewrite Hin, Hout.
  unfold mbind, M_bind, mbind', mlift. rewrite Hnot, Htags.
  unfold current_node_context at 1.
  cbn [add_line_and_source_path container set_loc node_loc children
       set_children].
  rewrite Houts.
  destruct (truthy v_in) eqn:Ein.
  - simpl in Hnot. rewrite Hnot in *. cbn [negb andb].
    unfold mret at 1.
    destruct outs as [|o outs].
    + reflexivity.
    + unfold current_node_context.
      cbn [add_line_and_source_path container set_loc node_loc children
           set_children].
      rewrite (Hos eq_refl) by discriminate. reflexivity.
  - cbn [negb]. unfold current_node_context at 1.
    cbn [add_line_and_source_path container set_loc node_loc children
         set_children].
    rewrite (Hsrc eq_refl). unfold mret at 1.
    destruct (truthy v_out) eqn:Eout.
    + reflexivity.
    + cbn [negb andb]. destruct outs as [|o outs].
      * reflexivity.
      * unfold current_node_context.
        cbn [add_line_and_source_path container set_loc node_loc children
             set_children].
        rewrite (Hos eq_refl) by discriminate. reflexivity.
Qed.

End BuilderMoreFacts.

(** ** The transform completes *)

Section CompletionFacts.
Import Doctree Docutils SelectMimeType Shape.

Variable get_mime_priority : string -> value -> list string.
Variable DEFAULT_LOG_TYPE : string.
Variable py_repr : value -> string.
Variable bname : string.
Variable overrides : value.
Variable document : nat.

Local Abbreviation process :=
  (SelectMimeType.process DEFAULT_LOG_TYPE py_repr bname).
Local Abbreviation process_all :=
  (SelectMimeType.process_all DEFAULT_LOG_TYPE py_repr bname).
Local Abbreviation bundle_warnings :=
  (SelectMimeType.bundle_warnings DEFAULT_LOG_TYPE py_repr bname).
Local Abbreviation diagnostics :=
  (Shape.diagnostics DEFAULT_LOG_TYPE py_repr bname).
Local Abbreviation run :=
  (SelectMimeType.run get_mime_priority DEFAULT_LOG_TYPE py_repr bname
     overrides document).

Lemma child_mime_types_spliced (s s' : store) p i new cs :
  spliced s s' p i new ->
  child_mime_types s' cs = child_mime_types s cs.
Proof.
  intros Hsp. induction cs as [|c cs IH]; [reflexivity|].
  simpl. rewrite IH. unfold deref. specialize (Hsp c).
  destruct (s !! c) as [cr|], (s' !! c) as [cr'|]; try contradiction;
    [|reflexivity].
  destruct Hsp as (Hk & Ha & _). cbn.
  unfold node_getitem, dict_getitem. rewrite Hk, (Ha "mime_type");
    [reflexivity|].
  apply (bool_decide_unpack _). vm_compute. exact I.
Qed.

Lemma replaced_attrs (s s' : store) p i new q rq :
  replaced s s' p i new -> s !! q = Some rq ->
  exists rq', s' !! q = Some rq' /\ node_attrs rq' = node_attrs rq.
Proof.
  intros H Hq. rewrite (H q), Hq. cbn. eexists. split; [reflexivity|].
  destruct (setup_child_fields (s !! p ≫= node_document) p rq)
    as (_ & Ha & _).
  destruct (decide (q ∈ new)), (decide (q = p)); cbn; rewrite ?Ha;
    reflexivity.
Qed.

(** A step on [x] leaves every other mime bundle ready, with the children
    and the mime types it had. *)
Lemma ready_step (s s' : store) d x p i r pr new done y ry :
  inv s d done ->
  s !! x = Some r -> condition r = true ->
  s !! p = Some pr -> index_of x (node_children pr) = Some i ->
  replaced s s' p i new ->
  (new = [] \/ exists w wr, w ∈ node_children r /\ s !! w = Some wr
                            /\ new = node_children wr) ->
  ready s x ->
  s !! y = Some ry -> condition ry = true -> y <> x ->
  ready s y ->
  ready s' y
  /\ (exists ry', s' !! y = Some ry'
                  /\ node_children ry' = node_children ry
                  /\ condition ry' = true)
  /\ child_mime_types s' (node_children ry)
     = child_mime_types s (node_children ry).
Proof.
  intros Hinv Hx Hc Hp Hi Hrep Hnew
    (rx & _ & _ & _ & _ & Hx0 & _ & _ & _ & _ & _ & Hclx)
    Hy Hcy Hne
    (ry0 & py & pry & iy & mts & Hy0 & Hpary & Hpy & Hiy & Hmts & Hplain & Hcl).
  assert (rx = r) as -> by congruence.
  assert (ry0 = ry) as -> by congruence.
  pose proof (replaced_spliced s s' p i new Hrep) as Hsp.
  assert (y <> p) as Hyp.
  { intros ->. assert (pr = ry) as -> by congruence.
    pose proof (inv_bundle_children _ _ _ Hinv p ry x r Hy Hcy
                  (x_in_parent x i ry Hi) Hx). congruence. }
  destruct (spliced_before s s' p i new Hsp y ry Hy)
    as (ry' & Hy' & Hcy' & Hch & Hpar').
  rewrite decide_False in Hch by exact Hyp.
  pose proof (child_mime_types_spliced s s' p i new (node_children ry) Hsp)
    as Hsame.
  destruct (replaced_attrs s s' p i new y ry Hrep Hy) as (ry2 & Hy2 & Hattrs).
  assert (ry2 = ry') as -> by congruence.
  assert (forall u, is_Some (s !! u) -> is_Some (s' !! u)) as Hdom.
  { intros u [ru Hu].
    destruct (spliced_before s s' p i new Hsp u ru Hu) as (ru' & Hu' & _).
    eauto. }
  assert (forall c cr' u, c ∈ node_children ry' -> s' !! c = Some cr' ->
            u ∈ node_children cr' -> is_Some (s' !! u)) as Hcl'.
  { intros c cr' u Hcin Hc' Hu. rewrite Hch in Hcin.
    destruct (spliced_after s s' p i new Hsp c cr' Hc')
      as (cr & Hcr & _ & Hcc & _).
    apply Hdom. rewrite Hcc in Hu.
    destruct (decide (c = p)) as [->|_]; [|exact (Hcl c cr u Hcin Hcr Hu)].
    apply elem_of_app in Hu as [Hu|Hu].
    { apply (Hcl p cr u Hcin Hcr).
      rewrite <- (take_drop i (node_children cr)). apply elem_of_app.
      now left. }
    apply elem_of_app in Hu as [Hu|Hu].
    - destruct Hnew as [->|(w & wr & Hw & Hwr & ->)]; [inversion Hu|].
      exact (Hclx w wr u Hw Hwr Hu).
    - apply (Hcl p cr u Hcin Hcr).
      rewrite <- (take_drop (S i) (node_children cr)). apply elem_of_app.
      now right. }
  split; [|split; [|exact Hsame]].
  - destruct (spliced_before s s' p i new Hsp p pr Hp)
      as (pr' & Hp' & _ & Hchp & _).
    rewrite decide_True in Hchp by reflexivity.
    destruct (decide (y ∈ new)) as [Hin|Hnin].
    + destruct (index_of_elem y (node_children pr')) as [k Hk].
      { rewrite Hchp. apply elem_of_app. right. apply elem_of_app. now left. }
      exists ry', p, pr', k, mts. rewrite Hch, Hsame, Hattrs.
      repeat split; try assumption. now rewrite <- Hch.
    + destruct (decide (py = p)) as [->|Hpp].
      * assert (pry = pr) as -> by congruence.
        destruct (index_of_elem y (node_children pr')) as [k Hk].
        { rewrite Hchp. pose proof (x_in_parent y iy pr Hiy) as Hin.
          rewrite (parent_children_split x i pr Hi) in Hin.
          rewrite !elem_of_app. apply elem_of_app in Hin as [Hin|Hin];
            [now left|].
          apply elem_of_cons in Hin as [Hin|Hin]; [contradiction|].
          right. now right. }
        exists ry', p, pr', k, mts. rewrite Hch, Hsame, Hpar', Hattrs.
        repeat split; try assumption. now rewrite <- Hch.
      * destruct (spliced_before s s' p i new Hsp py pry Hpy)
          as (pry' & Hpy' & _ & Hchy & _).
        rewrite decide_False in Hchy by exact Hpp.
        exists ry', py, pry', iy, mts. rewrite Hch, Hsame, Hpar', Hchy, Hattrs.
        repeat split; try assumption. now rewrite <- Hch.
  - exists ry'. repeat split; [exact Hy'|exact Hch|congruence].
Qed.

Lemma selection_new prio (s : store) r mts new :
  selection prio s r mts new ->
  new = [] \/ exists w wr, w ∈ node_children r /\ s !! w = Some wr
                           /\ new = node_children wr.
Proof.
  intros [(j & m & idx & w & wr & _ & _ & _ & _ & Hw & Hwr & ->)|[_ ->]];
    [|now left].
  right. exists w, wr. repeat split; [|exact Hwr].
  eapply list_elem_of_lookup_2, Hw.
Qed.

(** The loop completes on a list of distinct mime bundles that are ready:
    it resolves them one after the other, each with the children and mime
    types it had in the document [s0], and logs the warnings that document
    calls for. *)
Lemma process_all_resolved prio d (s0 : store) : forall l (s : store) log done,
  inv s d done ->
  NoDup l ->
  (forall x, x ∈ l -> x ∉ done) ->
  (forall x, x ∈ l -> exists r, s !! x = Some r /\ condition r = true) ->
  (forall x, x ∈ l -> ready s x) ->
  (forall x, x ∈ l ->
     exists r0 r mts,
       s0 !! x = Some r0 /\ s !! x = Some r
       /\ node_children r = node_children r0
       /\ child_mime_types s0 (node_children r0) = Ok mts
       /\ child_mime_types s (node_children r) = Ok mts) ->
  exists s1,
    process_all prio l (s, log)
      = Ok (s1, log ++ flat_map (bundle_warnings prio s0) l)
    /\ steps (resolves prio s0) l s s1.
Proof.
  induction l as [|x l IH]; intros s log done Hinv Hnd Hfresh Hb Hready Hkept.
  - exists s. simpl. rewrite app_nil_r. split; [reflexivity|constructor].
  - destruct (process_ready DEFAULT_LOG_TYPE py_repr bname prio s log x)
      as (r & p & pr & i & mts & new & s2 & Hx & Hpar & Hp & Hi & Hmts & Hsel
          & Hrep & Hstep);
      [apply Hready; left|].
    pose proof (replaced_spliced s s2 p i new Hrep) as Hsp.
    pose proof (selection_new prio s r mts new Hsel) as Hnew.
    destruct (Hb x) as (r' & Hr' & Hc); [left|].
    assert (r' = r) as -> by congruence.
    destruct (Hkept x) as (r0 & r1 & mts0 & Hx0 & Hx1 & Hch0 & Hm0 & Hm1);
      [left|].
    assert (r1 = r) as -> by congruence.
    assert (mts0 = mts) as -> by congruence.
    apply NoDup_cons in Hnd as [Hxl Hnd].
    assert (inv s2 d (x :: done)) as Hinv2.
    { eapply (step_inv s s2 d x p i r pr new done); try eassumption.
      apply Hfresh. left. }
    assert (forall y, y ∈ l ->
              ready s2 y
              /\ (exists ry ry', s !! y = Some ry /\ s2 !! y = Some ry'
                    /\ node_children ry' = node_children ry
                    /\ condition ry' = true)
              /\ (forall ry, s !! y = Some ry ->
                    child_mime_types s2 (node_children ry)
                    = child_mime_types s (node_children ry))) as Hrest.
    { intros y Hy. destruct (Hb y) as (ry & Hry & Hcy); [now right|].
      assert (y <> x) as Hne by (intros ->; contradiction).
      destruct (ready_step s s2 d x p i r pr new done y ry
                  Hinv Hx Hc Hp Hi Hrep Hnew (Hready x (list_elem_of_here _ _))
                  Hry Hcy Hne) as (H1 & (ry' & H2 & H3 & H4) & H5);
        [apply Hready; now right|].
      split; [exact H1|]. split; [exists ry, ry'; auto|].
      intros ry1 Hry1. assert (ry1 = ry) as -> by congruence. exact H5. }
    destruct (IH s2 (log ++ bundle_warnings prio s0 x) (x :: done) Hinv2 Hnd)
      as (s1 & Hrun & Hsteps).
    + intros y Hy Hy'. apply elem_of_cons in Hy' as [->|Hy'];
        [contradiction|]. apply (Hfresh y); [now right|exact Hy'].
    + intros y Hy. destruct (Hrest y Hy) as (_ & (ry & ry' & _ & H & _ & Hc') & _).
      eauto.
    + intros y Hy. apply (Hrest y Hy).
    + intros y Hy.
      destruct (Hrest y Hy) as (_ & (ry & ry' & Hry & Hry' & Hch' & _) & Hm).
      destruct (Hkept y) as (ry0 & ry1 & mtsy & Hy0 & Hy1 & Hchy & Hmy0 & Hmy1);
        [now right|].
      assert (ry1 = ry) as -> by congruence.
      exists ry0, ry', mtsy. repeat split; try assumption.
      * congruence.
      * rewrite Hch', (Hm ry Hry). exact Hmy1.
    + exists s1. split.
      * change (process_all prio (x :: l) (s, log))
          with (st' ← process prio (s, log) x ; process_all prio l st').
        rewrite Hstep.
        assert (bundle_warnings prio s x = bundle_warnings prio s0 x) as ->.
        { unfold SelectMimeType.bundle_warnings.
          rewrite Hx, Hx0, Hch0, Hm0. rewrite Hch0 in Hmts.
          rewrite Hmts. reflexivity. }
        cbn. rewrite Hrun. f_equal. f_equal.
        rewrite <- app_assoc. reflexivity.
      * econstructor; [|exact Hsteps].
        exists r0, r, p, pr, i, mts, new. repeat split; assumption.
Qed.

Lemma tagged_children (s : store) x xr :
  tagged s = true -> s !! x = Some xr -> condition xr = true ->
  exists mts, child_mime_types s (node_children xr) = Ok mts.
Proof.
  unfold tagged. intros H Hx Hc. rewrite forallb_forall in H.
  specialize (H (x, xr)). simpl in H. rewrite Hc in H. simpl in H.
  assert (forallb
            (fun c => match s !! c with
                      | Some cr => match node_getitem cr "mime_type" with
                                   | Ok _ => true
                                   | Raise _ => false
                                   end
                      | None => false
                      end) (node_children xr) = true) as Hall.
  { apply H. apply list_elem_of_In. now apply elem_of_map_to_list. }
  clear H. induction (node_children xr) as [|c cs IH]; [now exists []|].
  simpl in Hall. apply andb_prop in Hall as [H1 H2].
  destruct (IH H2) as [mts Hmts]. simpl. unfold deref.
  destruct (s !! c) as [cr|]; [|discriminate]. cbn.
  destruct (node_getitem cr "mime_type") as [m|]; [|discriminate]. cbn.
  rewrite Hmts. cbn. eauto.
Qed.

Lemma plain_bundle (s : store) x xr :
  plain s = true -> s !! x = Some xr -> condition xr = true ->
  no_basic_atts (node_attrs xr) = true.
Proof.
  unfold plain. intros H Hx Hc. rewrite forallb_forall in H.
  specialize (H (x, xr)). simpl in H. rewrite Hc in H. apply H.
  apply list_elem_of_In. now apply elem_of_map_to_list.
Qed.

(** The transform on a well-formed document whose mime bundles are as the
    renderer builds them: the traversal finds the mime bundles under the
    root, and the loop resolves them in that order and logs the warnings
    the document calls for. *)
Lemma run_resolved (s : store) :
  well_formed s document = true ->
  tagged s = true ->
  plain s = true ->
  exists l s1,
    traverse condition (S (size s)) s document = Ok l
    /\ (forall x, x ∈ l <->
          exists r, reachable s document x /\ s !! x = Some r
                    /\ condition r = true)
    /\ run s
       = Ok (s1, flat_map (bundle_warnings (get_mime_priority bname overrides) s)
                   l)
    /\ steps (resolves (get_mime_priority bname overrides) s) l s s1
    /\ (forall x, x ∈ l -> ~ reachable s1 document x).
Proof.
  intros Hwf Htag Hplain.
  destruct (traverse_total s document Hwf) as [l Hl].
  pose proof (traverse_NoDup s document Hwf _ document 0 l (path_here _ _) Hl)
    as Hnd.
  assert (forall x, x ∈ l -> exists r, s !! x = Some r /\ condition r = true)
    as Hb.
  { intros x Hx. apply (traverse_elem condition _ s document l Hl) in Hx
      as (n & xr & _ & Hxr & Hc). eauto. }
  destruct (process_all_resolved (get_mime_priority bname overrides) document
              s l s [] [] (well_formed_inv s document Hwf)) as (s1 & Hrun & Hst).
  - exact Hnd.
  - intros x _ Hx. inversion Hx.
  - exact Hb.
  - intros x Hx. apply (traverse_elem condition _ s document l Hl) in Hx
      as (n & xr & Hn & Hxr & Hc).
    destruct (well_formed_root s document Hwf) as (r0 & Hr0 & _ & Hc0).
    destruct n as [|n].
    { apply path_zero_inv in Hn. subst x. congruence. }
    apply path_succ_inv in Hn as (b & rb & _ & Hrb & Hin).
    destruct (well_formed_node s document b rb Hwf Hrb) as [_ Hch].
    destruct (Hch x Hin) as (xr' & Hxr' & Hpar & _).
    assert (xr' = xr) as -> by congruence.
    destruct (index_of_elem x (node_children rb) Hin) as [i Hi].
    destruct (tagged_children s x xr Htag Hxr Hc) as [mts Hmts].
    exists xr, b, rb, i, mts. repeat split; try assumption.
    + exact (plain_bundle s x xr Hplain Hxr Hc).
    + intros c cr u _ Hcr Hu.
      destruct (well_formed_node s document c cr Hwf Hcr) as [_ Hcc].
      destruct (Hcc u Hu) as (ur & Hur & _). eauto.
  - intros x Hx. apply (traverse_elem condition _ s document l Hl) in Hx
      as (n & xr & Hn & Hxr & Hc).
    destruct (tagged_children s x xr Htag Hxr Hc) as [mts Hmts].
    exists xr, xr, mts. auto.
  - exists l, s1. split; [exact Hl|].
    split; [|split; [|split; [exact Hst|]]].
    + intros x. rewrite (traverse_elem condition _ s document l Hl x). split.
      * intros (n & xr & Hn & Hxr & Hc). exists xr.
        split; [now exists n|]. split; assumption.
      * intros (r & [n Hn] & Hr & Hc). exists n, r.
        split; [exact Hn|]. split; assumption.
    + unfold SelectMimeType.run. rewrite Hl. cbn. exact Hrun.
    + destruct (process_all_inv DEFAULT_LOG_TYPE py_repr bname
                  (get_mime_priority bname overrides) document l s s1 [] _ []
                  Hrun (well_formed_inv s document Hwf) Hnd) as (Hinv1 & _).
      * intros x _ Hx. inversion Hx.
      * exact Hb.
      * intros x Hx. apply (inv_done _ _ _ Hinv1 x).
        rewrite app_nil_r. apply list_elem_of_In. apply -> in_rev.
        now apply list_elem_of_In.
Qed.

Lemma steps_impl (P Q : store -> nat -> store -> Prop) l (s s1 : store) :
  (forall a x b, P a x b -> Q a x b) -> steps P l s s1 -> steps Q l s s1.
Proof.
  intros H Hst. induction Hst; econstructor; eauto.
Qed.

Lemma mime_index_existsb m mts :
  mime_index m mts = None <-> existsb (is_vstr m) mts = false.
Proof.
  induction mts as [|v mts IH]; simpl; [tauto|].
  destruct (is_vstr m v); simpl.
  - split; discriminate.
  - destruct (mime_index m mts).
    + split; [discriminate|]. intros H. apply IH in H. discriminate.
    + split; [|reflexivity]. intros _. now apply IH.
Qed.

Lemma select_index_forallb prio mts :
  match select_index prio mts with
  | None => forallb (fun p => negb (existsb (is_vstr p) mts)) prio = true
  | Some _ => forallb (fun p => negb (existsb (is_vstr p) mts)) prio = false
  end.
Proof.
  induction prio as [|m prio IH]; simpl; [reflexivity|].
  destruct (mime_index m mts) as [k|] eqn:E.
  - destruct (existsb (is_vstr m) mts) eqn:E'; [reflexivity|].
    apply mime_index_existsb in E'. congruence.
  - apply mime_index_existsb in E. rewrite E. exact IH.
Qed.

Lemma join_concat sep l : join sep l = String.concat sep l.
Proof.
  induction l as [|x l IH]; [reflexivity|].
  simpl. destruct l as [|y l]; [reflexivity|]. rewrite IH. reflexivity.
Qed.

(** The warnings of the loop body are the ones the document is owed. *)
Lemma bundle_warnings_diagnostics prio (s : store) x :
  bundle_warnings prio s x = diagnostics prio s x.
Proof.
  unfold SelectMimeType.bundle_warnings, Shape.diagnostics.
  destruct (s !! x) as [r|]; [|reflexivity].
  destruct (child_mime_types s (node_children r)) as [[|m ms]|];
    try reflexivity.
  pose proof (select_index_forallb prio (m :: ms)) as H.
  destruct (select_index prio (m :: ms)); rewrite H; [reflexivity|].
  unfold no_mime_warning. rewrite join_concat. reflexivity.
Qed.

(** C2.  On a well-formed document whose mime bundles are as the renderer
    builds them, the transform completes; it deals, in document order, with
    each mime bundle under the root, and each is resolved as follows.  With
    [mts] the mime types of its children (those it had when the transform
    started), the priority list of the builder is scanned in order for its
    first entry [m] among [mts]; the first child with mime type [m] wins,
    and the bundle is replaced, among the children of its parent, by the
    children of the winner, which the parent adopts; neither the bundle,
    nor the winner, nor another child of the bundle is put there.  When
    the winner has no children this removes the bundle, and no later entry
    of the priority list is tried.  After the run none of the mime bundles
    is under the root. *)
Theorem run_selects_first_priority (s : store) :
  well_formed s document = true ->
  tagged s = true ->
  plain s = true ->
  exists l s1 log,
    traverse condition (S (size s)) s document = Ok l
    /\ (forall x, x ∈ l <->
          exists r, reachable s document x /\ s !! x = Some r
                    /\ condition r = true)
    /\ run s = Ok (s1, log)
    /\ steps (resolves (get_mime_priority bname overrides) s) l s s1
    /\ (forall x, x ∈ l -> ~ reachable s1 document x).
Proof.
  intros Hwf Htag Hplain.
  destruct (run_resolved s Hwf Htag Hplain)
    as (l & s1 & Hl & Hin & Hrun & Hst & Hout).
  exists l, s1. eexists. split; [exact Hl|]. split; [exact Hin|].
  split; [exact Hrun|]. split; [exact Hst|exact Hout].
Qed.

Lemma resolves_discards prio (s0 a : store) x (b : store) :
  resolves prio s0 a x b -> discards prio s0 a x b.
Proof.
  intros (r0 & r & p & pr & i & mts & new & H0 & Hx & _ & Hm0 & _ & Hpar & Hp
          & Hi & Hsel & Hrep).
  exists r0, mts. split; [exact H0|]. split; [exact Hm0|].
  intros Hnone. exists r, p, pr, i. repeat split; try assumption.
  destruct Hsel as [(j & m & idx & _ & _ & Hj & _ & Hidx & _)|[_ ->]];
    [|exact Hrep].
  exfalso. apply (Hnone m).
  - eapply list_elem_of_lookup_2, Hj.
  - eapply list_elem_of_lookup_2, Hidx.
Qed.

(** C3.  On a well-formed document whose mime bundles are as the renderer
    builds them, the warnings the transform logs are, in document order,
    one for each mime bundle that has children none of whose mime types is
    in the priority list of the builder: its message names the builder and
    lists the mime types, separated by commas, its subtype is
    [mime_priority] and it is located at the bundle.  A mime bundle without
    children gives no warning.  Both kinds of bundle are removed from
    their parent, with nothing in their place, and are no longer under the
    root after the run. *)
Theorem run_warns_unmatched (s : store) :
  well_formed s document = true ->
  tagged s = true ->
  plain s = true ->
  exists l s1,
    traverse condition (S (size s)) s document = Ok l
    /\ run s
       = Ok (s1, flat_map (diagnostics (get_mime_priority bname overrides) s) l)
    /\ steps (discards (get_mime_priority bname overrides) s) l s s1
    /\ (forall x, x ∈ l -> ~ reachable s1 document x).
Proof.
  intros Hwf Htag Hplain.
  destruct (run_resolved s Hwf Htag Hplain)
    as (l & s1 & Hl & _ & Hrun & Hst & Hout).
  exists l, s1. split; [exact Hl|]. split; [|split; [|exact Hout]].
  - rewrite Hrun. f_equal. f_equal. clear.
    induction l as [|x l IH]; [reflexivity|].
    simpl. now rewrite IH, bundle_warnings_diagnostics.
  - eapply steps_impl; [|exact Hst]. apply resolves_discards.
Qed.

(** X20.  On a well-formed document whose mime bundles are as the renderer
    builds them (tagged representations, no ids, classes, names or
    dupnames on the bundle) the transform completes: the traversal finds
    the mime bundles, the loop deals with each of them without raising, and
    the warnings it logs are, bundle by bundle in document order, those
    that the loop body gives on the document as it was before the run. *)
Theorem run_completes (s : store) :
  well_formed s document = true ->
  tagged s = true ->
  plain s = true ->
  exists l s1,
    traverse condition (S (size s)) s document = Ok l
    /\ run s
       = Ok (s1,
             flat_map (bundle_warnings (get_mime_priority bname overrides) s)
               l).
Proof.
  intros Hwf Htag Hplain.
  destruct (run_resolved s Hwf Htag Hplain) as (l & s1 & Hl & _ & Hrun & _).
  exists l, s1. split; [exact Hl|exact Hrun].
Qed.

End CompletionFacts.

(** ** What the transform leaves alone, and what decides the choice *)

Section ResolverMoreFacts.
Import Doctree Docutils SelectMimeType Shape.

Variable get_mime_priority : string -> value -> list string.
Variable DEFAULT_LOG_TYPE : string.
Variable py_repr : value -> string.
Variable bname : string.
Variable overrides : value.
Variable document : nat.

Lemma process_log prio (s s' : store) log log' x :
  process DEFAULT_LOG_TYPE py_repr bname prio (s, log) x = Ok (s', log') ->
  log' = log
  \/ exists mts,
       log' = log ++ [no_mime_warning DEFAULT_LOG_TYPE py_repr bname x mts].
Proof.
  unfold process, deref.
  destruct (s !! x) as [r|]; [|discriminate]. cbn.
  destruct (child_mime_types s (node_children r)) as [mts|]; [|discriminate].
  cbn.
  destruct mts as [|m mts].
  - destruct (parent_remove s x); [|discriminate]. cbn.
    intros [= _ <-]. now left.
  - destruct (select_index prio (m :: mts)).
    + destruct (node_children r !! n) as [w|]; [|discriminate].
      destruct (s !! w) as [wr|]; [|discriminate]. cbn.
      destruct (node_children wr).
      * destruct (parent_remove s x); [|discriminate]. cbn.
        intros [= _ <-]. now left.
      * destruct (replace_self s x (n0 :: l)); [|discriminate]. cbn.
        intros [= _ <-]. now left.
    + destruct (parent_remove s x); [|discriminate]. cbn.
      intros [= _ <-]. right. eauto.
Qed.

Lemma process_all_keeps prio : forall l (s s1 : store) log log1,
  process_all DEFAULT_LOG_TYPE py_repr bname prio l (s, log) = Ok (s1, log1) ->
  (forall q,
     match s !! q, s1 !! q with
     | Some r, Some r1 =>
         node_kind r1 = node_kind r
         /\ forall key, key ∉ basic_attributes ->
              dict_get (node_attrs r1) key = dict_get (node_attrs r) key
     | None, None => True
     | _, _ => False
     end)
  /\ exists ws,
       log1 = log ++ ws
       /\ Forall (fun w => w_type w = DEFAULT_LOG_TYPE
                           /\ w_subtype w = "mime_priority"
                           /\ w_location w ∈ l) ws.
Proof.
  induction l as [|x l IH]; intros s s1 log log1 Hrun.
  - cbn in Hrun. injection Hrun as <- <-. split.
    + intros q. destruct (s !! q); auto.
    + exists []. rewrite app_nil_r. split; [reflexivity|constructor].
  - change ((st' ← process DEFAULT_LOG_TYPE py_repr bname prio (s, log) x;
             process_all DEFAULT_LOG_TYPE py_repr bname prio l st')
            = Ok (s1, log1)) in Hrun.
    destruct (process DEFAULT_LOG_TYPE py_repr bname prio (s, log) x)
      as [[s2 log2]|] eqn:Estep; [|discriminate].
    change (process_all DEFAULT_LOG_TYPE py_repr bname prio l (s2, log2)
            = Ok (s1, log1)) in Hrun.
    destruct (IH s2 s1 log2 log1 Hrun) as (Hsame & ws & Hlog & Hws).
    destruct (process_inv _ _ _ _ _ _ _ _ _ Estep)
      as (_ & p & _ & i & new & _ & _ & _ & _ & Hsp & _).
    split.
    + intros q. specialize (Hsame q). specialize (Hsp q).
      destruct (s !! q) as [r|], (s2 !! q) as [r2|], (s1 !! q) as [r1|];
        try contradiction; try exact I.
      destruct Hsp as (K & A & _), Hsame as (K' & A').
      split; [congruence|]. intros key Hkey.
      rewrite (A' key Hkey). apply A, Hkey.
    + assert (Forall (fun w => w_type w = DEFAULT_LOG_TYPE
                               /\ w_subtype w = "mime_priority"
                               /\ w_location w ∈ x :: l) ws) as Hws'.
      { eapply Forall_impl; [exact Hws|]. intros w (? & ? & ?).
        repeat split; try assumption. now right. }
      destruct (process_log _ _ _ _ _ _ Estep) as [->|(mts & ->)].
      * exists ws. split; [exact Hlog|exact Hws'].
      * exists (no_mime_warning DEFAULT_LOG_TYPE py_repr bname x mts :: ws).
        split; [rewrite Hlog, <- app_assoc; reflexivity|].
        constructor; [|exact Hws'].
        repeat split. left.
Qed.

(** X21.  Whatever the document, a run that completes has only re-hung
    nodes: the table holds the same nodes as before, each with its class
    (and text) and with every attribute other than ids, classes, names and
    dupnames unchanged, so that no node becomes or ceases to be a mime
    bundle or changes its mime type; and every warning logged has the type
    of the extension and the subtype [mime_priority], and is located at a
    mime bundle that was in the document. *)
Theorem run_keeps_nodes (s s1 : store) log :
  run get_mime_priority DEFAULT_LOG_TYPE py_repr bname overrides document s
    = Ok (s1, log) ->
  (forall q,
     match s !! q, s1 !! q with
     | Some r, Some r1 =>
         node_kind r1 = node_kind r
         /\ forall key, key ∉ basic_attributes ->
              dict_get (node_attrs r1) key = dict_get (node_attrs r) key
     | None, None => True
     | _, _ => False
     end)
  /\ Forall (fun w => w_type w = DEFAULT_LOG_TYPE
                      /\ w_subtype w = "mime_priority"
                      /\ exists r, s !! w_location w = Some r
                                   /\ condition r = true
                                   /\ reachable s document (w_location w))
            log.
Proof.
  unfold run. intros Hrun.
  destruct (traverse condition (S (size s)) s document) as [l|] eqn:Hl;
    [|discriminate].
  cbn in Hrun.
  destruct (process_all_keeps _ _ _ _ _ _ Hrun) as (Hsame & ws & -> & Hws).
  split; [exact Hsame|]. simpl.
  eapply Forall_impl; [exact Hws|]. intros w (Ht & Hs & Hin).
  repeat split; try assumption.
  apply (traverse_elem condition _ s document l Hl) in Hin
    as (n & xr & Hn & Hxr & Hc).
  exists xr. repeat split; try assumption. now exists n.
Qed.

(** X22.  The choice depends on which mime types a bundle offers, not on
    their order: for two lists of mime types that are permutations of each
    other, either none of the priority list's entries is in them and no
    child is selected in either, or the children selected in both carry the
    same mime type, an entry of the priority list. *)
Theorem select_index_permutation prio (mts mts' : list value) :
  mts ≡ₚ mts' ->
  match select_index prio mts, select_index prio mts' with
  | Some i, Some i' =>
      exists m, mts !! i = Some (VStr m) /\ mts' !! i' = Some (VStr m)
                /\ m ∈ prio
  | None, None => True
  | _, _ => False
  end.
Proof.
  intros Hperm. induction prio as [|m0 prio IH]; simpl; [exact I|].
  destruct (mime_index m0 mts) as [i|] eqn:E.
  - destruct (mime_index m0 mts') as [i'|] eqn:E'.
    + apply mime_index_Some in E as [E _], E' as [E' _].
      exists m0. repeat split; try assumption. left.
    + exfalso. apply mime_index_None in E'. apply mime_index_Some in E as [E _].
      apply E'. rewrite <- Hperm. eapply list_elem_of_lookup_2, E.
  - destruct (mime_index m0 mts') as [i'|] eqn:E'.
    + exfalso. apply mime_index_None in E. apply mime_index_Some in E' as [E' _].
      apply E. rewrite Hperm. eapply list_elem_of_lookup_2, E'.
    + destruct (select_index prio mts), (select_index prio mts');
        try exact IH.
      destruct IH as (m & H1 & H2 & H3). exists m.
      repeat split; try assumption. now right.
Qed.

(** X25.  The nodes the loop visits: on a well-formed document the
    traversal completes within the depth [run] allows, and the list it
    gives holds each mime bundle found under the root, once, and nothing
    else. *)
Theorem traverse_finds_bundles (s : store) :
  well_formed s document = true ->
  exists l,
    traverse condition (S (size s)) s document = Ok l
    /\ NoDup l
    /\ forall x, x ∈ l <->
         exists r, reachable s document x /\ s !! x = Some r
                   /\ condition r = true.
Proof.
  intros Hwf. destruct (traverse_total s document Hwf) as [l Hl].
  exists l. split; [exact Hl|]. split.
  - apply (traverse_NoDup s document Hwf _ document 0 l (path_here _ _) Hl).
  - intros x. rewrite (traverse_elem condition _ s document l Hl x). split.
    + intros (n & xr & Hn & Hxr & Hc). exists xr.
      split; [now exists n|]. split; assumption.
    + intros (r & [n Hn] & Hr & Hc). exists n, r.
      split; [exact Hn|]. split; assumption.
Qed.

End ResolverMoreFacts.

(** ** Edges of the configuration look-ups *)

Section ConfigEdgeFacts.
Import Config Parse.

(** X23.  A cell whose render namespace is present but is not a mapping
    never supplies a value: when the key is found "in" it (as an element of
    a list or a substring of a string), or it is a value that does not
    support [in] at all, the look-up raises [TypeError]; otherwise the
    look-up goes on exactly as for a cell without the namespace. *)
Theorem get_cell_render_config_not_a_mapping
    md cfg key nb_key has_nb_key v :
  dict_get md (cell_render_key cfg) = Some v ->
  (forall d, v <> VDict d) ->
  fst (get_cell_render_config key nb_key has_nb_key
         {| the_cell_metadata := md; the_nb_config := cfg |})
  = match py_contains v key with
    | Ok false =>
        fst (get_cell_render_config key nb_key has_nb_key
               {| the_cell_metadata := []; the_nb_config := cfg |})
    | _ => Raise TypeError
    end.
Proof.
  intros Hv Hnd.
  unfold get_cell_render_config, mbind, M_bind, mbind', mget, mlift, mraise.
  cbn [the_cell_metadata the_nb_config].
  unfold dict_has, dict_getitem. rewrite Hv. cbn [negb dict_get].
  destruct v as [| | | s | l | d]; try reflexivity.
  - cbn. destruct (is_substring key s); cbn; [reflexivity|].
    destruct (negb has_nb_key); reflexivity.
  - cbn. destruct (existsb (is_vstr key) l); cbn; [reflexivity|].
    destruct (negb has_nb_key); reflexivity.
  - exfalso. exact (Hnd d eq_refl).
Qed.

Variable copy : NbParserConfig -> dict -> result NbParserConfig.
Variable nb_node_to_dict : value -> value.
Variable exn_str : exn -> string.

Lemma dict_pop_set d k v : dict_pop (dict_set d k v) k = dict_pop d k.
Proof.
  unfold dict_pop. induction d as [|[k0 v0] d IH]; simpl.
  - rewrite String.eqb_refl. reflexivity.
  - destruct (String.eqb k0 k) eqn:E; simpl; rewrite E; simpl;
      [reflexivity|]. rewrite IH. reflexivity.
Qed.

(** X24.  A notebook cannot redirect the output folder: two notebooks whose
    overrides differ only in [output_folder] update the configuration in
    the same way, the key never reaches [copy]; and when the overrides are
    a mapping the update never raises: it ends with one log record and
    either the configuration [copy] returned or, when [copy] refused, the
    configuration it started from. *)
Theorem update_config_ignores_output_folder
    nb_config md1 md2 raw1 raw2 d v :
  dict_get md1 (metadata_key nb_config) = Some raw1 ->
  dict_get md2 (metadata_key nb_config) = Some raw2 ->
  nb_node_to_dict raw1 = VDict d ->
  nb_node_to_dict raw2 = VDict (dict_set d "output_folder" v) ->
  update_config copy nb_node_to_dict exn_str nb_config md2
    = update_config copy nb_node_to_dict exn_str nb_config md1
  /\ dict_get (dict_pop d "output_folder") "output_folder" = None
  /\ exists nb_config' record,
       update_config copy nb_node_to_dict exn_str nb_config md1
         = Ok (nb_config', [record])
       /\ (copy nb_config (dict_pop d "output_folder") = Ok nb_config'
           /\ log_level record = Debug
           \/ nb_config' = nb_config /\ log_level record = Warning
              /\ exists e, copy nb_config (dict_pop d "output_folder")
                           = Raise e).
Proof.
  intros H1 H2 Hd1 Hd2.
  unfold update_config, dict_has, dict_getitem. rewrite H1, H2. cbn.
  rewrite Hd1, Hd2. cbn. rewrite dict_pop_set.
  split; [reflexivity|]. split.
  - rewrite dict_get_pop. reflexivity.
  - destruct (copy nb_config (dict_pop d "output_folder")) as [c|e].
    + eexists _, _. split; [reflexivity|]. left. split; reflexivity.
    + eexists _, _. split; [reflexivity|]. right.
      split; [reflexivity|]. split; [reflexivity|]. eauto.
Qed.

End ConfigEdgeFacts.

(** ** The further properties at concrete inputs *)

Section MoreExampleFacts.
Import Config Doctree Builder Collector Persist Setup Docutils SelectMimeType
  Shape Examples.

Lemma js_regs_pairs : js_pairs (List.map js_entry js_regs).
Proof. repeat constructor; eexists _, _; reflexivity. Qed.

Lemma move_js_files_registers_witness :
  exists env' js',
    move_js_files "intro" js_attributes main_env
      = (Ok [("source", VStr "intro.md")], env')
    /\ fst (get_js_files env' "intro") = VDict js'
    /\ dict_get js' "require"
         = Some (VList [VNone; VDict [("body", VStr "var require = {};")]]).
Proof.
  destruct (move_js_files_registers main_env "intro" js_attributes
              (List.map js_entry js_regs) [] eq_refl js_regs_pairs)
    as (env' & js' & Hrun & Hjs & Hget & _).
  - vm_compute. reflexivity.
  - exists env', js'. split; [exact Hrun|]. split; [exact Hjs|].
    rewrite Hget. reflexivity.
Defined.

Lemma parse_records_fit_together_witness :
  exists env1 env2 env3,
    store_exec_data "intro" (VDict exec0) main_env
      = (Ok (Some (["intro.err.log"], VStr "NameError: x")), env1)
    /\ store_glue_keys "intro" resources0 env1
         = (Ok (Some ["intro.glue.json"]), env2)
    /\ move_js_files "intro" js_attributes env2
         = (Ok [("source", VStr "intro.md")], env3)
    /\ fst (get_exec_data env3 "intro") = VDict exec0
    /\ new_exec_data env3 = true
    /\ dict_get (fst (doc_entry env3 "intro")) "glue"
         = Some (VList [VStr "fig"; VStr "df"]).
Proof.
  destruct (parse_records_fit_together main_env "intro" exec0
              (VStr "NameError: x") resources0
              [("fig", VStr "<Figure>"); ("df", VStr "<table>")]
              js_attributes (List.map js_entry js_regs) [])
    as (env1 & env2 & env3 & g & js' & H1 & H2 & Hg & H3 & He & Hf & Hglue & _).
  - discriminate.
  - reflexivity.
  - reflexivity.
  - discriminate.
  - reflexivity.
  - exact js_regs_pairs.
  - vm_compute. reflexivity.
  - exists env1, env2, env3. split; [exact H1|].
    assert (g = ["intro.glue.json"]) as Eg
      by (vm_compute in Hg; injection Hg as <-; reflexivity).
    rewrite Eg in H2. split; [exact H2|]. split; [exact H3|].
    split; [exact He|]. split; [exact Hf|exact Hglue].
Defined.

Lemma collect_values_correct_witness :
  collect_values repr0 "mystnb" sphinx_config0 fields0 [] []
  = (Ok [("execution_mode", VStr "force"); ("render_plugin", VStr "default")],
     [{| sl_level := LogWarning;
         sl_message :=
           "'jupyter_execute_notebooks' is deprecated for 'nb_execution_mode' [mystnb.config]";
         sl_type := Some "mystnb";
         sl_subtype := Some "config" |}]).
Proof.
  rewrite (collect_values_correct repr0 repr0 "mystnb" sphinx_config0
             fields0 []).
  - vm_compute. reflexivity.
  - intros n Hn. simpl in Hn.
    destruct Hn as [<-|[<-|[<-|[]]]]; vm_compute; eexists; reflexivity.
  - intros f ln [<-|[<-|[<-|[]]]] Hex Hln; try discriminate.
    injection Hln as <-. eexists. reflexivity.
  - apply (bool_decide_unpack _). vm_compute. exact I.
Defined.

Lemma add_per_page_html_resources_adds_witness :
  page_js_files
    (snd (add_per_page_html_resources (fun _ _ => Ok tt) app0 "intro"))
  = [(VStr "https://cdn.example/embed-amd.js",
      [("crossorigin", VStr "anonymous")]);
     (VNone, [("body", VStr "var require = {};")])].
Proof.
  rewrite (add_per_page_html_resources_adds (fun _ _ => Ok tt) app0 page_env
             "intro" js_regs eq_refl eq_refl).
  - reflexivity.
  - vm_compute. reflexivity.
  - intros r _. reflexivity.
Defined.

Lemma registered_files_reach_the_page_witness :
  exists env' a',
    move_js_files "intro" js_attributes main_env
      = (Ok [("source", VStr "intro.md")], env')
    /\ add_per_page_html_resources (fun _ _ => Ok tt)
         {| app_env := Some env'; builder_format := Some "html";
            page_js_files := [] |} "intro" = (Ok tt, a')
    /\ page_js_files a'
         = [(VStr "https://cdn.example/embed-amd.js",
             [("crossorigin", VStr "anonymous")]);
            (VNone, [("body", VStr "var require = {};")])].
Proof.
  destruct (registered_files_reach_the_page (fun _ _ => Ok tt) main_env
              "intro" js_attributes js_regs [] eq_refl)
    as (env' & a' & H1 & H2 & H3).
  - apply (bool_decide_unpack _). vm_compute. exact I.
  - vm_compute. reflexivity.
  - intros r _. reflexivity.
  - exists env', a'. split; [exact H1|]. split; [exact H2|exact H3].
Defined.

Lemma render_nb_cell_code_outputs_plain_witness :
  render_nb_cell_code_outputs (plugin := text_plugin) config0 cells1
    "index.md" warning0 figure0 "mystnb" token1 []
  = (Ok tt,
     [Text "stdout" {| line := Some 7; source := Some "index.md" |};
      Element "system_message" [("type", VStr "WARNING")] no_loc
        [Text "Unsupported output type: update_display_data" no_loc];
      Text "error" {| line := Some 7; source := Some "index.md" |}]).
Proof.
  rewrite (render_nb_cell_code_outputs_plain (plugin := text_plugin) config0
             cells1 "index.md" warning0 figure0 "mystnb" token1 []
             _ eq_refl eq_refl).
  reflexivity.
Defined.

Lemma render_nb_cell_code_structure_witness :
  exists n,
    render_nb_cell_code (plugin := text_plugin) config0 cells1 "index.md"
      highlight0 warning0 figure0 "mystnb" token1 [] = (Ok tt, [n])
    /\ dict_get (attributes n) "classes"
         = Some (VList [VStr "cell"; VStr "tag_hide_input"])
    /\ List.map (fun c => dict_get (attributes c) "nb_element") (children n)
         = [Some (VStr "cell_code_source"); Some (VStr "cell_code_output")].
Proof.
  eexists. split.
  - apply (render_nb_cell_code_structure (plugin := text_plugin) config0
             cells1 "index.md" highlight0 warning0 figure0 "mystnb" token1 []
             (VBool false) (VBool false) [VStr "tag_hide_input"]
             (default [] (outputs (default {| outputs := None |}
                                     (cells1 !! 0)))));
      try reflexivity; intros; vm_compute; reflexivity.
  - split; reflexivity.
Defined.

Lemma run_completes_witness :
  exists s1 log, run0 store0 = Ok (s1, log) /\ List.length log = 1.
Proof.
  destruct (run_completes priority0 "mystnb" repr0 "html" VNone 0 store0)
    as (l & s1 & Hl & Hrun); try (vm_compute; reflexivity).
  eexists s1, _. split; [exact Hrun|].
  vm_compute in Hl. injection Hl as <-. vm_compute. reflexivity.
Defined.

Lemma run_keeps_nodes_witness :
  exists s1 log,
    run0 store0 = Ok (s1, log)
    /\ node_kind (node_of s1 11) = KElement "container"
    /\ Forall (fun w => w_subtype w = "mime_priority") log.
Proof.
  destruct (run0 store0) as [[s1 log]|e] eqn:E.
  - exists s1, log. split; [reflexivity|].
    destruct (run_keeps_nodes priority0 "mystnb" repr0 "html" VNone 0
                store0 s1 log E) as [Hsame Hlog].
    split.
    + specialize (Hsame 11). unfold node_of.
      destruct (store0 !! 11) as [r|] eqn:E11; [|vm_compute in E11; discriminate].
      destruct (s1 !! 11) as [r1|]; [|contradiction].
      destruct Hsame as (K & _). simpl. rewrite K.
      vm_compute in E11. injection E11 as <-. reflexivity.
    + eapply Forall_impl; [exact Hlog|]. intros w (_ & H & _). exact H.
  - vm_compute in E. discriminate E.
Defined.

Lemma select_index_permutation_witness :
  exists m,
    [VStr "text/plain"; VStr "text/html"] !! 1 = Some (VStr m)
    /\ [VStr "text/html"; VStr "text/plain"] !! 0 = Some (VStr m)
    /\ m ∈ ["text/latex"; "text/html"; "text/plain"].
Proof.
  exact (select_index_permutation ["text/latex"; "text/html"; "text/plain"]
           [VStr "text/plain"; VStr "text/html"]
           [VStr "text/html"; VStr "text/plain"]
           (perm_swap _ _ _)).
Defined.

Lemma get_cell_render_config_not_a_mapping_witness :
  fst (get_cell_render_config "remove_code_source" None true
         {| the_cell_metadata :=
              [("mystnb", VList [VStr "remove_code_source"])];
            the_nb_config := config0 |})
  = Raise TypeError.
Proof.
  rewrite (get_cell_render_config_not_a_mapping
             [("mystnb", VList [VStr "remove_code_source"])] config0
             "remove_code_source" None true
             (VList [VStr "remove_code_source"]) eq_refl).
  - reflexivity.
  - intros d. discriminate.
Defined.

Lemma update_config_ignores_output_folder_witness :
  Parse.update_config copy0 id (fun _ => "refused") config0
    [("mystnb", VDict [("number_source_lines", VBool true);
                       ("output_folder", VStr "elsewhere")])]
  = Parse.update_config copy0 id (fun _ => "refused") config0
      [("mystnb", VDict [("number_source_lines", VBool true)])].
Proof.
  exact (proj1 (update_config_ignores_output_folder copy0 id
                  (fun _ => "refused") config0
                  [("mystnb", VDict [("number_source_lines", VBool true)])]
                  [("mystnb", VDict [("number_source_lines", VBool true);
                                     ("output_folder", VStr "elsewhere")])]
                  _ _ [("number_source_lines", VBool true)]
                  (VStr "elsewhere") eq_refl eq_refl eq_refl eq_refl)).
Defined.

Lemma traverse_finds_bundles_witness :
  exists l,
    traverse condition (S (size store0)) store0 0 = Ok l
    /\ NoDup l /\ 11 ∈ l.
Proof.
  destruct (traverse_finds_bundles 0 store0) as (l & Hl & Hnd & Hin);
    [vm_compute; reflexivity|].
  exists l. split; [exact Hl|]. split; [exact Hnd|].
  vm_compute in Hl. injection Hl as <-.
  repeat first [apply list_elem_of_here | apply list_elem_of_further].
Defined.

Lemma parse_override_not_a_mapping_witness :
  Parse.update_config copy0 id (fun _ => "refused") config0
    scalar_notebook_metadata = Raise AttributeError
  /\ Parse.parse copy0 id (fun _ => "refused") unit (fun _ _ => tt) config0
       scalar_notebook_metadata = Raise AttributeError.
Proof.
  apply (parse_override_not_a_mapping copy0 id (fun _ => "refused") unit
           (fun _ _ => tt) config0 scalar_notebook_metadata (VStr "oops")
           eq_refl).
  intros d. discriminate.
Defined.

Lemma render_nb_cell_code_outputs_bundles_witness :
  render_nb_cell_code_outputs (plugin := numbering_plugin) config0 cells2
    "index.md" warning0 figure0 "mystnb" token2 []
  = (Ok tt,
     [Text "stdout" {| line := Some 5; source := Some "index.md" |};
      Element "container" [("nb_element", VStr "mime_bundle")]
        {| line := Some 5; source := Some "index.md" |}
        [Element "container" [("mime_type", VStr "text/plain")]
           {| line := Some 5; source := Some "index.md" |}
           [Text "<Figure> #1"
              {| line := Some 5; source := Some "index.md" |}];
         Element "container" [("mime_type", VStr "text/html")]
           {| line := Some 5; source := Some "index.md" |}
           [Text "<b>Figure</b> #1"
              {| line := Some 5; source := Some "index.md" |}]];
      Element "container" [("nb_element", VStr "mime_bundle")]
        {| line := Some 5; source := Some "index.md" |}
        [Element "container" [("mime_type", VStr "text/html")]
           {| line := Some 5; source := Some "index.md" |}
           [Text "<table/> #3"
              {| line := Some 5; source := Some "index.md" |}]]]).
Proof.
  destruct (render_nb_cell_code_outputs_bundles (plugin := numbering_plugin)
              config0 cells2 "index.md" warning0 figure0 "mystnb" token2 []
              _ eq_refl eq_refl) as (_ & _ & H).
  rewrite H.
  - vm_compute. reflexivity.
  - exists "figure". vm_compute. reflexivity.
  - intros ln body cur'. reflexivity.
Defined.

Lemma run_selects_first_priority_witness :
  exists s1 log,
    run0 store0 = Ok (s1, log)
    /\ steps (resolves (priority0 "html" VNone) store0) [3; 8; 11; 14]
         store0 s1
    /\ node_children (node_of s1 0) = [1; 7; 10]
    /\ node_parent (node_of s1 7) = Some 0
    /\ node_loc (node_of s1 7) = current0.
Proof.
  destruct (run_selects_first_priority priority0 "mystnb" repr0 "html" VNone
              0 store0) as (l & s1 & log & Hl & _ & Hrun & Hst & _);
    try (vm_compute; reflexivity).
  vm_compute in Hl. injection Hl as <-.
  exists s1, log. split; [exact Hrun|]. split; [exact Hst|].
  clear Hst. vm_compute in Hrun. injection Hrun as <- _.
  vm_compute. repeat split.
Defined.

Lemma run_warns_unmatched_witness :
  exists s1 w,
    run0 store2 = Ok (s1, [w])
    /\ w_message w =
         "No mime type available in priority list for builder 'html' ('image/png','application/json') [mystnb.mime_priority]"
    /\ w_subtype w = "mime_priority"
    /\ w_location w = 1
    /\ steps (discards (priority0 "html" VNone) store2) [1; 8] store2 s1.
Proof.
  destruct (run_warns_unmatched priority0 "mystnb" repr0 "html" VNone
              0 store2) as (l & s1 & Hl & Hrun & Hst & _);
    try (vm_compute; reflexivity).
  vm_compute in Hl. injection Hl as <-.
  exists s1. eexists. split; [exact Hrun|].
  split; [vm_compute; reflexivity|]. split; [reflexivity|].
  split; [reflexivity|exact Hst].
Defined.

(** The hypothesis on the attributes of the mime bundles is needed: a
    mime bundle that carries a class hands it over to the first node that
    takes its place when that is an element, and makes the transform raise
    when it is a text. *)
Remark run_hands_over_attributes :
  plain store_text = false
  /\ run0 store_text = Raise AssertionError
  /\ plain store_para = false
  /\ exists s1,
       run0 store_para = Ok (s1, [])
       /\ node_children (node_of s1 0) = [3]
       /\ node_attrs (node_of store_para 3) = []
       /\ node_attrs (node_of s1 3) = [("classes", VList [VStr "keep"])].
Proof.
  split; [vm_compute; reflexivity|]. split; [vm_compute; reflexivity|].
  split; [vm_compute; reflexivity|].
  destruct (run0 store_para) as [[s1 log]|e] eqn:E;
    [|vm_compute in E; discriminate E].
  exists s1. vm_compute in E. injection E as <- <-.
  split; [reflexivity|]. vm_compute. repeat split.
Qed.

End MoreExampleFacts.
